(** * Sensors Analytics C SDK: value tree, JSON encoder, name validator,
      envelope builder and logging consumer.

    A shallow embedding of [sensors_analytics.c] (with [sensors_analytics.h]),
    in the [USE_POSIX] build the demo program exercises (its section 4.3
    expects the regular-expression checks to reject [time] and [100vip]).

    Conventions.
    - A NUL-terminated [const char*] is the Rocq [string] of its bytes before
      the terminator; a NULL pointer is [None].  A byte buffer that comes with
      an explicit length (the payload of a String node) is a [string] that may
      hold the byte 0; [c_str] reads it the way C reads a NUL-terminated
      string.
    - A node is a value.  [ref_count], [malloc] and [free] are not modelled:
      [SA_SAFE_MALLOC] leaves the process when memory runs out, so an
      allocation that returns has succeeded, and no function below looks at a
      node after releasing its last reference.  A function that updates a node
      in place returns the updated node.
    - Dereferencing NULL or a number used as a pointer and reading past a
      buffer have no defined result: the functions that can do so return
      [option] or [step], [None] and [Undefined] standing for such a run.
    - A union member other than the stored one is read from the bytes the
      stored member left in the zeroed node, in the LP64 little-endian layout
      of this build; where those bytes are an address, which a value does
      not have, the read has no result in this model either.
    - What the program reads from its environment is an argument: the clock
      ([now], [time]), the time zone ([localtime]), the files, and what the C
      library prints for a [double]. *)

From Stdlib Require Import String Ascii List ZArith NArith Bool Lia.
From Stdlib Require Import Floats.PrimFloat.
From Stdlib Require Floats.FloatOps Floats.SpecFloat.
Import ListNotations.

Local Open Scope string_scope.
Local Open Scope list_scope.
Local Open Scope Z_scope.

(** ** C strings *)

Module CString.

Definition byte (c : ascii) : Z := Z.of_N (N_of_ascii c).

Definition NUL : ascii := ascii_of_N 0.

(** [strlen]: the model string is the text before the terminator. *)
Definition strlen (s : string) : Z := Z.of_nat (String.length s).

(** The bytes of a buffer up to its first 0 byte. *)
Fixpoint c_str (buf : string) : string :=
  match buf with
  | EmptyString => EmptyString
  | String c rest => if Ascii.eqb c NUL then EmptyString else String c (c_str rest)
  end.

(** [strncmp(s1, s2, n)]: bytes compare as [unsigned char], the comparison
    stops at a 0 byte; the end of the model string is the terminating 0. *)
Fixpoint strncmp (s1 s2 : string) (n : nat) {struct n} : Z :=
  match n with
  | O => 0
  | S n' =>
    match s1, s2 with
    | EmptyString, EmptyString => 0
    | EmptyString, String c2 _ => 0 - byte c2
    | String c1 _, EmptyString => byte c1
    | String c1 r1, String c2 r2 =>
      if Ascii.eqb c1 c2
      then if Ascii.eqb c1 NUL then 0 else strncmp r1 r2 n'
      else byte c1 - byte c2
    end
  end.

(** The first [n] bytes of a string. *)
Fixpoint prefix_n (n : nat) (s : string) {struct n} : string :=
  match n, s with
  | S n', String c r => String c (prefix_n n' r)
  | _, _ => EmptyString
  end.

(** [snprintf(buf, size, ...)] keeps at most [size - 1] bytes of the text. *)
Definition snprintf (size : nat) (text : string) : string :=
  prefix_n (Nat.pred size) text.

(** Every byte of [s] satisfies [p]. *)
Fixpoint all_chars (p : ascii -> bool) (s : string) : bool :=
  match s with
  | EmptyString => true
  | String c r => p c && all_chars p r
  end.

End CString.
Import CString.

(** ** Error codes ([SAErrCode]) *)

Inductive SAErrCode : Set :=
| SA_OK
| SA_MALLOC_ERROR
| SA_INVALID_PARAMETER_ERROR
| SA_IO_ERROR.

Definition SA_FALSE : Z := 0.
Definition SA_TRUE : Z := 1.

(** ** SANode *)

Inductive SANodeTag : Set :=
| SA_BOOL
| SA_NUMBER
| SA_INT
| SA_DATE
| SA_STRING
| SA_LIST
| SA_DICT.

(** [struct SANode]: the key and the tagged union.  [SAListNode] chains are
    Rocq lists, head first. *)
Inductive SANode : Type :=
| mkSANode (key : option string) (u : SAUnion)
with SAUnion : Type :=
| bool_ (b : Z)
| number_ (d : float)
| int_ (i : Z)
| date_ (seconds : Z) (microseconds : Z)
| string_ (bytes : string)
| list_ (array_ : list SANode)
| dict_ (array_ : list SANode).

Definition key (node : SANode) : option string :=
  match node with mkSANode k _ => k end.

Definition union (node : SANode) : SAUnion :=
  match node with mkSANode _ u => u end.

Definition tag (node : SANode) : SANodeTag :=
  match union node with
  | bool_ _ => SA_BOOL
  | number_ _ => SA_NUMBER
  | int_ _ => SA_INT
  | date_ _ _ => SA_DATE
  | string_ _ => SA_STRING
  | list_ _ => SA_LIST
  | dict_ _ => SA_DICT
  end.

(** [node->array_] of a List or Dict node (no other node is asked for it). *)
Definition array_ (node : SANode) : list SANode :=
  match union node with
  | list_ l | dict_ l => l
  | _ => []
  end.

(** Assignment to [parent->array_]. *)
Definition set_array_ (parent : SANode) (l : list SANode) : SANode :=
  match parent with
  | mkSANode k (list_ _) => mkSANode k (list_ l)
  | mkSANode k (dict_ _) => mkSANode k (dict_ l)
  | _ => parent
  end.

Definition _sa_init_bool_node (k : option string) (b : Z) : SANode :=
  mkSANode k (bool_ b).

Definition _sa_init_number_node (k : option string) (d : float) : SANode :=
  mkSANode k (number_ d).

Definition _sa_init_int_node (k : option string) (i : Z) : SANode :=
  mkSANode k (int_ i).

Definition _sa_init_date_node (k : option string) (seconds microseconds : Z) : SANode :=
  mkSANode k (date_ seconds microseconds).

(** [memcpy(node->string_, str, length)]: the first [length] bytes of the
    caller's buffer. *)
Definition _sa_init_string_node (k : option string) (str : string) (length : nat) : SANode :=
  mkSANode k (string_ (prefix_n length str)).

Definition _sa_init_list_node (k : option string) : SANode := mkSANode k (list_ []).

Definition _sa_init_dict_node (k : option string) : SANode := mkSANode k (dict_ []).

(** The test both list walks apply to an element:
    [NULL != value->key && 0 == strncmp(value->key, key, 256)]. *)
Definition key_is (k : string) (value : SANode) : bool :=
  match key value with
  | Some vk => strncmp vk k 256 =? 0
  | None => false
  end.

(** The [while] loop of [_sa_get_child]. *)
Fixpoint _sa_get_child_loop (k : string) (curr : list SANode) : option SANode :=
  match curr with
  | [] => None
  | value :: next => if key_is k value then Some value else _sa_get_child_loop k next
  end.

Definition _sa_get_child (k : option string) (parent : SANode) : option SANode :=
  match tag parent, k with
  | SA_DICT, Some k' => _sa_get_child_loop k' (array_ parent)
  | _, _ => None
  end.

(** The [while] loop of [_sa_remove_child]: an element is unlinked when the
    key is NULL or names it. *)
Fixpoint _sa_remove_child_loop (k : option string) (curr : list SANode) : list SANode :=
  match curr with
  | [] => []
  | value :: next =>
    if match k with None => true | Some k' => key_is k' value end
    then _sa_remove_child_loop k next
    else value :: _sa_remove_child_loop k next
  end.

Definition _sa_remove_child (k : option string) (parent : SANode) : SANode :=
  match tag parent with
  | SA_DICT | SA_LIST => set_array_ parent (_sa_remove_child_loop k (array_ parent))
  | _ => parent
  end.

(** [_sa_add_child]: the value of the new list element ([None] for the NULL
    return) and the parent afterwards. *)
Definition _sa_add_child (child parent : SANode) : option SANode * SANode :=
  match tag parent with
  | SA_DICT =>
    match key child with
    | None => (None, parent)
    | Some k =>
      let parent' := _sa_remove_child (Some k) parent in
      (Some child, set_array_ parent' (child :: array_ parent'))
    end
  | SA_LIST => (Some child, set_array_ parent (child :: array_ parent))
  | _ => (None, parent)
  end.

(** ** Properties *)

Definition sa_init_properties : SANode := _sa_init_dict_node (Some "properties").

Definition sa_add_bool (k : option string) (b : Z) (properties : option SANode)
  : SAErrCode * option SANode :=
  match properties with
  | None => (SA_INVALID_PARAMETER_ERROR, None)
  | Some p =>
    let child := _sa_init_bool_node k b in
    (SA_OK, Some (snd (_sa_add_child child p)))
  end.

Definition sa_add_number (k : option string) (d : float) (properties : option SANode)
  : SAErrCode * option SANode :=
  match properties with
  | None => (SA_INVALID_PARAMETER_ERROR, None)
  | Some p =>
    let child := _sa_init_number_node k d in
    (SA_OK, Some (snd (_sa_add_child child p)))
  end.

Definition sa_add_int (k : option string) (i : Z) (properties : option SANode)
  : SAErrCode * option SANode :=
  match properties with
  | None => (SA_INVALID_PARAMETER_ERROR, None)
  | Some p =>
    let child := _sa_init_int_node k i in
    (SA_OK, Some (snd (_sa_add_child child p)))
  end.

Definition sa_add_date (k : option string) (seconds microseconds : Z)
  (properties : option SANode) : SAErrCode * option SANode :=
  match properties with
  | None => (SA_INVALID_PARAMETER_ERROR, None)
  | Some p =>
    let child := _sa_init_date_node k seconds microseconds in
    (SA_OK, Some (snd (_sa_add_child child p)))
  end.

Definition sa_add_string (k : option string) (str : string) (length : nat)
  (properties : option SANode) : SAErrCode * option SANode :=
  match properties with
  | None => (SA_INVALID_PARAMETER_ERROR, None)
  | Some p =>
    let child := _sa_init_string_node k str length in
    (SA_OK, Some (snd (_sa_add_child child p)))
  end.

(** Adopting the nodes of [cs] one after the other, as a caller that adds
    them with successive [_sa_add_child] calls does. *)
Definition add_children (cs : list SANode) (parent : SANode) : SANode :=
  fold_left (fun p c => snd (_sa_add_child c p)) cs parent.

(** No two nodes of the list name each other's key. *)
Fixpoint distinct_keys (cs : list SANode) : bool :=
  match cs with
  | [] => true
  | c :: rest =>
    match key c with
    | Some k => forallb (fun v => negb (key_is k v)) rest && distinct_keys rest
    | None => false
    end
  end.

(** Some node of [cs] carries a key that names [v]. *)
Definition named_by (cs : list SANode) (v : SANode) : bool :=
  existsb (fun c => match key c with Some k => key_is k v | None => false end) cs.

(** The node's key is exactly [k]. *)
Definition has_key (k : string) (v : SANode) : bool :=
  match key v with
  | Some vk => String.eqb vk k
  | None => false
  end.


(** ** [printf] conversions *)

Module Printf.

Definition digit_char (d : Z) : ascii := ascii_of_N (Z.to_N (48 + d)).

(** The decimal digits of [n], most significant first; [fuel] bounds their
    number. *)
Fixpoint decimal_loop (fuel : nat) (n : Z) (acc : string) : string :=
  match fuel with
  | O => acc
  | S fuel' =>
    let acc' := String (digit_char (n mod 10)) acc in
    if n <? 10 then acc' else decimal_loop fuel' (n / 10) acc'
  end.

Definition decimal (n : Z) : string :=
  decimal_loop (S (Z.to_nat (Z.log2 n))) n EmptyString.

Fixpoint zeros (n : nat) : string :=
  match n with
  | O => EmptyString
  | S n' => String "0" (zeros n')
  end.

(** [%0<width>d] (also with the [l] and [ll] length modifiers): the sign
    counts towards the width, the zeros go between sign and digits. *)
Definition printf_0d (width : nat) (n : Z) : string :=
  if n <? 0 then
    let ds := decimal (- n) in
    (String "-" (zeros (Nat.pred width - String.length ds)) ++ ds)%string
  else
    let ds := decimal n in
    (zeros (width - String.length ds) ++ ds)%string.

(** [%d], [%ld], [%lld]. *)
Definition printf_d (n : Z) : string := printf_0d 0 n.

End Printf.
Import Printf.

(** [struct tm], the fields the library reads. *)
Record tm : Set := mk_tm {
  tm_sec : Z;
  tm_min : Z;
  tm_hour : Z;
  tm_mday : Z;
  tm_mon : Z;
  tm_year : Z
}.

(** *** The text of a date in the specification's words *)

Module DateSpec.

Definition is_digit (c : ascii) : bool := (48 <=? byte c) && (byte c <=? 57).

(** The number a string of decimal digits denotes, after the digits already
    read have given [acc]. *)
Fixpoint digits_value (acc : Z) (s : string) : Z :=
  match s with
  | EmptyString => acc
  | String c r => digits_value (acc * 10 + (byte c - 48)) r
  end.

Definition first_byte (s : string) : Z :=
  match s with
  | EmptyString => 0
  | String c _ => byte c
  end.

(** [text] is [n] in decimal, with zeros in front up to [width] digits and
    none beyond. *)
Definition zero_padded (width : nat) (n : Z) (text : string) : Prop :=
  all_chars is_digit text = true
  /\ digits_value 0 text = n
  /\ (width <= String.length text)%nat
  /\ ((width < String.length text)%nat -> first_byte text <> 48).

(** ["YYYY-MM-DD HH:MM:SS.mmm"], quotes included, from the texts of its
    fields. *)
Definition date_string (Y M D h m s F : string) : string :=
  (String (ascii_of_nat 34) Y ++ "-" ++ M ++ "-" ++ D ++ " " ++ h ++ ":" ++ m ++ ":" ++ s
     ++ "." ++ F ++ String (ascii_of_nat 34) EmptyString)%string.

End DateSpec.

(** ** UTF-8 *)

Definition peek (s : string) : Z :=
  match s with
  | EmptyString => 0
  | String c _ => byte c
  end.

Definition advance (s : string) : string :=
  match s with
  | EmptyString => EmptyString
  | String _ r => r
  end.

Fixpoint advance_n (n : nat) (s : string) : string :=
  match n with
  | O => s
  | S n' => advance_n n' (advance s)
  end.

Definition continuation (b : Z) : bool := Z.land b 0xC0 =? 0x80.

(** [sa_utf8_validate_cz]: the length (1 to 4) of the UTF-8 character at [s],
    0 when it is invalid or clipped. *)
Definition sa_utf8_validate_cz (s : string) : nat :=
  let c := peek s in
  let s1 := advance s in
  let s2 := advance s1 in
  let s3 := advance s2 in
  if c <=? 0x7F then 1%nat
  else if c <=? 0xC1 then 0%nat
  else if c <=? 0xDF then
    if negb (continuation (peek s1)) then 0%nat else 2%nat
  else if c <=? 0xEF then
    if (c =? 0xE0) && (peek s1 <? 0xA0) then 0%nat
    else if (c =? 0xED) && (peek s1 >? 0x9F) then 0%nat
    else if negb (continuation (peek s1)) then 0%nat
    else if negb (continuation (peek s2)) then 0%nat
    else 3%nat
  else if c <=? 0xF4 then
    if (c =? 0xF0) && (peek s1 <? 0x90) then 0%nat
    else if (c =? 0xF4) && (peek s1 >? 0x8F) then 0%nat
    else if negb (continuation (peek s1)) then 0%nat
    else if negb (continuation (peek s2)) then 0%nat
    else if negb (continuation (peek s3)) then 0%nat
    else 4%nat
  else 0%nat.

(** The [for] loop of [sa_utf8_validate]; every round moves [s] forward, so
    [fuel] larger than the length of [s] is never used up. *)
Fixpoint sa_utf8_validate_loop (fuel : nat) (s : string) : bool :=
  match fuel with
  | O => true
  | S fuel' =>
    if peek s =? 0 then true
    else
      let len := sa_utf8_validate_cz s in
      if Nat.eqb len 0 then false
      else sa_utf8_validate_loop fuel' (advance_n len s)
  end.

Definition sa_utf8_validate (s : string) : bool :=
  sa_utf8_validate_loop (S (String.length s)) s.

(** ** Encoder *)

Definition chr (n : nat) : string := String (ascii_of_nat n) EmptyString.

Definition quote : string := chr 34.
Definition backslash : string := chr 92.

(** U+FFFD in UTF-8. *)
Definition replacement_character : string :=
  String (ascii_of_nat 239) (String (ascii_of_nat 191) (String (ascii_of_nat 189) EmptyString)).

(** The [while] loop of [_sa_dump_string]: [s] is what is left to
    read, [b] what has been written.  [utf8_read_char] reads the text through
    a [const unsigned int*], four bytes for each byte it means, so the escape
    branch has no defined result.  [None] also stands for [fuel] running out,
    which [fuel] larger than the length of [s] excludes. *)
Fixpoint _sa_dump_string_loop (escape_unicode : bool) (fuel : nat) (s b : string)
  : option string :=
  match fuel with
  | O => None
  | S fuel' =>
    let c := peek s in
    if c =? 0 then Some b
    else if c =? 34 then
      _sa_dump_string_loop escape_unicode fuel' (advance s) (b ++ backslash ++ quote)%string
    else if c =? 92 then
      _sa_dump_string_loop escape_unicode fuel' (advance s) (b ++ backslash ++ backslash)%string
    else if c =? 8 then
      _sa_dump_string_loop escape_unicode fuel' (advance s) (b ++ backslash ++ "b")%string
    else if c =? 12 then
      _sa_dump_string_loop escape_unicode fuel' (advance s) (b ++ backslash ++ "f")%string
    else if c =? 10 then
      _sa_dump_string_loop escape_unicode fuel' (advance s) (b ++ backslash ++ "n")%string
    else if c =? 13 then
      _sa_dump_string_loop escape_unicode fuel' (advance s) (b ++ backslash ++ "r")%string
    else if c =? 9 then
      _sa_dump_string_loop escape_unicode fuel' (advance s) (b ++ backslash ++ "t")%string
    else
      let len := sa_utf8_validate_cz s in
      if Nat.eqb len 0 then
        _sa_dump_string_loop escape_unicode fuel' (advance s)
          (b ++ (if escape_unicode then backslash ++ "uFFFD" else replacement_character))%string
      else if (c <? 0x1F) || ((c >=? 0x80) && escape_unicode) then None
      else
        _sa_dump_string_loop escape_unicode fuel' (advance_n len s) (b ++ prefix_n len s)%string
  end.

(** [_sa_dump_string] on the payload of a String node: the status and the
    buffer afterwards. *)
Definition _sa_dump_string (payload : string) (sb : string) : option (SAErrCode * string) :=
  let escape_unicode := false in
  if negb (sa_utf8_validate payload) then Some (SA_INVALID_PARAMETER_ERROR, sb)
  else
    match _sa_dump_string_loop escape_unicode (S (String.length payload)) payload
            (sb ++ quote)%string with
    | Some b => Some (SA_OK, (b ++ quote)%string)
    | None => None
    end.

Section Encoder.

(** The C library: [localtime_r] in the process's time zone, and what
    [snprintf] writes for [%.3f]. *)
Variable localtime : Z -> tm.
Variable printf_3f : float -> string.

Section Children.

Variable dump_node : SANode -> string -> option (SAErrCode * string).

(** The [while] loop of [_sa_dump_list]; the status of [_sa_dump_node] is
    not looked at. *)
Fixpoint _sa_dump_list_loop (child : list SANode) (sb : string) : option string :=
  match child with
  | [] => Some sb
  | value :: next =>
    match dump_node value sb with
    | None => None
    | Some (_, sb1) =>
      _sa_dump_list_loop next (match next with [] => sb1 | _ => sb1 ++ "," end)%string
    end
  end.

(** The [while] loop of [_sa_dump_dict]; [strlen] of a NULL key has no
    defined result. *)
Fixpoint _sa_dump_dict_loop (child : list SANode) (sb : string) : option string :=
  match child with
  | [] => Some sb
  | value :: next =>
    match key value with
    | None => None
    | Some k =>
      match dump_node value (sb ++ quote ++ k ++ quote ++ ":")%string with
      | None => None
      | Some (_, sb1) =>
        _sa_dump_dict_loop next (match next with [] => sb1 | _ => sb1 ++ "," end)%string
      end
    end
  end.

End Children.

(** What [_sa_dump_node] formats into [buf] for a Date node. *)
Definition date_text (seconds microseconds : Z) : string :=
  let t := localtime seconds in
  snprintf 64
    (quote ++ printf_0d 4 (tm_year t + 1900)
       ++ "-" ++ printf_0d 2 (tm_mon t + 1)
       ++ "-" ++ printf_0d 2 (tm_mday t)
       ++ " " ++ printf_0d 2 (tm_hour t)
       ++ ":" ++ printf_0d 2 (tm_min t)
       ++ ":" ++ printf_0d 2 (tm_sec t)
       ++ "." ++ printf_0d 3 microseconds ++ quote)%string.

(** [_sa_dump_node] for a node and a buffer that are not NULL (no caller
    passes NULL).  The statuses of [_sa_dump_string], [_sa_dump_list] and
    [_sa_dump_dict] are dropped, as in the [switch]. *)
Fixpoint _sa_dump_node (node : SANode) (sb : string) {struct node}
  : option (SAErrCode * string) :=
  match node with
  | mkSANode _ u =>
    match u with
    | bool_ b => Some (SA_OK, (sb ++ (if (b =? 0)%Z then "false" else "true"))%string)
    | number_ d => Some (SA_OK, (sb ++ snprintf 64 (printf_3f d))%string)
    | int_ i => Some (SA_OK, (sb ++ snprintf 64 (printf_d i))%string)
    | date_ seconds microseconds =>
      Some (SA_OK, (sb ++ date_text seconds microseconds)%string)
    | string_ payload =>
      match _sa_dump_string payload sb with
      | None => None
      | Some (_, sb') => Some (SA_OK, sb')
      end
    | list_ l =>
      match _sa_dump_list_loop _sa_dump_node l (sb ++ "[")%string with
      | None => None
      | Some sb' => Some (SA_OK, (sb' ++ "]")%string)
      end
    | dict_ l =>
      match _sa_dump_dict_loop _sa_dump_node l (sb ++ "{")%string with
      | None => None
      | Some sb' => Some (SA_OK, (sb' ++ "}")%string)
      end
    end
  end.

Definition _sa_dump_list (node : SANode) (sb : string) : option (SAErrCode * string) :=
  match _sa_dump_list_loop _sa_dump_node (array_ node) (sb ++ "[")%string with
  | None => None
  | Some sb' => Some (SA_OK, (sb' ++ "]")%string)
  end.

Definition _sa_dump_dict (node : SANode) (sb : string) : option (SAErrCode * string) :=
  match _sa_dump_dict_loop _sa_dump_node (array_ node) (sb ++ "{")%string with
  | None => None
  | Some sb' => Some (SA_OK, (sb' ++ "}")%string)
  end.

End Encoder.


(** ** POSIX regular expressions, as far as the two patterns need them *)

Module Regex.

(** Extended regular expressions: the empty expression, the anchors [^] and
    [$], an ordinary character, a bracket expression (a list of ranges, a
    single character [c] being the range [c-c]), concatenation, [|], and the
    interval [{lo,hi}]. *)
Inductive regex : Set :=
| Eps
| Bol
| Eol
| Chr (c : ascii)
| Bracket (ranges : list (ascii * ascii))
| Seq (r1 r2 : regex)
| Alt (r1 r2 : regex)
| Rep (r : regex) (lo hi : nat).

(** [tolower] and [toupper] in the C locale. *)
Definition tolower (c : ascii) : ascii :=
  if (65 <=? byte c) && (byte c <=? 90) then ascii_of_N (N_of_ascii c + 32) else c.

Definition toupper (c : ascii) : ascii :=
  if (97 <=? byte c) && (byte c <=? 122) then ascii_of_N (N_of_ascii c - 32) else c.

Definition chr_match (icase : bool) (c x : ascii) : bool :=
  if icase then Ascii.eqb (tolower c) (tolower x) else Ascii.eqb c x.

Definition in_ranges (ranges : list (ascii * ascii)) (x : ascii) : bool :=
  existsb (fun r => (byte (fst r) <=? byte x) && (byte x <=? byte (snd r))) ranges.

Definition bracket_match (icase : bool) (ranges : list (ascii * ascii)) (x : ascii) : bool :=
  in_ranges ranges x
  || (icase && (in_ranges ranges (tolower x) || in_ranges ranges (toupper x))).

Section Interval.

(** The matcher of the repeated expression. *)
Variable m : bool -> string -> (bool -> string -> bool) -> bool.

(** [r{lo,hi}]: stop here when [lo] repetitions are done, or match [r] once
    more while [hi] allows it. *)
Fixpoint rep (lo hi : nat) (bol : bool) (s : string) (k : bool -> string -> bool)
  {struct hi} : bool :=
  (match lo with O => k bol s | S _ => false end)
  || match hi with
     | O => false
     | S hi' => m bol s (fun bol' s' => rep (Nat.pred lo) hi' bol' s' k)
     end.

End Interval.

(** [rmatch icase r bol s k]: some prefix of [s] matches [r] and [k] accepts
    what follows; [bol] tells whether [s] starts the subject string. *)
Fixpoint rmatch (icase : bool) (r : regex) (bol : bool) (s : string)
  (k : bool -> string -> bool) {struct r} : bool :=
  match r with
  | Eps => k bol s
  | Bol => bol && k bol s
  | Eol => match s with EmptyString => k bol s | String _ _ => false end
  | Chr c =>
    match s with
    | String x s' => chr_match icase c x && k false s'
    | EmptyString => false
    end
  | Bracket ranges =>
    match s with
    | String x s' => bracket_match icase ranges x && k false s'
    | EmptyString => false
    end
  | Seq r1 r2 => rmatch icase r1 bol s (fun bol' s' => rmatch icase r2 bol' s' k)
  | Alt r1 r2 => rmatch icase r1 bol s k || rmatch icase r2 bol s k
  | Rep r' lo hi => rep (rmatch icase r') lo hi bol s k
  end.

(** A match may start at any position of the subject. *)
Fixpoint search (icase : bool) (r : regex) (bol : bool) (s : string) : bool :=
  rmatch icase r bol s (fun _ _ => true)
  || match s with
     | EmptyString => false
     | String _ s' => search icase r false s'
     end.

(** A pattern compiled by [regcomp] with [REG_EXTENDED | REG_NOSUB], and
    [REG_ICASE] when [re_icase] is set. *)
Record regex_t : Set := regcomp { re_pattern : regex; re_icase : bool }.

Definition REG_NOMATCH : Z := 1.

(** [regexec(preg, s, 0, NULL, 0)]: 0 when [s] has a match. *)
Definition regexec (preg : regex_t) (s : string) : Z :=
  if search (re_icase preg) (re_pattern preg) true s then 0 else REG_NOMATCH.

(** The characters of [w], one after the other. *)
Fixpoint lit (w : string) : regex :=
  match w with
  | EmptyString => Eps
  | String c w' => Seq (Chr c) (lit w')
  end.

(** [^w$] *)
Definition anchored (w : string) : regex := Seq Bol (Seq (lit w) Eol).

(** [r1|r2|...|rn] *)
Fixpoint alternation (r : regex) (rs : list regex) : regex :=
  match rs with
  | [] => r
  | r' :: rs' => Alt r (alternation r' rs')
  end.

Definition range (lo hi : string) : ascii * ascii :=
  match lo, hi with
  | String a _, String b _ => (a, b)
  | _, _ => (NUL, NUL)
  end.

Definition single (c : string) : ascii * ascii := range c c.

(** What is left of [s] after a prefix that spells [w], letter case
    aside. *)
Fixpoint ci_strip (w s : string) : option string :=
  match w with
  | EmptyString => Some s
  | String c w' =>
    match s with
    | String x s' => if chr_match true c x then ci_strip w' s' else None
    | EmptyString => None
    end
  end.

(** [s] spells [w], letter case aside. *)
Definition ci_eqb (w s : string) : bool :=
  match ci_strip w s with
  | Some EmptyString => true
  | _ => false
  end.

Definition at_end (s : string) : bool :=
  match s with
  | EmptyString => true
  | String _ _ => false
  end.

End Regex.
Import Regex.

(** ** Name validator *)

(** [(^distinct_id$|^original_id$|^time$|^properties$|^id$|^first_id$|^second_id$|^users$|^events$|^event$|^user_id$|^date$|^datetime$)] *)
Definition KEY_WORD_PATTERN : regex :=
  alternation (anchored "distinct_id")
    [anchored "original_id"; anchored "time"; anchored "properties"; anchored "id";
     anchored "first_id"; anchored "second_id"; anchored "users"; anchored "events";
     anchored "event"; anchored "user_id"; anchored "date"; anchored "datetime"].

(** [^[a-zA-Z_$][a-zA-Z0-9_$]{0,99}$] *)
Definition NAME_PATTERN : regex :=
  Seq Bol
    (Seq (Bracket [range "a" "z"; range "A" "Z"; single "_"; single "$"])
       (Seq (Rep (Bracket [range "a" "z"; range "A" "Z"; range "0" "9";
                           single "_"; single "$"]) 0 99)
          Eol)).

(** [sa->regex], as [sa_init] compiles it; nothing assigns to it later. *)
Definition sa_regex_0 : regex_t := regcomp KEY_WORD_PATTERN true.
Definition sa_regex_1 : regex_t := regcomp NAME_PATTERN true.

(** [(unsigned long)-1], the length the checks give a NULL string. *)
Definition ULONG_MAX : Z := 2 ^ 64 - 1.

Definition checked_len (s : option string) : Z :=
  match s with
  | None => ULONG_MAX
  | Some s' => strlen s'
  end.

Definition _sa_assert_key_name (k : option string) : SAErrCode :=
  let key_len := checked_len k in
  if (key_len <? 1) || (key_len >? 255) then SA_INVALID_PARAMETER_ERROR
  else
    match k with
    | None => SA_INVALID_PARAMETER_ERROR
    | Some k' =>
      if regexec sa_regex_0 k' =? 0 then SA_INVALID_PARAMETER_ERROR
      else if negb (regexec sa_regex_1 k' =? 0) then SA_INVALID_PARAMETER_ERROR
      else SA_OK
    end.

(** *** The validator in the specification's words *)

Module NameSpec.

Definition reserved_words : list string :=
  ["distinct_id"; "original_id"; "time"; "properties"; "id"; "first_id";
   "second_id"; "users"; "events"; "event"; "user_id"; "date"; "datetime"].

Fixpoint lowercase (s : string) : string :=
  match s with
  | EmptyString => EmptyString
  | String c r => String (tolower c) (lowercase r)
  end.

(** A case-insensitive exact match of a reserved word. *)
Definition reserved (n : string) : bool :=
  existsb (String.eqb (lowercase n)) reserved_words.

Definition letter (c : ascii) : bool :=
  ((97 <=? byte c) && (byte c <=? 122)) || ((65 <=? byte c) && (byte c <=? 90)).

Definition digit (c : ascii) : bool := (48 <=? byte c) && (byte c <=? 57).

(** [[A-Za-z_$]] *)
Definition name_start (c : ascii) : bool :=
  letter c || (byte c =? 95) || (byte c =? 36).

(** [[A-Za-z0-9_$]] *)
Definition name_char (c : ascii) : bool := name_start c || digit c.

(** One byte of [name_start], then 0 to 99 bytes of [name_char]. *)
Definition identifier (n : string) : bool :=
  match n with
  | EmptyString => false
  | String c rest =>
    name_start c && (String.length rest <=? 99)%nat && all_chars name_char rest
  end.

Definition accepts (n : string) : bool :=
  (1 <=? strlen n) && (strlen n <=? 255) && negb (reserved n) && identifier n.

End NameSpec.


(** ** Sensors Analytics *)

(** [struct SAConsumerOp] over the consumer's private data [this_]: each
    operation gives its status and the data afterwards, [None] when the call
    has no defined result. *)
Record SAConsumerOp (T : Type) : Type := mkSAConsumerOp {
  send : T -> string -> option (SAErrCode * T);
  flush : T -> option (SAErrCode * T);
  close : T -> option (SAErrCode * T)
}.

Arguments send {T}.
Arguments flush {T}.
Arguments close {T}.

(** [struct SensorsAnalytics]: the super properties and the consumer's
    private data.  The mutex guards the walks over [super_properties]; calls
    are modelled one at a time. *)
Record SensorsAnalytics (T : Type) : Type := mkSensorsAnalytics {
  super_properties : SANode;
  this_ : T
}.

Arguments mkSensorsAnalytics {T}.
Arguments super_properties {T}.
Arguments this_ {T}.

(** [struct timeval] *)
Record timeval : Set := mk_timeval { tv_sec : Z; tv_usec : Z }.

(** 64-bit two's complement ([long long], and [long] in this build). *)
Definition int64 (z : Z) : Z := (z + 2 ^ 63) mod 2 ^ 64 - 2 ^ 63.

Definition SA_LIB_VERSION : string := "0.2.0".
Definition SA_LIB : string := "C".
Definition SA_LIB_METHOD : string := "code".

(** How a step of a function ends: execution goes on with a value, the
    function returns a status at once, or the step has no defined result. *)
Inductive step (A : Type) : Type :=
| Next (a : A)
| Return (res : SAErrCode)
| Undefined.

Arguments Next {A}.
Arguments Return {A}.
Arguments Undefined {A}.

Definition and_then {A B : Type} (x : step A) (f : A -> step B) : step B :=
  match x with
  | Next a => f a
  | Return res => Return res
  | Undefined => Undefined
  end.

Notation "x <- e ;; k" := (and_then e (fun x => k))
  (at level 61, e at next level, right associativity).

(** [if (SA_OK != (res = f(...))) return res;] for [f] one of the property
    builders: the node the call updated. *)
Definition checked (r : SAErrCode * option SANode) : step SANode :=
  match r with
  | (SA_OK, Some node) => Next node
  | (SA_OK, None) => Undefined
  | (res, _) => Return res
  end.

(** A call of a property builder whose status is not looked at. *)
Definition unchecked (r : SAErrCode * option SANode) (node : SANode) : SANode :=
  match snd r with
  | Some node' => node'
  | None => node
  end.

(** Reading the string behind a pointer. *)
Definition deref (s : option string) : step string :=
  match s with
  | Some s' => Next s'
  | None => Undefined
  end.

Definition len (s : string) : nat := String.length s.

Definition sa_register_super_properties {T} (properties : option SANode)
  (sa : option (SensorsAnalytics T)) : SAErrCode * option (SensorsAnalytics T) :=
  match sa, properties with
  | Some sa', Some p =>
    match tag p with
    | SA_DICT =>
      (SA_OK,
       Some (mkSensorsAnalytics (add_children (array_ p) (super_properties sa')) (this_ sa')))
    | _ => (SA_INVALID_PARAMETER_ERROR, sa)
    end
  | _, _ => (SA_INVALID_PARAMETER_ERROR, sa)
  end.

Definition sa_unregister_super_properties {T} (k : option string) (sa : SensorsAnalytics T)
  : SAErrCode * SensorsAnalytics T :=
  (SA_OK, mkSensorsAnalytics (_sa_remove_child k (super_properties sa)) (this_ sa)).

Definition sa_clear_super_properties {T} (sa : SensorsAnalytics T)
  : SAErrCode * SensorsAnalytics T :=
  (SA_OK, mkSensorsAnalytics (_sa_remove_child None (super_properties sa)) (this_ sa)).

Definition _sa_is_track (type : string) : bool := strncmp type "track" 5 =? 0.

Definition _sa_is_track_signup (type : string) : bool :=
  strncmp type "track_signup" 12 =? 0.

(** The [while] loop of [_sa_check_legality] over the property list. *)
Fixpoint _sa_check_legality_loop (curr : list SANode) : SAErrCode :=
  match curr with
  | [] => SA_OK
  | value :: next =>
    match key value with
    | None => SA_INVALID_PARAMETER_ERROR
    | Some k =>
      match _sa_assert_key_name (Some k) with
      | SA_OK => _sa_check_legality_loop next
      | _ => SA_INVALID_PARAMETER_ERROR
      end
    end
  end.

Definition _sa_check_legality (distinct_id origin_id : option string) (type : string)
  (event : option string) (properties : option SANode) : SAErrCode :=
  let distinct_id_len := checked_len distinct_id in
  if (distinct_id_len <? 1) || (distinct_id_len >? 255) then SA_INVALID_PARAMETER_ERROR
  else if _sa_is_track_signup type
          && (let origin_id_len := checked_len origin_id in
              (origin_id_len <? 1) || (origin_id_len >? 255))
  then SA_INVALID_PARAMETER_ERROR
  else if _sa_is_track type
          && match event with
             | None => true
             | Some _ =>
               match _sa_assert_key_name event with SA_OK => false | _ => true end
             end
  then SA_INVALID_PARAMETER_ERROR
  else
    match properties with
    | None => SA_OK
    | Some p => _sa_check_legality_loop (array_ p)
    end.

(** [NULL != value->key && 0 == strncmp(name, value->key, 256)] *)
Definition keyed (name : string) (value : SANode) : bool :=
  match key value with
  | Some k => strncmp name k 256 =? 0
  | None => false
  end.

(** *** Reading the union through another member

    [_sa_track_internal] reads [date_] of the node under [$time] and
    [string_] of the node under [$project] without a look at the tag.  The
    members lie on the same bytes, and [_sa_malloc_node] zeroes the node
    before the one member is stored, so the stored member fixes what such a
    read finds wherever it is a number: [bool_] is the low half of
    [date_.seconds], [int_] and the bits of [number_] are all of it, and
    [date_.microseconds] lies behind every other member and is 0. *)

(** The IEEE 754 binary64 encoding of a [double].  A NaN of [float] has no
    payload, so its encoding is not determined. *)
Definition double_bits (d : float) : option Z :=
  let sign := fun s : bool => if s then 2 ^ 63 else 0 in
  match FloatOps.Prim2SF d with
  | SpecFloat.S754_nan => None
  | SpecFloat.S754_zero s => Some (sign s)
  | SpecFloat.S754_infinity s => Some (sign s + 0x7FF * 2 ^ 52)
  | SpecFloat.S754_finite s m e =>
    Some (sign s + (if 2 ^ 52 <=? Zpos m
                    then (e + 1075) * 2 ^ 52 + (Zpos m - 2 ^ 52)
                    else Zpos m))
  end.

(** [node->date_.seconds].  A List or Dict without children holds NULL,
    which reads as 0; a String, and a List or Dict with children, hold an
    address. *)
Definition date_seconds (u : SAUnion) : option Z :=
  match u with
  | date_ seconds _ => Some seconds
  | int_ i => Some (int64 i)
  | bool_ b => Some (b mod 2 ^ 32)
  | number_ d => option_map int64 (double_bits d)
  | list_ [] | dict_ [] => Some 0
  | string_ _ | list_ (_ :: _) | dict_ (_ :: _) => None
  end.

(** [node->date_.microseconds] *)
Definition date_microseconds (u : SAUnion) : Z :=
  match u with
  | date_ _ microseconds => microseconds
  | _ => 0
  end.

(** [node->string_], read as a C string.  A List or Dict with one child
    points to its only [SAListNode], whose first member [next] is NULL: eight
    bytes 0, the empty string.  With more children those bytes are an
    address; and a number, or the NULL of an empty List or Dict, is no
    pointer to read from. *)
Definition string_member (u : SAUnion) : option string :=
  match u with
  | string_ payload => Some payload
  | list_ [_] | dict_ [_] => Some EmptyString
  | _ => None
  end.

(** The loop of [_sa_track_internal] that copies the caller's properties:
    [msg] and [inner_properties] after the walk over [curr]. *)
Fixpoint copy_properties (properties : SANode) (curr : list SANode)
  (msg inner_properties : SANode) : step (SANode * SANode) :=
  match curr with
  | [] => Next (msg, inner_properties)
  | value :: next =>
    if keyed "$time" value then
      match _sa_get_child (Some "$time") properties with
      | None => copy_properties properties next msg inner_properties
      | Some time_node =>
        match date_seconds (union time_node) with
        | Some seconds =>
          let microseconds := date_microseconds (union time_node) in
          msg' <- checked (sa_add_int (Some "time")
                             (int64 (seconds * 1000 + Z.quot microseconds 1000))
                             (Some msg)) ;;
          copy_properties properties next msg' inner_properties
        | None => Undefined
        end
      end
    else if keyed "$project" value then
      match _sa_get_child (Some "$project") properties with
      | None => copy_properties properties next msg inner_properties
      | Some project_node =>
        match string_member (union project_node) with
        | Some payload =>
          msg' <- checked (sa_add_string (Some "project") payload (len (c_str payload))
                             (Some msg)) ;;
          copy_properties properties next msg' inner_properties
        | None => Undefined
        end
      end
    else
      copy_properties properties next msg (snd (_sa_add_child value inner_properties))
  end.

(** The [lib] dictionary of an envelope.  [__line__] is an [unsigned long]
    that [snprintf] is told to print as a [long] ([%ld]): from 2^63 on it
    comes out negative. *)
Definition lib_properties_of (__file__ __function__ : string) (__line__ : Z) : SANode :=
  let lib_properties := _sa_init_dict_node (Some "lib") in
  let lib_properties :=
    unchecked (sa_add_string (Some "$lib") SA_LIB (len SA_LIB) (Some lib_properties))
      lib_properties in
  let lib_properties :=
    unchecked (sa_add_string (Some "$lib_version") SA_LIB_VERSION (len SA_LIB_VERSION)
                 (Some lib_properties)) lib_properties in
  let lib_properties :=
    unchecked (sa_add_string (Some "$lib_method") SA_LIB_METHOD (len SA_LIB_METHOD)
                 (Some lib_properties)) lib_properties in
  let lib_detail_buf :=
    snprintf 256
      ("##" ++ __function__ ++ "##" ++ __file__ ++ "##" ++ printf_d (int64 __line__))%string in
  unchecked (sa_add_string (Some "$lib_detail") lib_detail_buf (len lib_detail_buf)
               (Some lib_properties)) lib_properties.

(** [inner_properties] before the caller's properties are copied. *)
Definition inner_properties_of (type : string) (super : SANode) : SANode :=
  let inner_properties := _sa_init_dict_node (Some "properties") in
  if _sa_is_track type || _sa_is_track_signup type then
    let inner_properties :=
      unchecked (sa_add_string (Some "$lib") SA_LIB (len SA_LIB) (Some inner_properties))
        inner_properties in
    let inner_properties :=
      unchecked (sa_add_string (Some "$lib_version") SA_LIB_VERSION (len SA_LIB_VERSION)
                   (Some inner_properties)) inner_properties in
    add_children (array_ super) inner_properties
  else inner_properties.

(** [_sa_track_internal] from the creation of [msg] to the point where
    [inner_properties] has been added to it: the envelope that is serialized.
    [now] is what [gettimeofday] reports. *)
Definition _sa_track_msg (distinct_id origin_id : option string) (type : string)
  (event : option string) (properties : option SANode)
  (__file__ __function__ : string) (__line__ : Z)
  (now : timeval) (super : SANode) : step SANode :=
  let msg := _sa_init_dict_node None in
  msg <- checked (sa_add_string (Some "type") type (len type) (Some msg)) ;;
  id <- deref distinct_id ;;
  msg <- checked (sa_add_string (Some "distinct_id") id (len id) (Some msg)) ;;
  msg <- (if _sa_is_track_signup type then
            origin <- deref origin_id ;;
            checked (sa_add_string (Some "original_id") origin (len origin) (Some msg))
          else Next msg) ;;
  msg <- (if _sa_is_track type || _sa_is_track_signup type then
            name <- deref event ;;
            Next (unchecked (sa_add_string (Some "event") name (len name) (Some msg)) msg)
          else Next msg) ;;
  msg <- checked (sa_add_int (Some "time")
                    (int64 (tv_sec now * 1000 + Z.quot (tv_usec now) 1000)) (Some msg)) ;;
  let lib_properties := lib_properties_of __file__ __function__ __line__ in
  let msg := snd (_sa_add_child lib_properties msg) in
  let inner_properties := inner_properties_of type super in
  both <- match properties with
          | None => Next (msg, inner_properties)
          | Some p => copy_properties p (array_ p) msg inner_properties
          end ;;
  Next (snd (_sa_add_child (snd both) (fst both))).

(** The properties [_sa_profile_unset] builds for [key]. *)
Definition unset_properties (k : option string) : option SANode :=
  snd (sa_add_bool k SA_TRUE (Some sa_init_properties)).

(** The calls of the tracking interface, with the arguments the caller
    chooses. *)
Inductive call : Type :=
| track (distinct_id event : option string) (properties : option SANode)
| track_signup (distinct_id origin_id : option string) (properties : option SANode)
| profile_set (distinct_id : option string) (properties : option SANode)
| profile_set_once (distinct_id : option string) (properties : option SANode)
| profile_increment (distinct_id : option string) (properties : option SANode)
| profile_append (distinct_id : option string) (properties : option SANode)
| profile_unset (distinct_id k : option string)
| profile_delete (distinct_id : option string).

(** What each call hands to [_sa_track_internal]. *)
Definition call_distinct_id (c : call) : option string :=
  match c with
  | track d _ _ | track_signup d _ _ | profile_set d _ | profile_set_once d _
  | profile_increment d _ | profile_append d _ | profile_unset d _ | profile_delete d => d
  end.

Definition call_origin_id (c : call) : option string :=
  match c with
  | track_signup _ o _ => o
  | _ => None
  end.

Definition call_type (c : call) : string :=
  match c with
  | track _ _ _ => "track"
  | track_signup _ _ _ => "track_signup"
  | profile_set _ _ => "profile_set"
  | profile_set_once _ _ => "profile_set_once"
  | profile_increment _ _ => "profile_increment"
  | profile_append _ _ => "profile_append"
  | profile_unset _ _ => "profile_unset"
  | profile_delete _ => "profile_delete"
  end.

Definition call_event (c : call) : option string :=
  match c with
  | track _ e _ => e
  | track_signup _ _ _ => Some "$SignUp"
  | _ => None
  end.

Definition call_properties (c : call) : option SANode :=
  match c with
  | track _ _ p | track_signup _ _ p | profile_set _ p | profile_set_once _ p
  | profile_increment _ p | profile_append _ p => p
  | profile_unset _ k => unset_properties k
  | profile_delete _ => Some sa_init_properties
  end.

Definition is_profile (c : call) : bool :=
  match c with
  | track _ _ _ | track_signup _ _ _ => false
  | _ => true
  end.

(** The envelope a call builds once its arguments have passed the checks. *)
Definition call_msg (c : call) (__file__ __function__ : string) (__line__ : Z)
  (now : timeval) (super : SANode) : step SANode :=
  _sa_track_msg (call_distinct_id c) (call_origin_id c) (call_type c) (call_event c)
    (call_properties c) __file__ __function__ __line__ now super.

(** *** Reading an envelope *)

Module EnvelopeSpec.

(** The field of a Dict under a key. *)
Definition field (k : string) (msg : SANode) : option SANode :=
  _sa_get_child (Some k) msg.

(** A property that is neither [$time] nor [$project]. *)
Definition plain (v : SANode) : bool :=
  negb (keyed "$time" v) && negb (keyed "$project" v).

(** The [$time] and the [$project] entry of the caller's properties. *)
Definition time_entry (properties : option SANode) : option SANode :=
  match properties with
  | Some p => _sa_get_child (Some "$time") p
  | None => None
  end.

Definition project_entry (properties : option SANode) : option SANode :=
  match properties with
  | Some p => _sa_get_child (Some "$project") p
  | None => None
  end.

(** The children of the caller's properties, none for NULL. *)
Definition supplied (properties : option SANode) : list SANode :=
  match properties with
  | Some p => array_ p
  | None => []
  end.

(** The caller's properties were made by [sa_init_properties] and the
    builders: a Dict whose children have distinct keys. *)
Definition properties_object (properties : option SANode) : Prop :=
  forall p, properties = Some p -> tag p = SA_DICT /\ distinct_keys (array_ p) = true.

(** [$time] is a Date and [$project] a String, where they are given. *)
Definition reserved_typed (properties : option SANode) : Prop :=
  (forall n, time_entry properties = Some n -> tag n = SA_DATE)
  /\ (forall n, project_entry properties = Some n -> tag n = SA_STRING).

(** Seconds times 1000 plus microseconds over 1000. *)
Definition milliseconds (seconds microseconds : Z) : Z :=
  seconds * 1000 + Z.quot microseconds 1000.

Definition date_milliseconds (n : SANode) : Z :=
  match union n with
  | date_ seconds microseconds => milliseconds seconds microseconds
  | _ => 0
  end.

Definition payload (n : SANode) : string :=
  match union n with
  | string_ bytes => bytes
  | _ => EmptyString
  end.

Definition time_node (ms : Z) : SANode := mkSANode (Some "time") (int_ (int64 ms)).

Definition project_node (bytes : string) : SANode :=
  mkSANode (Some "project") (string_ (c_str bytes)).

End EnvelopeSpec.

(** *** The checks in the specification's words *)

Module CheckSpec.

(** A length of 1 to 255 bytes; a NULL string has none. *)
Definition length_ok (s : option string) : Prop :=
  match s with
  | Some s' => 1 <= strlen s' <= 255
  | None => False
  end.

(** The name passes the name validator. *)
Definition name_ok (s : option string) : Prop := _sa_assert_key_name s = SA_OK.

(** One of the checks of a call fails. *)
Definition validation_fails (c : call) : Prop :=
  ~ length_ok (call_distinct_id c)
  \/ (exists d o p, c = track_signup d o p /\ ~ length_ok o)
  \/ (exists d e p, c = track d e p /\ ~ name_ok e)
  \/ (exists p v, call_properties c = Some p /\ In v (array_ p) /\ ~ name_ok (key v)).

End CheckSpec.

Section Track.

Variable localtime : Z -> tm.
Variable printf_3f : float -> string.
Variable T : Type.
Variable op : SAConsumerOp T.

(** [_sa_track_internal]: the status and the session afterwards; [None] when
    the run has no defined result. *)
Definition _sa_track_internal (distinct_id origin_id : option string) (type : string)
  (event : option string) (properties : option SANode)
  (__file__ __function__ : string) (__line__ : Z)
  (now : timeval) (sa : SensorsAnalytics T) : option (SAErrCode * SensorsAnalytics T) :=
  match _sa_check_legality distinct_id origin_id type event properties with
  | SA_OK =>
    match _sa_track_msg distinct_id origin_id type event properties
            __file__ __function__ __line__ now (super_properties sa) with
    | Undefined => None
    | Return res => Some (res, sa)
    | Next msg =>
      match _sa_dump_node localtime printf_3f msg EmptyString with
      | None => None
      | Some (_, msg_str) =>
        match send op (this_ sa) msg_str with
        | None => None
        | Some (res, this') => Some (res, mkSensorsAnalytics (super_properties sa) this')
        end
      end
    end
  | res => Some (res, sa)
  end.

Definition _sa_track (distinct_id event : option string) (properties : option SANode)
  (__file__ __function__ : string) (__line__ : Z) (now : timeval) (sa : SensorsAnalytics T) :=
  _sa_track_internal distinct_id None "track" event properties
    __file__ __function__ __line__ now sa.

Definition _sa_track_signup (distinct_id origin_id : option string)
  (properties : option SANode)
  (__file__ __function__ : string) (__line__ : Z) (now : timeval) (sa : SensorsAnalytics T) :=
  _sa_track_internal distinct_id origin_id "track_signup" (Some "$SignUp") properties
    __file__ __function__ __line__ now sa.

Definition _sa_profile_set (distinct_id : option string) (properties : option SANode)
  (__file__ __function__ : string) (__line__ : Z) (now : timeval) (sa : SensorsAnalytics T) :=
  match properties with
  | None => Some (SA_INVALID_PARAMETER_ERROR, sa)
  | Some _ =>
    _sa_track_internal distinct_id None "profile_set" None properties
      __file__ __function__ __line__ now sa
  end.

Definition _sa_profile_set_once (distinct_id : option string) (properties : option SANode)
  (__file__ __function__ : string) (__line__ : Z) (now : timeval) (sa : SensorsAnalytics T) :=
  match properties with
  | None => Some (SA_INVALID_PARAMETER_ERROR, sa)
  | Some _ =>
    _sa_track_internal distinct_id None "profile_set_once" None properties
      __file__ __function__ __line__ now sa
  end.

Definition _sa_profile_increment (distinct_id : option string) (properties : option SANode)
  (__file__ __function__ : string) (__line__ : Z) (now : timeval) (sa : SensorsAnalytics T) :=
  match properties with
  | None => Some (SA_INVALID_PARAMETER_ERROR, sa)
  | Some _ =>
    _sa_track_internal distinct_id None "profile_increment" None properties
      __file__ __function__ __line__ now sa
  end.

Definition _sa_profile_append (distinct_id : option string) (properties : option SANode)
  (__file__ __function__ : string) (__line__ : Z) (now : timeval) (sa : SensorsAnalytics T) :=
  match properties with
  | None => Some (SA_INVALID_PARAMETER_ERROR, sa)
  | Some _ =>
    _sa_track_internal distinct_id None "profile_append" None properties
      __file__ __function__ __line__ now sa
  end.

Definition _sa_profile_unset (distinct_id k : option string)
  (__file__ __function__ : string) (__line__ : Z) (now : timeval) (sa : SensorsAnalytics T) :=
  _sa_track_internal distinct_id None "profile_unset" None (unset_properties k)
    __file__ __function__ __line__ now sa.

Definition _sa_profile_delete (distinct_id : option string)
  (__file__ __function__ : string) (__line__ : Z) (now : timeval) (sa : SensorsAnalytics T) :=
  _sa_track_internal distinct_id None "profile_delete" None (Some sa_init_properties)
    __file__ __function__ __line__ now sa.

(** A call of the interface, carried out. *)
Definition run (c : call) (__file__ __function__ : string) (__line__ : Z)
  (now : timeval) (sa : SensorsAnalytics T) : option (SAErrCode * SensorsAnalytics T) :=
  match c with
  | track d e p => _sa_track d e p __file__ __function__ __line__ now sa
  | track_signup d o p => _sa_track_signup d o p __file__ __function__ __line__ now sa
  | profile_set d p => _sa_profile_set d p __file__ __function__ __line__ now sa
  | profile_set_once d p => _sa_profile_set_once d p __file__ __function__ __line__ now sa
  | profile_increment d p => _sa_profile_increment d p __file__ __function__ __line__ now sa
  | profile_append d p => _sa_profile_append d p __file__ __function__ __line__ now sa
  | profile_unset d k => _sa_profile_unset d k __file__ __function__ __line__ now sa
  | profile_delete d => _sa_profile_delete d __file__ __function__ __line__ now sa
  end.

End Track.


(** ** Logging consumer *)

Section LoggingConsumer.

(** The operating system as the consumer sees it: a state [World] (the
    clock and the files), streams [FILE], and the C library calls with the
    value they return and the state they leave. *)
Variable World : Type.
Variable FILE : Type.
Variable time : World -> Z.
Variable localtime : Z -> tm.
Variable fopen_append : string -> World -> option FILE * World.
Variable fwrite : string -> FILE -> World -> Z * World.
Variable fflush : FILE -> World -> Z * World.
Variable fclose : FILE -> World -> Z * World.

(** [SALoggingConsumerInter] *)
Record SALoggingConsumerInter : Type := mkInter {
  file_name : string;
  file_name_prefix : string;
  date : Z;
  file : option FILE
}.

Definition _sa_get_current_date (w : World) : Z :=
  let t := localtime (time w) in
  tm_year t * 10000 + (tm_mon t + 1) * 100 + tm_mday t.

Definition _sa_logging_consumer_flush (inter : SALoggingConsumerInter) (w : World)
  : SAErrCode * World :=
  match file inter with
  | Some f =>
    let flushed := fflush f w in
    if fst flushed =? 0 then (SA_OK, snd flushed) else (SA_IO_ERROR, snd flushed)
  | None => (SA_IO_ERROR, w)
  end.

Definition _sa_logging_consumer_close (this_ : option SALoggingConsumerInter) (w : World)
  : SAErrCode * option SALoggingConsumerInter * World :=
  match this_ with
  | None => (SA_INVALID_PARAMETER_ERROR, None, w)
  | Some inter =>
    match file inter with
    | Some f =>
      let w1 := snd (fflush f w) in
      let w2 := snd (fclose f w1) in
      (SA_OK,
       Some (mkInter (file_name inter) (file_name_prefix inter) (date inter) None),
       w2)
    | None => (SA_OK, Some inter, w)
    end
  end.

(** The two [fwrite] calls that end [_sa_logging_consumer_send]; what they
    return is not looked at. *)
Definition write_event (event : string) (length : nat) (f : FILE) (w : World) : World :=
  let w1 := snd (fwrite (prefix_n length event) f w) in
  snd (fwrite (chr 10) f w1).

(** [_sa_logging_consumer_send]: the status, the consumer's data and the
    world afterwards; [None] when [fwrite] is handed a NULL stream. *)
Definition _sa_logging_consumer_send (this_ : option SALoggingConsumerInter)
  (event : option string) (length : nat) (w : World)
  : option (SAErrCode * option SALoggingConsumerInter * World) :=
  match this_, event with
  | Some inter, Some ev =>
    let today := _sa_get_current_date w in
    if negb (today =? date inter) then
      match _sa_logging_consumer_close this_ w with
      | (_, Some closed, w1) =>
        let name :=
          snprintf 512 (file_name_prefix closed ++ ".log." ++ printf_d today)%string in
        let opened := fopen_append name w1 in
        let inter' := mkInter name (file_name_prefix closed) today (fst opened) in
        match fst opened with
        | None => Some (SA_IO_ERROR, Some inter', snd opened)
        | Some f => Some (SA_OK, Some inter', write_event ev length f (snd opened))
        end
      | (_, None, _) => None
      end
    else
      match file inter with
      | None => None
      | Some f => Some (SA_OK, Some inter, write_event ev length f w)
      end
  | _, _ => Some (SA_INVALID_PARAMETER_ERROR, this_, w)
  end.

(** [sa_init_logging_consumer]: the private data of a new consumer. *)
Definition sa_init_logging_consumer (name : string)
  : SAErrCode * option SALoggingConsumerInter :=
  if strlen name >? 500 then (SA_INVALID_PARAMETER_ERROR, None)
  else (SA_OK, Some (mkInter EmptyString name 0 None)).

(** The consumer's operations over its data and the world it writes to. *)
Definition logging_consumer_op : SAConsumerOp (SALoggingConsumerInter * World) :=
  mkSAConsumerOp _
    (fun this_ event =>
       match _sa_logging_consumer_send (Some (fst this_)) (Some event) (len event)
               (snd this_) with
       | Some (res, Some inter, w) => Some (res, (inter, w))
       | _ => None
       end)
    (fun this_ =>
       let r := _sa_logging_consumer_flush (fst this_) (snd this_) in
       Some (fst r, (fst this_, snd r)))
    (fun this_ =>
       match _sa_logging_consumer_close (Some (fst this_)) (snd this_) with
       | (res, Some inter, w) => Some (res, (inter, w))
       | _ => None
       end).

End LoggingConsumer.

Arguments mkInter {FILE}.
Arguments file_name {FILE}.
Arguments file_name_prefix {FILE}.
Arguments date {FILE}.
Arguments file {FILE}.

(** ** Sample environments *)

(** A consumer that keeps what it is sent, latest first. *)
Definition recording_op : SAConsumerOp (list string) :=
  mkSAConsumerOp _
    (fun log event => Some (SA_OK, event :: log))
    (fun log => Some (SA_OK, log))
    (fun log => Some (SA_OK, log)).

(** A time zone in which every instant reads 2017-01-02 03:04:05. *)
Definition sample_localtime (seconds : Z) : tm := mk_tm 5 4 3 2 0 117.

Definition sample_printf_3f (d : float) : string := "5888.000".

(** A Dict with three children, and a new value for one of its keys. *)
Definition sample_dict : SANode :=
  mkSANode (Some "properties")
    (dict_ [mkSANode (Some "a") (int_ 1);
            mkSANode (Some "os") (string_ "Android");
            mkSANode (Some "b") (int_ 2)]).

Definition sample_child : SANode := mkSANode (Some "os") (string_ "iOS").

(** A name of 101 bytes: a letter and a hundred digits. *)
Definition sample_long_name : string := String "a" (zeros 100).

(** A session whose super properties hold [$project], and a caller's
    properties that name another project. *)
Definition sample_store : SANode :=
  mkSANode (Some "properties") (dict_ [mkSANode (Some "$project") (string_ "Bar")]).

Definition sample_properties : SANode :=
  mkSANode (Some "properties")
    (dict_ [mkSANode (Some "$time") (date_ 1000 5500);
            mkSANode (Some "$project") (string_ "Foo");
            mkSANode (Some "os") (string_ "iOS")]).

Definition sample_now : timeval := mk_timeval 1500000000 123456.

(** A small file system: the clock, the files with their contents, and
    whether the disk has run full.  A stream is the name of its file. *)
Record SampleWorld : Set := mkSampleWorld {
  clock : Z;
  files : list (string * string);
  disk_full : bool
}.

Fixpoint append_to (name data : string) (fs : list (string * string))
  : list (string * string) :=
  match fs with
  | [] => [(name, data)]
  | (n, content) :: rest =>
    if String.eqb n name then (n, (content ++ data)%string) :: rest
    else (n, content) :: append_to name data rest
  end.

Definition sample_fopen_append (name : string) (w : SampleWorld)
  : option string * SampleWorld :=
  if String.eqb name EmptyString then (None, w)
  else (Some name, mkSampleWorld (clock w) (append_to name EmptyString (files w)) (disk_full w)).

Definition sample_fwrite (data : string) (f : string) (w : SampleWorld) : Z * SampleWorld :=
  if disk_full w then (0, w)
  else (1, mkSampleWorld (clock w) (append_to f data (files w)) (disk_full w)).

Definition sample_time (w : SampleWorld) : Z := clock w.

Definition sample_fflush (f : string) (w : SampleWorld) : Z * SampleWorld := (0, w).

Definition sample_fclose (f : string) (w : SampleWorld) : Z * SampleWorld := (0, w).

(** A consumer for [demo.out] that has not opened a file yet, and worlds
    with an empty disk that takes data, or takes none. *)
Definition sample_inter : SALoggingConsumerInter string :=
  mkInter EmptyString "demo.out" 0 None.

Definition sample_world : SampleWorld := mkSampleWorld 1483326245 [] false.

Definition full_world : SampleWorld := mkSampleWorld 1483326245 [] true.

(** ** Reading the store and the envelope *)

(** What [_sa_track_internal] reads under [$time] and under [$project] of
    the caller's properties is there to be read. *)
Definition reserved_readable (properties : option SANode) : Prop :=
  (forall n, EnvelopeSpec.time_entry properties = Some n -> date_seconds (union n) <> None)
  /\ (forall n, EnvelopeSpec.project_entry properties = Some n ->
        string_member (union n) <> None).

(** The milliseconds of the node under [$time], and the text of the node
    under [$project], as [_sa_track_internal] reads them. *)
Definition read_milliseconds (n : SANode) : Z :=
  match date_seconds (union n) with
  | Some seconds => EnvelopeSpec.milliseconds seconds (date_microseconds (union n))
  | None => 0
  end.

Definition read_payload (n : SANode) : string :=
  match string_member (union n) with
  | Some payload => payload
  | None => EmptyString
  end.

(** The entry of the caller's properties under [k], none for NULL. *)
Definition supplied_entry (k : string) (properties : option SANode) : option SANode :=
  match properties with
  | Some p => _sa_get_child (Some k) p
  | None => None
  end.

(** What [inner_properties] of a [track] or [track_signup] holds before the
    super properties are merged into it. *)
Definition library_properties : SANode :=
  mkSANode (Some "properties")
    (dict_ [mkSANode (Some "$lib_version") (string_ SA_LIB_VERSION);
            mkSANode (Some "$lib") (string_ SA_LIB)]).

(** The first entry that is there. *)
Definition or_else (a b : option SANode) : option SANode :=
  match a with
  | Some v => Some v
  | None => b
  end.

(** ** String buffer *)

(** [SAStringBuffer]: the bytes between [start] and [cur], and the distance
    from [start] to [end].  The block behind [start] is one byte longer, for
    the terminator [_sa_sb_finish] writes at [cur]. *)
Record SAStringBuffer : Set := mkSAStringBuffer {
  sb_text : string;
  sb_alloc : Z
}.

(** Arithmetic in [size_t] and [unsigned long], 64 bits in this build. *)
Definition size_t (z : Z) : Z := z mod 2 ^ 64.

Definition _sa_sb_init : SAStringBuffer := mkSAStringBuffer EmptyString 16.

(** The [do ... while] loop of [_sa_sb_grow].  After 64 doublings [alloc]
    is 0 and stays 0, so a loop that has not ended within 65 rounds never
    ends: [None]. *)
Fixpoint _sa_sb_grow_loop (fuel : nat) (alloc length need : Z) : option Z :=
  match fuel with
  | O => None
  | S fuel' =>
    let alloc := size_t (alloc * 2) in
    if alloc <? size_t (length + need) then _sa_sb_grow_loop fuel' alloc length need
    else Some alloc
  end.

(** [_sa_sb_grow]; a [realloc] that fails ends the process. *)
Definition _sa_sb_grow (sb : SAStringBuffer) (need : Z) : option SAStringBuffer :=
  match _sa_sb_grow_loop 65 (sb_alloc sb) (strlen (sb_text sb)) need with
  | Some alloc => Some (mkSAStringBuffer (sb_text sb) alloc)
  | None => None
  end.

(** The macro [_sa_sb_need]; [end] and [cur + need] compare as addresses. *)
Definition _sa_sb_need (sb : SAStringBuffer) (need : Z) : option SAStringBuffer :=
  if sb_alloc sb <? strlen (sb_text sb) + need then _sa_sb_grow sb need else Some sb.

(** [_sa_sb_put]: [memcpy] reads [length] bytes at [string_], which must be
    there ([string_] is the text and its terminator). *)
Definition _sa_sb_put (sb : SAStringBuffer) (string_ : string) (length : nat)
  : option SAStringBuffer :=
  match _sa_sb_need sb (Z.of_nat length) with
  | Some sb' =>
    if (String.length string_ + 1 <? length)%nat then None
    else
      Some (mkSAStringBuffer
              (sb_text sb' ++ prefix_n length (string_ ++ String NUL EmptyString))%string
              (sb_alloc sb'))
  | None => None
  end.

(** The macro [_sa_sb_putc]. *)
Definition _sa_sb_putc (sb : SAStringBuffer) (c : ascii) : option SAStringBuffer :=
  match (if strlen (sb_text sb) >=? sb_alloc sb then _sa_sb_grow sb 1 else Some sb) with
  | Some sb' =>
    Some (mkSAStringBuffer (sb_text sb' ++ String c EmptyString)%string (sb_alloc sb'))
  | None => None
  end.

(** [_sa_sb_finish]: the text and its length. *)
Definition _sa_sb_finish (sb : SAStringBuffer) : string * Z :=
  (sb_text sb, strlen (sb_text sb)).

(** What is written lies inside the block: [cur] is not past [end]. *)
Definition sb_in_bounds (sb : SAStringBuffer) : Prop :=
  0 < sb_alloc sb /\ strlen (sb_text sb) <= sb_alloc sb.

(** ** [\u] escapes *)

Definition uint16 (z : Z) : Z := z mod 2 ^ 16.
Definition uint32 (z : Z) : Z := z mod 2 ^ 32.

(** [s[i]] for a string constant [s] and an index within it. *)
Definition char_at (s : string) (i : Z) : ascii :=
  match String.get (Z.to_nat i) s with
  | Some c => c
  | None => NUL
  end.

(** [_sa_write_hex16]: the four bytes it writes (it returns their number). *)
Definition _sa_write_hex16 (val : Z) : string :=
  let hex := "0123456789ABCDEF" in
  let val := uint16 val in
  String (char_at hex (Z.land (Z.shiftr val 12) 0xF))
    (String (char_at hex (Z.land (Z.shiftr val 8) 0xF))
       (String (char_at hex (Z.land (Z.shiftr val 4) 0xF))
          (String (char_at hex (Z.land val 0xF)) EmptyString))).

(** [_sa_to_surrogate_pair]: what it stores in [uc] and [lc]. *)
Definition _sa_to_surrogate_pair (unicode : Z) : Z * Z :=
  let n := uint32 (unicode - 0x10000) in
  (uint16 (Z.lor (Z.land (Z.shiftr n 10) 0x3FF) 0xD800),
   uint16 (Z.lor (Z.land n 0x3FF) 0xDC00)).

(** *** Reading hexadecimal *)

Module HexSpec.

(** The value of a digit [0-9A-F]. *)
Definition digit_value (c : ascii) : option Z :=
  let b := byte c in
  if (48 <=? b) && (b <=? 57) then Some (b - 48)
  else if (65 <=? b) && (b <=? 70) then Some (b - 55)
  else None.

(** The number a string of such digits denotes, after the digits already
    read have given [acc]. *)
Fixpoint value (acc : Z) (s : string) : option Z :=
  match s with
  | EmptyString => Some acc
  | String c r =>
    match digit_value c with
    | Some d => value (acc * 16 + d) r
    | None => None
    end
  end.

End HexSpec.

(** *** UTF-8 in the words of RFC 3629 *)

Module Utf8Spec.

(** A Unicode scalar value: a code point up to U+10FFFF that is no
    surrogate. *)
Definition scalar (cp : Z) : Prop :=
  0 <= cp <= 0x10FFFF /\ ~ (0xD800 <= cp <= 0xDFFF).

Definition octet (b : Z) : ascii := ascii_of_N (Z.to_N b).

(** The encoding of a code point: one to four octets, the shortest form. *)
Definition encode (cp : Z) : string :=
  if cp <? 0x80 then String (octet cp) EmptyString
  else if cp <? 0x800 then
    String (octet (0xC0 + cp / 0x40))
      (String (octet (0x80 + cp mod 0x40)) EmptyString)
  else if cp <? 0x10000 then
    String (octet (0xE0 + cp / 0x1000))
      (String (octet (0x80 + (cp / 0x40) mod 0x40))
         (String (octet (0x80 + cp mod 0x40)) EmptyString))
  else
    String (octet (0xF0 + cp / 0x40000))
      (String (octet (0x80 + (cp / 0x1000) mod 0x40))
         (String (octet (0x80 + (cp / 0x40) mod 0x40))
            (String (octet (0x80 + cp mod 0x40)) EmptyString))).

Fixpoint encode_all (cps : list Z) : string :=
  match cps with
  | [] => EmptyString
  | cp :: rest => (encode cp ++ encode_all rest)%string
  end.

(** The code points of a C string: scalar values other than U+0000, which
    ends the string. *)
Definition text (cps : list Z) : Prop :=
  Forall (fun cp => scalar cp /\ cp <> 0) cps.

End Utf8Spec.

(** *** The text of a JSON string *)

Module JsonSpec.

(** The two-character escapes [_sa_dump_string] knows; every other byte
    stands for itself. *)
Definition escape (c : ascii) : string :=
  let b := byte c in
  if b =? 34 then (backslash ++ quote)%string
  else if b =? 92 then (backslash ++ backslash)%string
  else if b =? 8 then (backslash ++ "b")%string
  else if b =? 12 then (backslash ++ "f")%string
  else if b =? 10 then (backslash ++ "n")%string
  else if b =? 13 then (backslash ++ "r")%string
  else if b =? 9 then (backslash ++ "t")%string
  else String c EmptyString.

Fixpoint escape_all (s : string) : string :=
  match s with
  | EmptyString => EmptyString
  | String c r => (escape c ++ escape_all r)%string
  end.

(** A control byte without a two-character escape that the encoder sends to
    its [\u] branch: below 0x1F and none of [\b \t \n \f \r]. *)
Definition needs_unicode_escape (c : ascii) : bool :=
  let b := byte c in
  (b <? 0x1F) && negb ((b =? 8) || (b =? 9) || (b =? 10) || (b =? 12) || (b =? 13)).

(** The members of an array or object, with commas between them. *)
Fixpoint join (ts : list string) : string :=
  match ts with
  | [] => EmptyString
  | [t] => t
  | t :: rest => (t ++ "," ++ join rest)%string
  end.

(** The texts of the members, when each of them has one. *)
Fixpoint sequence (ts : list (option string)) : option (list string) :=
  match ts with
  | [] => Some []
  | t :: rest =>
    match t, sequence rest with
    | Some t', Some rest' => Some (t' :: rest')
    | _, _ => None
    end
  end.

Definition array (members : list (option string)) : option string :=
  match sequence members with
  | Some ts => Some ("[" ++ join ts ++ "]")%string
  | None => None
  end.

(** A member of an object: the key between quotation marks, a colon, the
    value. *)
Definition member (k : option string) (value : option string) : option string :=
  match k, value with
  | Some k', Some t => Some (quote ++ k' ++ quote ++ ":" ++ t)%string
  | _, _ => None
  end.

Definition object (members : list (option string)) : option string :=
  match sequence members with
  | Some ts => Some ("{" ++ join ts ++ "}")%string
  | None => None
  end.

End JsonSpec.

(** Classes of bytes and of texts the properties of the encoder speak of. *)
Definition not_nul (c : ascii) : bool := negb (Ascii.eqb c NUL).

Definition high (c : ascii) : bool := 0x80 <=? byte c.

(** No byte of the text is sent to the [\u] branch. *)
Definition no_unicode_escape (s : string) : bool :=
  all_chars (fun c => negb (JsonSpec.needs_unicode_escape c)) s.

(** A byte that [_sa_dump_string] writes as it is: ASCII from 0x1F on, other
    than the quotation mark and the backslash. *)
Definition verbatim (c : ascii) : bool :=
  (0x1F <=? byte c) && (byte c <=? 0x7F) && negb (byte c =? 34) && negb (byte c =? 92).

(** What [_sa_dump_node] writes for a node into an empty buffer. *)
Definition dump_text (localtime : Z -> tm) (printf_3f : float -> string) (node : SANode)
  : option string :=
  match _sa_dump_node localtime printf_3f node EmptyString with
  | Some (_, text) => Some text
  | None => None
  end.

(** ** [sa_append_list] *)

(** The first child that [k] names, replaced by [f] of it: the node
    [_sa_get_child] returned, after it was updated in place. *)
Fixpoint update_child (k : string) (f : SANode -> SANode) (curr : list SANode)
  : list SANode :=
  match curr with
  | [] => []
  | value :: next =>
    if key_is k value then f value :: next else value :: update_child k f next
  end.

(** [sa_append_list].  [properties] holds the List node itself, so the
    string added to the node after it was adopted is seen through
    [properties]; it is also seen through every other Dict that holds the
    node, which this function of [properties] does not show. *)
Definition sa_append_list (k : option string) (string_ : string) (length : nat)
  (properties : option SANode) : SAErrCode * option SANode :=
  match properties with
  | None => (SA_INVALID_PARAMETER_ERROR, None)
  | Some p =>
    let str_child := _sa_init_string_node None string_ length in
    match _sa_get_child k p, k with
    | Some _, Some k' =>
      (SA_OK,
       Some (set_array_ p
               (update_child k' (fun list => snd (_sa_add_child str_child list))
                  (array_ p))))
    | _, _ =>
      let list := _sa_init_list_node k in
      (SA_OK, Some (snd (_sa_add_child (snd (_sa_add_child str_child list)) p)))
    end
  end.

(** Appending the strings of [ss] under [k], one call after the other. *)
Definition append_each (k : string) (ss : list string) (properties : option SANode)
  : option SANode :=
  fold_left (fun p s => snd (sa_append_list (Some k) s (len s) p)) ss properties.

(** An element of a List property: a String node without a key. *)
Definition element (s : string) : SANode := mkSANode None (string_ s).

(** ** The session *)

(** [sa_init]: a session with no super properties, for a consumer with the
    data [consumer].  The allocations, [pthread_mutex_init] and the two
    [regcomp] of the constant patterns are taken to succeed, as allocation
    is everywhere in this model; their failure would return
    [SA_MALLOC_ERROR]. *)
Definition sa_init {T : Type} (consumer : T) : SAErrCode * SensorsAnalytics T :=
  (SA_OK, mkSensorsAnalytics sa_init_properties consumer).

Section Session.

Variable localtime : Z -> tm.
Variable printf_3f : float -> string.
Variable T : Type.
Variable op : SAConsumerOp T.

(** [sa_flush]; the status of the consumer's [flush] is dropped. *)
Definition sa_flush (sa : SensorsAnalytics T) : option (SensorsAnalytics T) :=
  match flush op (this_ sa) with
  | Some (_, this') => Some (mkSensorsAnalytics (super_properties sa) this')
  | None => None
  end.

(** [sa_free]: the consumer's data after its [close], nothing for NULL. *)
Definition sa_free (sa : option (SensorsAnalytics T)) : option (option T) :=
  match sa with
  | None => Some None
  | Some sa' =>
    match close op (this_ sa') with
    | Some (_, this') => Some (Some this')
    | None => None
    end
  end.

(** The calls a program makes on a session between [sa_init] and
    [sa_free]. *)
Inductive session_call : Type :=
| register_super_properties (properties : option SANode)
| unregister_super_properties (k : option string)
| clear_super_properties
| flush_session
| tracking (c : call) (__file__ __function__ : string) (__line__ : Z) (now : timeval).

Definition session_step (sa : SensorsAnalytics T) (sc : session_call)
  : option (SensorsAnalytics T) :=
  match sc with
  | register_super_properties p => snd (sa_register_super_properties p (Some sa))
  | unregister_super_properties k => Some (snd (sa_unregister_super_properties k sa))
  | clear_super_properties => Some (snd (sa_clear_super_properties sa))
  | flush_session => sa_flush sa
  | tracking c __file__ __function__ __line__ now =>
    match run localtime printf_3f T op c __file__ __function__ __line__ now sa with
    | Some (_, sa') => Some sa'
    | None => None
    end
  end.

(** The calls of [scs] one after the other; [None] when one of them has no
    defined result. *)
Fixpoint session_run (scs : list session_call) (sa : SensorsAnalytics T)
  : option (SensorsAnalytics T) :=
  match scs with
  | [] => Some sa
  | sc :: rest =>
    match session_step sa sc with
    | Some sa' => session_run rest sa'
    | None => None
    end
  end.

End Session.


(** The nodes for which the encoder has a defined result: no String sends a
    byte to the [\u] branch (a String that is not UTF-8 is left out of the
    output, see [_sa_dump_node]), and every child of a Dict has a key. *)
Fixpoint encodable (node : SANode) : bool :=
  match node with
  | mkSANode _ u =>
    match u with
    | string_ payload =>
      negb (sa_utf8_validate payload) || no_unicode_escape (c_str payload)
    | list_ l => forallb encodable l
    | dict_ l =>
      forallb (fun v => match key v with Some _ => encodable v | None => false end) l
    | _ => true
    end
  end.

(** Further sample values: a session over [sample_dict], a text of 500
    bytes, a String with a two-byte character, a quotation mark and a line
    feed, and the calls of a short session. *)
Definition sample_session : SensorsAnalytics (list string) :=
  mkSensorsAnalytics sample_dict [].

Definition sample_long_prefix : string := zeros 500.

Definition sample_payload : string :=
  String "c" (String "a" (String "f"
    (String (ascii_of_nat 195) (String (ascii_of_nat 169)
       (String (ascii_of_nat 34) (String (ascii_of_nat 10) EmptyString)))))).

Definition sample_track : call :=
  track (Some "ABCDEF123456789") (Some "ViewHomePage") (Some sample_properties).

Definition sample_calls : list session_call :=
  [register_super_properties (Some sample_properties);
   unregister_super_properties (Some "os");
   tracking sample_track "demo.c" "main" 60 sample_now;
   flush_session].

(** Super properties that hold [$time]; caller's properties whose [$time]
    is an Int; and a time zone in which every time lies in the year
    10000. *)
Definition sample_registered : SANode :=
  mkSANode (Some "properties") (dict_ [mkSANode (Some "$time") (date_ 2000 0)]).

Definition sample_int_time : SANode :=
  mkSANode (Some "properties")
    (dict_ [mkSANode (Some "$time") (int_ 5); mkSANode (Some "os") (string_ "iOS")]).

Definition sample_far_localtime (seconds : Z) : tm := mk_tm 5 4 3 2 0 8100.

(* ===================================================================== *)
(** * Properties of the value tree *)

Lemma strncmp_refl (s : string) (n : nat) : strncmp s s n = 0.
Proof.
  revert s; induction n as [|n IH]; intros [|c r]; simpl; trivial.
  rewrite Ascii.eqb_refl. now destruct (Ascii.eqb c NUL).
Qed.

Lemma byte_inj (a b : ascii) : byte a = byte b -> a = b.
Proof.
  unfold byte; intros H.
  apply N2Z.inj in H.
  rewrite <- (ascii_N_embedding a), <- (ascii_N_embedding b).
  now f_equal.
Qed.

Lemma strncmp_sym_zero (a b : string) (n : nat) :
  strncmp a b n = 0 -> strncmp b a n = 0.
Proof.
  revert a b; induction n as [|n IH]; intros [|c1 r1] [|c2 r2]; simpl; trivial; try lia.
  destruct (Ascii.eqb c1 c2) eqn:E.
  - apply Ascii.eqb_eq in E; subst c2. rewrite Ascii.eqb_refl.
    destruct (Ascii.eqb c1 NUL); trivial. apply IH.
  - intros H. assert (c1 = c2) by (apply byte_inj; lia).
    subst. now rewrite Ascii.eqb_refl in E.
Qed.

Lemma has_key_is (k : string) (v : SANode) : has_key k v = true -> key_is k v = true.
Proof.
  unfold has_key, key_is. destruct (key v) as [vk|]; [|discriminate].
  intros H; apply String.eqb_eq in H; subst. rewrite strncmp_refl. reflexivity.
Qed.

Lemma remove_loop_filter (k : string) (l : list SANode) :
  _sa_remove_child_loop (Some k) l = filter (fun v => negb (key_is k v)) l.
Proof.
  induction l as [|v l IH]; simpl; trivial.
  destruct (key_is k v); simpl; now rewrite IH.
Qed.

Lemma remove_loop_all (l : list SANode) : _sa_remove_child_loop None l = [].
Proof. induction l; simpl; trivial. Qed.

Lemma tag_set_array_ (p : SANode) (l : list SANode) : tag (set_array_ p l) = tag p.
Proof. destruct p as [k []]; reflexivity. Qed.

Lemma key_set_array_ (p : SANode) (l : list SANode) : key (set_array_ p l) = key p.
Proof. destruct p as [k []]; reflexivity. Qed.

Lemma array_set_array_dict (p : SANode) (l : list SANode) :
  tag p = SA_DICT -> array_ (set_array_ p l) = l.
Proof. destruct p as [k []]; simpl; intros H; try discriminate; reflexivity. Qed.

(** What [_sa_add_child] does to a Dict, in one equation. *)
Lemma add_child_dict (child d : SANode) (k : string) :
  tag d = SA_DICT -> key child = Some k ->
  _sa_add_child child d =
    (Some child,
     set_array_ d (child :: filter (fun v => negb (key_is k v)) (array_ d))).
Proof.
  intros Hd Hk. unfold _sa_add_child, _sa_remove_child. rewrite Hd, Hk.
  rewrite array_set_array_dict by assumption.
  rewrite remove_loop_filter.
  destruct d as [dk []]; simpl in *; try discriminate; reflexivity.
Qed.

Lemma add_child_dict_tag (child d : SANode) :
  tag d = SA_DICT -> tag (snd (_sa_add_child child d)) = SA_DICT.
Proof.
  intros Hd. unfold _sa_add_child. rewrite Hd.
  destruct (key child); simpl; trivial.
  rewrite tag_set_array_. unfold _sa_remove_child. rewrite Hd.
  now rewrite tag_set_array_.
Qed.

Lemma add_child_key (child p : SANode) : key (snd (_sa_add_child child p)) = key p.
Proof.
  unfold _sa_add_child, _sa_remove_child.
  destruct (tag p) eqn:Hp; simpl; trivial.
  - now rewrite key_set_array_.
  - destruct (key child); simpl; trivial. now rewrite !key_set_array_.
Qed.

Lemma filter_has_key_none (k : string) (l : list SANode) :
  filter (has_key k) (filter (fun v => negb (key_is k v)) l) = [].
Proof.
  induction l as [|v l IH]; simpl; trivial.
  destruct (key_is k v) eqn:E; simpl; trivial.
  destruct (has_key k v) eqn:F; trivial.
  apply has_key_is in F. congruence.
Qed.

Lemma filter_all_true {A} (f : A -> bool) (l : list A) :
  forallb f l = true -> filter f l = l.
Proof.
  induction l as [|a l IH]; simpl; trivial.
  intros H; apply andb_true_iff in H as [Ha Hl]. rewrite Ha. f_equal; auto.
Qed.

(** Some node of [cs] carries a key that names [v]. *)
Lemma named_by_cons_false (k : string) (cs : list SANode) (c : SANode) :
  key c = Some k ->
  forallb (fun v => negb (key_is k v)) cs = true ->
  existsb (fun c' => match key c' with Some k' => key_is k' c | None => false end) cs = false.
Proof.
  intros Hk. induction cs as [|c' cs IH]; simpl; trivial.
  intros H; apply andb_true_iff in H as [H1 H2].
  rewrite (IH H2), orb_false_r.
  unfold key_is in *. rewrite Hk. destruct (key c') as [k'|]; trivial.
  apply negb_true_iff, Z.eqb_neq in H1. apply Z.eqb_neq.
  intros E; apply H1. now apply strncmp_sym_zero.
Qed.

Lemma named_by_cons (k : string) (c : SANode) (cs : list SANode) (v : SANode) :
  key c = Some k -> named_by (c :: cs) v = key_is k v || named_by cs v.
Proof. intros Hk. unfold named_by. cbn [existsb]. now rewrite Hk. Qed.

Lemma filter_named_by_cons (k : string) (c : SANode) (cs l : list SANode) :
  key c = Some k ->
  filter (fun v => negb (named_by cs v)) (filter (fun v => negb (key_is k v)) l) =
  filter (fun v => negb (named_by (c :: cs) v)) l.
Proof.
  intros Hk. induction l as [|v l IHl]; trivial.
  cbn [filter]. rewrite (named_by_cons k c cs v Hk).
  destruct (key_is k v); cbn [negb orb].
  - exact IHl.
  - cbn [filter]. destruct (named_by cs v); cbn [negb]; now rewrite IHl.
Qed.

(** Children with pairwise distinct keys pile up in front of the children
    already there, the last one added first. *)
Lemma add_children_distinct (cs : list SANode) :
  forall d, tag d = SA_DICT -> distinct_keys cs = true ->
    array_ (add_children cs d) =
      rev cs ++ filter (fun v => negb (named_by cs v)) (array_ d).
Proof.
  induction cs as [|c cs IH]; intros d Hd Hcs.
  - simpl. symmetry. apply filter_all_true. now apply forallb_forall.
  - simpl in Hcs. destruct (key c) as [k|] eqn:Hk; [|discriminate].
    apply andb_true_iff in Hcs as [Hc Hcs].
    unfold add_children in *. simpl fold_left.
    rewrite IH; [|now apply add_child_dict_tag|assumption].
    rewrite (add_child_dict c d k Hd Hk). simpl snd.
    rewrite array_set_array_dict by assumption.
    simpl filter. unfold named_by at 1.
    rewrite (named_by_cons_false k cs c Hk Hc). simpl negb. cbv iota.
    simpl rev. rewrite <- app_assoc. simpl app. do 2 f_equal.
    now apply filter_named_by_cons.
Qed.

Lemma get_child_loop_head (k : string) (child : SANode) (l : list SANode) :
  key child = Some k -> _sa_get_child_loop k (child :: l) = Some child.
Proof.
  intros Hk. simpl. unfold key_is. rewrite Hk, strncmp_refl. reflexivity.
Qed.

(** C1. Adding a child with key [k] to a Dict [d] succeeds; the children of
    [d] are then the new child followed by the old children that [k] does not
    name, in their old order, and no old child with key [k] is among them;
    [_sa_get_child] finds the new child under [k]; exactly one child has key
    [k]; and children added one after the other under distinct keys are
    enumerated last added first, ahead of the children already there. *)
Theorem add_child_replaces_and_prepends (d child : SANode) (k : string) :
  tag d = SA_DICT ->
  key child = Some k ->
  let removed := _sa_remove_child (Some k) d in
  let d' := snd (_sa_add_child child d) in
  fst (_sa_add_child child d) = Some child
  /\ array_ removed = filter (fun v => negb (key_is k v)) (array_ d)
  /\ filter (has_key k) (array_ removed) = []
  /\ array_ d' = child :: array_ removed
  /\ tag d' = SA_DICT
  /\ _sa_get_child (Some k) d' = Some child
  /\ List.length (filter (has_key k) (array_ d')) = 1%nat
  /\ (forall cs, distinct_keys cs = true ->
        array_ (add_children cs d) =
          rev cs ++ filter (fun v => negb (named_by cs v)) (array_ d)).
Proof.
  intros Hd Hk removed d'.
  assert (Hrem : array_ removed = filter (fun v => negb (key_is k v)) (array_ d)).
  { unfold removed, _sa_remove_child. rewrite Hd.
    rewrite array_set_array_dict by assumption. apply remove_loop_filter. }
  assert (Hd' : array_ d' = child :: array_ removed).
  { unfold d'. rewrite (add_child_dict child d k Hd Hk). simpl snd.
    rewrite array_set_array_dict by assumption. now rewrite Hrem. }
  assert (Ht : tag d' = SA_DICT) by (now apply add_child_dict_tag).
  repeat split.
  - now rewrite (add_child_dict child d k Hd Hk).
  - exact Hrem.
  - rewrite Hrem. apply filter_has_key_none.
  - exact Hd'.
  - exact Ht.
  - unfold _sa_get_child. rewrite Ht, Hd'. now apply get_child_loop_head.
  - rewrite Hd', Hrem. simpl filter.
    assert (Hc : has_key k child = true).
    { unfold has_key. rewrite Hk. apply String.eqb_refl. }
    rewrite Hc, filter_has_key_none. reflexivity.
  - intros cs Hcs. now apply add_children_distinct.
Qed.

(** C10. On a Dict, each of the five scalar builders called with a NULL key
    returns [SA_OK], its [_sa_add_child] adopts nothing, and the Dict is left
    as it was. *)
Theorem add_with_null_key_changes_nothing (p : SANode) :
  tag p = SA_DICT ->
  (forall b, sa_add_bool None b (Some p) = (SA_OK, Some p)
             /\ fst (_sa_add_child (_sa_init_bool_node None b) p) = None)
  /\ (forall x, sa_add_number None x (Some p) = (SA_OK, Some p)
                /\ fst (_sa_add_child (_sa_init_number_node None x) p) = None)
  /\ (forall i, sa_add_int None i (Some p) = (SA_OK, Some p)
                /\ fst (_sa_add_child (_sa_init_int_node None i) p) = None)
  /\ (forall s u, sa_add_date None s u (Some p) = (SA_OK, Some p)
                  /\ fst (_sa_add_child (_sa_init_date_node None s u) p) = None)
  /\ (forall str n, sa_add_string None str n (Some p) = (SA_OK, Some p)
                    /\ fst (_sa_add_child (_sa_init_string_node None str n) p) = None).
Proof.
  intros Hp.
  unfold sa_add_bool, sa_add_number, sa_add_int, sa_add_date, sa_add_string,
    _sa_add_child.
  rewrite Hp. simpl. repeat split.
Qed.

(* ===================================================================== *)
(** * Properties of the name validator *)

Lemma rmatch_lit (w : string) :
  forall bol s k,
    (forall b1 b2 x, k b1 x = k b2 x) ->
    rmatch true (lit w) bol s k =
      match ci_strip w s with
      | Some s' => k false s'
      | None => false
      end.
Proof.
  induction w as [|c w IH]; intros bol s k Hk.
  - simpl. apply Hk.
  - cbn [lit rmatch ci_strip]. destruct s as [|x s']; trivial.
    destruct (chr_match true c x); simpl; trivial.
    now apply IH.
Qed.

Lemma rmatch_anchored (w : string) (bol : bool) (s : string) :
  rmatch true (anchored w) bol s (fun _ _ => true) = bol && ci_eqb w s.
Proof.
  unfold anchored. cbn [rmatch]. f_equal.
  rewrite rmatch_lit.
  - unfold ci_eqb. destruct (ci_strip w s) as [[|? ?]|]; reflexivity.
  - intros b1 b2 [|? ?]; reflexivity.
Qed.

Lemma rmatch_alternation (ws : list string) :
  forall w bol s,
    rmatch true (alternation (anchored w) (map anchored ws)) bol s (fun _ _ => true) =
      bol && existsb (fun w' => ci_eqb w' s) (w :: ws).
Proof.
  induction ws as [|w' ws IH]; intros w bol s.
  - cbn [map alternation existsb]. rewrite rmatch_anchored. now rewrite orb_false_r.
  - cbn [map alternation rmatch]. rewrite rmatch_anchored, IH.
    cbn [existsb]. destruct bol; reflexivity.
Qed.

Lemma search_alternation (ws : list string) (w s : string) :
  search true (alternation (anchored w) (map anchored ws)) true s =
    existsb (fun w' => ci_eqb w' s) (w :: ws).
Proof.
  assert (Hfalse : forall s', search true (alternation (anchored w) (map anchored ws)) false s' = false).
  { induction s' as [|x s' IHs]; cbn [search]; rewrite rmatch_alternation; simpl; trivial. }
  destruct s as [|x s']; cbn [search]; rewrite rmatch_alternation; cbn [andb].
  - now rewrite orb_false_r.
  - rewrite Hfalse. now rewrite orb_false_r.
Qed.

Lemma tolower_idem (c : ascii) : tolower (tolower c) = tolower c.
Proof.
  destruct c as [[] [] [] [] [] [] [] []]; reflexivity.
Qed.

Lemma ci_strip_lowercase (w : string) :
  forall s, ci_eqb w s = String.eqb (NameSpec.lowercase s) (NameSpec.lowercase w).
Proof.
  unfold ci_eqb.
  induction w as [|c w IH]; intros [|x s]; simpl; trivial.
  unfold chr_match.
  destruct (Ascii.eqb (tolower c) (tolower x)) eqn:E.
  - rewrite IH. apply Ascii.eqb_eq in E. rewrite E, Ascii.eqb_refl. reflexivity.
  - rewrite Ascii.eqb_sym, E. reflexivity.
Qed.

(** The keyword pattern matches exactly the reserved words, letter case
    aside. *)
Lemma regexec_key_word (n : string) :
  (regexec sa_regex_0 n =? 0) = NameSpec.reserved n.
Proof.
  unfold regexec, sa_regex_0, re_icase, re_pattern.
  change KEY_WORD_PATTERN with
    (alternation (anchored "distinct_id")
       (map anchored ["original_id"; "time"; "properties"; "id"; "first_id";
                      "second_id"; "users"; "events"; "event"; "user_id"; "date";
                      "datetime"])).
  rewrite search_alternation.
  unfold NameSpec.reserved, NameSpec.reserved_words.
  cbn [existsb]. rewrite !ci_strip_lowercase. cbn [NameSpec.lowercase].
  match goal with |- ((if ?b then _ else _) =? 0) = ?c => change c with b; destruct b end;
    reflexivity.
Qed.

Lemma bracket_name_start (x : ascii) :
  bracket_match true [range "a" "z"; range "A" "Z"; single "_"; single "$"] x =
    NameSpec.name_start x.
Proof.
  destruct x as [[] [] [] [] [] [] [] []]; reflexivity.
Qed.

Lemma bracket_name_char (x : ascii) :
  bracket_match true
    [range "a" "z"; range "A" "Z"; range "0" "9"; single "_"; single "$"] x =
    NameSpec.name_char x.
Proof.
  destruct x as [[] [] [] [] [] [] [] []]; reflexivity.
Qed.

(** At most [n] bytes of the class, then the end of the subject. *)
Lemma rep_bracket_to_end (ranges : list (ascii * ascii)) (n : nat) :
  forall bol s,
    rep (rmatch true (Bracket ranges)) 0 n bol s
      (fun bol' s' => rmatch true Eol bol' s' (fun _ _ => true)) =
    (String.length s <=? n)%nat && all_chars (bracket_match true ranges) s.
Proof.
  induction n as [|n IH]; intros bol [|x s]; try reflexivity.
  change (rep (rmatch true (Bracket ranges)) 0 (S n) bol (String x s)
            (fun bol' s' => rmatch true Eol bol' s' (fun _ _ => true)))
    with (false || (bracket_match true ranges x
                    && rep (rmatch true (Bracket ranges)) 0 n false s
                         (fun bol' s' => rmatch true Eol bol' s' (fun _ _ => true)))).
  rewrite IH. cbn [orb String.length all_chars Nat.leb].
  destruct (bracket_match true ranges x); simpl; trivial.
  now rewrite andb_false_r.
Qed.

Lemma rmatch_name (bol : bool) (s : string) :
  rmatch true NAME_PATTERN bol s (fun _ _ => true) = bol && NameSpec.identifier s.
Proof.
  destruct s as [|x s]; [now destruct bol|].
  change (rmatch true NAME_PATTERN bol (String x s) (fun _ _ => true))
    with (bol && (bracket_match true [range "a" "z"; range "A" "Z"; single "_"; single "$"] x
                  && rep (rmatch true
                            (Bracket [range "a" "z"; range "A" "Z"; range "0" "9";
                                      single "_"; single "$"])) 0 99 false s
                       (fun bol' s' => rmatch true Eol bol' s' (fun _ _ => true)))).
  f_equal.
  rewrite rep_bracket_to_end, bracket_name_start.
  unfold NameSpec.identifier.
  destruct (NameSpec.name_start x); simpl; trivial.
  f_equal. clear. induction s as [|c s IH]; simpl; trivial.
  now rewrite bracket_name_char, IH.
Qed.

(** The name pattern matches exactly the identifiers of at most 100 bytes. *)
Lemma regexec_name (n : string) :
  (regexec sa_regex_1 n =? 0) = NameSpec.identifier n.
Proof.
  unfold regexec, sa_regex_1, re_icase, re_pattern.
  assert (Hfalse : forall s, search true NAME_PATTERN false s = false).
  { induction s as [|x s IHs]; cbn [search]; rewrite rmatch_name; simpl; trivial. }
  assert (H : search true NAME_PATTERN true n = NameSpec.identifier n).
  { destruct n as [|x s]; cbn [search]; rewrite rmatch_name; cbn [andb].
    - reflexivity.
    - rewrite Hfalse. now rewrite orb_false_r. }
  rewrite H. now destruct (NameSpec.identifier n).
Qed.

Lemma identifier_length (n : string) :
  NameSpec.identifier n = true -> (1 <= String.length n <= 100)%nat.
Proof.
  destruct n as [|c rest]; simpl; [discriminate|].
  intros H. apply andb_true_iff in H as [H _]. apply andb_true_iff in H as [_ H].
  apply Nat.leb_le in H. lia.
Qed.

(** C5. The validator accepts a name exactly when its length is 1 to 255
    bytes, it is not a reserved word (letter case aside, the whole name), and
    it is an identifier: a byte of [A-Za-z_$] followed by at most 99 bytes of
    [A-Za-z0-9_$].  So it rejects every name of 101 to 255 bytes. *)
Theorem assert_key_name_accepts_exactly (n : string) :
  (_sa_assert_key_name (Some n) = SA_OK <->
     1 <= strlen n <= 255
     /\ NameSpec.reserved n = false
     /\ NameSpec.identifier n = true)
  /\ (101 <= strlen n <= 255 ->
      _sa_assert_key_name (Some n) = SA_INVALID_PARAMETER_ERROR).
Proof.
  assert (Hdef : _sa_assert_key_name (Some n) =
                 if (strlen n <? 1) || (strlen n >? 255) then SA_INVALID_PARAMETER_ERROR
                 else if NameSpec.reserved n then SA_INVALID_PARAMETER_ERROR
                 else if negb (NameSpec.identifier n) then SA_INVALID_PARAMETER_ERROR
                 else SA_OK).
  { unfold _sa_assert_key_name, checked_len.
    now rewrite regexec_key_word, regexec_name. }
  split.
  - rewrite Hdef. split.
    + destruct (strlen n <? 1) eqn:E1; [discriminate|].
      destruct (strlen n >? 255) eqn:E2; [discriminate|]. cbn [orb].
      destruct (NameSpec.reserved n); [discriminate|].
      destruct (NameSpec.identifier n); [|discriminate].
      intros _. apply Z.ltb_ge in E1. rewrite Z.gtb_ltb in E2. apply Z.ltb_ge in E2.
      repeat split; trivial.
    + intros [[H1 H2] [Hr Hi]]. rewrite Hr, Hi.
      apply Z.ltb_ge in H1. rewrite H1.
      assert (E2 : (strlen n >? 255) = false) by (rewrite Z.gtb_ltb; now apply Z.ltb_ge).
      rewrite E2. reflexivity.
  - intros [H1 H2]. rewrite Hdef.
    destruct ((strlen n <? 1) || (strlen n >? 255)); trivial.
    destruct (NameSpec.reserved n); trivial.
    destruct (NameSpec.identifier n) eqn:Hi; trivial.
    apply identifier_length in Hi. unfold strlen in H1. lia.
Qed.

(* ===================================================================== *)
(** * Properties of the encoder *)

Lemma append_length (a b : string) :
  String.length (a ++ b)%string = (String.length a + String.length b)%nat.
Proof. induction a as [|c a IH]; simpl; auto. Qed.

Lemma append_assoc (a b c : string) : ((a ++ b) ++ c = a ++ (b ++ c))%string.
Proof. induction a as [|x a IH]; simpl; trivial. now rewrite IH. Qed.

Lemma append_empty_r (a : string) : (a ++ EmptyString)%string = a.
Proof. induction a as [|x a IH]; simpl; trivial. now rewrite IH. Qed.

Lemma prefix_n_all (n : nat) :
  forall s, (String.length s <= n)%nat -> prefix_n n s = s.
Proof.
  induction n as [|n IH]; intros [|c s] H; simpl in *; trivial; try lia.
  f_equal. apply IH. lia.
Qed.

Lemma all_chars_append (p : ascii -> bool) (a b : string) :
  all_chars p (a ++ b)%string = all_chars p a && all_chars p b.
Proof.
  induction a as [|c a IH]; simpl; trivial. rewrite IH. now rewrite andb_assoc.
Qed.

Lemma digits_value_append (a b : string) :
  forall acc,
    DateSpec.digits_value acc (a ++ b)%string =
      DateSpec.digits_value (DateSpec.digits_value acc a) b.
Proof. induction a as [|c a IH]; intros acc; simpl; trivial. Qed.

Lemma byte_digit_char (d : Z) : 0 <= d < 10 -> byte (digit_char d) = 48 + d.
Proof.
  intros H.
  assert (C : d = 0 \/ d = 1 \/ d = 2 \/ d = 3 \/ d = 4 \/ d = 5 \/ d = 6 \/ d = 7
              \/ d = 8 \/ d = 9) by lia.
  repeat (destruct C as [C|C]; [subst d; reflexivity|]). subst d; reflexivity.
Qed.

Lemma first_byte_append (a b : string) :
  (1 <= String.length a)%nat ->
  DateSpec.first_byte (a ++ b)%string = DateSpec.first_byte a.
Proof. destruct a; simpl; trivial; lia. Qed.

(** What the digit loop produces, given fuel for every digit. *)
Lemma decimal_loop_spec (fuel : nat) :
  forall n acc,
    0 <= n < 2 ^ Z.of_nat fuel -> (1 <= fuel)%nat ->
    exists ds,
      decimal_loop fuel n acc = (ds ++ acc)%string
      /\ all_chars DateSpec.is_digit ds = true
      /\ (forall a, DateSpec.digits_value a ds = a * 10 ^ Z.of_nat (String.length ds) + n)
      /\ (1 <= String.length ds)%nat
      /\ (0 < n -> DateSpec.first_byte ds <> 48)
      /\ (forall k, (1 <= k)%nat -> n < 10 ^ Z.of_nat k -> (String.length ds <= k)%nat).
Proof.
  induction fuel as [|fuel IH]; intros n acc Hn Hfuel; [lia|].
  cbn [decimal_loop].
  assert (Hmod : 0 <= n mod 10 < 10) by (apply Z.mod_pos_bound; lia).
  pose proof (byte_digit_char (n mod 10) Hmod) as Hb.
  destruct (n <? 10) eqn:E.
  - apply Z.ltb_lt in E. rewrite Z.mod_small in * by lia.
    exists (String (digit_char n) EmptyString). repeat split.
    + simpl. unfold DateSpec.is_digit. rewrite Hb.
      replace (48 <=? 48 + n) with true by (symmetry; apply Z.leb_le; lia).
      replace (48 + n <=? 57) with true by (symmetry; apply Z.leb_le; lia).
      reflexivity.
    + intros a. simpl. rewrite Hb. change (Z.pos (Pos.of_succ_nat 0)) with 1. lia.
    + simpl; lia.
    + simpl. rewrite Hb. lia.
    + intros k Hk _. simpl. lia.
  - apply Z.ltb_ge in E.
    rewrite Nat2Z.inj_succ, Z.pow_succ_r in Hn by lia.
    assert (Hf : (1 <= fuel)%nat).
    { destruct fuel; [simpl in Hn; lia|lia]. }
    assert (Hdiv : 0 <= n / 10 < 2 ^ Z.of_nat fuel).
    { split; [apply Z.div_pos; lia|].
      apply Z.div_lt_upper_bound; lia. }
    destruct (IH (n / 10) (String (digit_char (n mod 10)) acc) Hdiv Hf)
      as (ds & Heq & Hall & Hval & Hlen & Hfirst & Hbound).
    exists (ds ++ String (digit_char (n mod 10)) EmptyString)%string. repeat split.
    + rewrite Heq, append_assoc. reflexivity.
    + rewrite all_chars_append, Hall. simpl. unfold DateSpec.is_digit. rewrite Hb.
      replace (48 <=? 48 + n mod 10) with true by (symmetry; apply Z.leb_le; lia).
      replace (48 + n mod 10 <=? 57) with true by (symmetry; apply Z.leb_le; lia).
      reflexivity.
    + intros a. rewrite digits_value_append, Hval. simpl DateSpec.digits_value.
      rewrite Hb, append_length. simpl String.length.
      replace (Z.of_nat (String.length ds + 1)) with (Z.succ (Z.of_nat (String.length ds)))
        by lia.
      rewrite Z.pow_succ_r by lia.
      pose proof (Z.div_mod n 10 ltac:(lia)). lia.
    + rewrite append_length. simpl. lia.
    + intros _. rewrite first_byte_append by assumption. apply Hfirst.
      apply Z.div_str_pos. lia.
    + intros k Hk Hlt. rewrite append_length. simpl String.length.
      destruct k as [|k]; [lia|]. destruct k as [|k]; [simpl in Hlt; lia|].
      assert (String.length ds <= S k)%nat; [|lia].
      apply Hbound; [lia|].
      rewrite (Nat2Z.inj_succ (S k)), Z.pow_succ_r in Hlt by lia.
      apply Z.div_lt_upper_bound; lia.
Qed.

Lemma decimal_spec (n : Z) :
  0 <= n ->
  all_chars DateSpec.is_digit (decimal n) = true
  /\ DateSpec.digits_value 0 (decimal n) = n
  /\ (1 <= String.length (decimal n))%nat
  /\ (0 < n -> DateSpec.first_byte (decimal n) <> 48)
  /\ (forall k, (1 <= k)%nat -> n < 10 ^ Z.of_nat k -> (String.length (decimal n) <= k)%nat).
Proof.
  intros Hn. unfold decimal.
  assert (Hfuel : 0 <= n < 2 ^ Z.of_nat (S (Z.to_nat (Z.log2 n)))).
  { split; trivial. rewrite Nat2Z.inj_succ, Z2Nat.id by apply Z.log2_nonneg.
    destruct (Z.eq_dec n 0) as [->|Hz]; [reflexivity|].
    apply Z.log2_spec. lia. }
  destruct (decimal_loop_spec _ n EmptyString Hfuel ltac:(lia))
    as (ds & Heq & Hall & Hval & Hlen & Hfirst & Hbound).
  rewrite Heq, append_empty_r. repeat split; trivial.
Qed.

Lemma zeros_digits (m : nat) :
  all_chars DateSpec.is_digit (zeros m) = true
  /\ (forall acc, DateSpec.digits_value acc (zeros m) = acc * 10 ^ Z.of_nat m)
  /\ String.length (zeros m) = m.
Proof.
  induction m as [|m (Hall & Hval & Hlen)]; repeat split.
  - intros acc. simpl. lia.
  - simpl. now rewrite Hall.
  - intros acc. cbn [zeros DateSpec.digits_value]. rewrite Hval.
    change (byte "0") with 48. rewrite Nat2Z.inj_succ, Z.pow_succ_r by lia. lia.
  - simpl. now rewrite Hlen.
Qed.

(** [%0<width>d] of a number that is not negative. *)
Lemma printf_0d_padded (width : nat) (n : Z) :
  0 <= n -> (1 <= width)%nat -> DateSpec.zero_padded width n (printf_0d width n).
Proof.
  intros Hn Hw. unfold printf_0d.
  replace (n <? 0) with false by (symmetry; apply Z.ltb_ge; lia).
  destruct (decimal_spec n Hn) as (Hall & Hval & Hlen & Hfirst & Hbound).
  destruct (zeros_digits (width - String.length (decimal n))) as (Zall & Zval & Zlen).
  unfold DateSpec.zero_padded. repeat split.
  - now rewrite all_chars_append, Zall, Hall.
  - rewrite digits_value_append, Zval. simpl. exact Hval.
  - rewrite append_length, Zlen. lia.
  - rewrite append_length, Zlen. intros Hlt.
    assert (Hz : (width - String.length (decimal n) = 0)%nat) by lia.
    rewrite Hz. simpl. apply Hfirst.
    destruct (Z.eq_dec n 0) as [->|]; [|lia].
    specialize (Hbound 1%nat ltac:(lia) ltac:(reflexivity)). lia.
Qed.

Lemma printf_0d_length (width k : nat) (n : Z) :
  0 <= n < 10 ^ Z.of_nat k -> (1 <= k)%nat ->
  (String.length (printf_0d width n) <= Nat.max width k)%nat
  /\ ((k <= width)%nat -> String.length (printf_0d width n) = width).
Proof.
  intros Hn Hk. unfold printf_0d.
  replace (n <? 0) with false by (symmetry; apply Z.ltb_ge; lia).
  destruct (decimal_spec n ltac:(lia)) as (_ & _ & Hlen & _ & Hbound).
  destruct (zeros_digits (width - String.length (decimal n))) as (_ & _ & Zlen).
  specialize (Hbound k Hk ltac:(lia)).
  rewrite append_length, Zlen. lia.
Qed.

(** C9, as amended. For a calendar time within the ranges [localtime]
    gives, a year of at most four digits and microseconds that are not
    negative, a Date node is dumped as the quoted text
    [YYYY-MM-DD HH:MM:SS.mmm]: four digits of year, two each of month, day,
    hour, minute and second, zeros in front, and after the point the
    microseconds themselves in decimal, with zeros in front up to three
    digits and every digit kept beyond that. *)
Theorem date_node_text (localtime : Z -> tm) (printf_3f : float -> string)
  (k : option string) (seconds microseconds : Z) (sb : string) :
  let t := localtime seconds in
  0 <= tm_year t + 1900 <= 9999 ->
  0 <= tm_mon t <= 11 ->
  1 <= tm_mday t <= 31 ->
  0 <= tm_hour t <= 23 ->
  0 <= tm_min t <= 59 ->
  0 <= tm_sec t <= 60 ->
  0 <= microseconds < 2 ^ 31 ->
  exists Y M D h m s F,
    _sa_dump_node localtime printf_3f (mkSANode k (date_ seconds microseconds)) sb =
      Some (SA_OK, (sb ++ DateSpec.date_string Y M D h m s F)%string)
    /\ (DateSpec.zero_padded 4 (tm_year t + 1900) Y /\ String.length Y = 4%nat)
    /\ (DateSpec.zero_padded 2 (tm_mon t + 1) M /\ String.length M = 2%nat)
    /\ (DateSpec.zero_padded 2 (tm_mday t) D /\ String.length D = 2%nat)
    /\ (DateSpec.zero_padded 2 (tm_hour t) h /\ String.length h = 2%nat)
    /\ (DateSpec.zero_padded 2 (tm_min t) m /\ String.length m = 2%nat)
    /\ (DateSpec.zero_padded 2 (tm_sec t) s /\ String.length s = 2%nat)
    /\ DateSpec.zero_padded 3 microseconds F.
Proof.
  intros t Hy Hmon Hd Hh Hm Hs Hu.
  assert (LY := proj2 (printf_0d_length 4 4 (tm_year t + 1900) ltac:(simpl; lia) ltac:(lia))
                  ltac:(lia)).
  assert (LM := proj2 (printf_0d_length 2 2 (tm_mon t + 1) ltac:(simpl; lia) ltac:(lia))
                  ltac:(lia)).
  assert (LD := proj2 (printf_0d_length 2 2 (tm_mday t) ltac:(simpl; lia) ltac:(lia))
                  ltac:(lia)).
  assert (Lh := proj2 (printf_0d_length 2 2 (tm_hour t) ltac:(simpl; lia) ltac:(lia))
                  ltac:(lia)).
  assert (Lm := proj2 (printf_0d_length 2 2 (tm_min t) ltac:(simpl; lia) ltac:(lia))
                  ltac:(lia)).
  assert (Ls := proj2 (printf_0d_length 2 2 (tm_sec t) ltac:(simpl; lia) ltac:(lia))
                  ltac:(lia)).
  assert (LF := proj1 (printf_0d_length 3 10 microseconds ltac:(simpl; lia) ltac:(lia))).
  exists (printf_0d 4 (tm_year t + 1900)), (printf_0d 2 (tm_mon t + 1)),
    (printf_0d 2 (tm_mday t)), (printf_0d 2 (tm_hour t)), (printf_0d 2 (tm_min t)),
    (printf_0d 2 (tm_sec t)), (printf_0d 3 microseconds).
  split.
  - cbn [_sa_dump_node]. unfold date_text, snprintf. fold t.
    rewrite prefix_n_all; [reflexivity|].
    unfold quote, chr. rewrite !append_length. simpl String.length.
    rewrite LY, LM, LD, Lh, Lm, Ls. simpl Nat.pred. lia.
  - repeat split; trivial; apply printf_0d_padded; lia.
Qed.

Lemma advance_n_shorter (n : nat) :
  forall s, (String.length (advance_n n s) <= String.length s)%nat.
Proof.
  induction n as [|n IH]; intros s; cbn [advance_n]; trivial.
  rewrite IH. destruct s; simpl; lia.
Qed.

Lemma advance_shorter (n : nat) (s : string) :
  n <> 0%nat -> peek s <> 0 ->
  (String.length (advance_n n s) < String.length s)%nat.
Proof.
  intros Hn Hs. destruct n as [|n]; [contradiction|]. cbn [advance_n].
  destruct s as [|c r]; [simpl in Hs; contradiction|].
  pose proof (advance_n_shorter n r). simpl in *. lia.
Qed.

(** The validation loop never uses up fuel larger than the length of the
    text: more fuel gives the same answer. *)
Lemma utf8_validate_fuel (fuel1 : nat) :
  forall fuel2 s,
    (String.length s < fuel1)%nat -> (String.length s < fuel2)%nat ->
    sa_utf8_validate_loop fuel1 s = sa_utf8_validate_loop fuel2 s.
Proof.
  induction fuel1 as [|fuel1 IH]; intros fuel2 s H1 H2; [lia|].
  destruct fuel2 as [|fuel2]; [lia|].
  cbn [sa_utf8_validate_loop].
  destruct (peek s =? 0) eqn:E; trivial.
  destruct (Nat.eqb (sa_utf8_validate_cz s) 0) eqn:Ez; trivial.
  apply Z.eqb_neq in E. apply Nat.eqb_neq in Ez.
  pose proof (advance_shorter _ s Ez E) as Hshort.
  apply IH; lia.
Qed.

Lemma invalid_character_is_not_ascii (s : string) :
  sa_utf8_validate_cz s = 0%nat -> 128 <= peek s.
Proof.
  unfold sa_utf8_validate_cz. destruct (peek s <=? 127) eqn:E; [discriminate|].
  intros _. apply Z.leb_gt in E. lia.
Qed.

(** The fallback inside the character loop: a byte that starts no valid
    character is answered with U+FFFD, one byte is skipped, and the loop goes
    on. *)
Lemma dump_string_loop_fallback (fuel : nat) (s b : string) :
  sa_utf8_validate_cz s = 0%nat ->
  _sa_dump_string_loop false (S fuel) s b =
    _sa_dump_string_loop false fuel (advance s) (b ++ replacement_character)%string.
Proof.
  intros H. pose proof (invalid_character_is_not_ascii s H) as Hc.
  cbn [_sa_dump_string_loop]. rewrite H. cbn [Nat.eqb].
  repeat match goal with
         | |- context [peek s =? ?n] =>
           replace (peek s =? n) with false by (symmetry; apply Z.eqb_neq; lia)
         end.
  reflexivity.
Qed.

(** C8. For a payload the validator rejects, [_sa_dump_string] returns
    [SA_INVALID_PARAMETER_ERROR] and writes nothing, and [_sa_dump_node],
    which the callers of the encoder use, returns [SA_OK] all the same, its
    buffer unchanged. *)
Theorem dump_node_drops_the_utf8_status (localtime : Z -> tm) (printf_3f : float -> string)
  (k : option string) (payload sb : string) :
  sa_utf8_validate payload = false ->
  _sa_dump_string payload sb = Some (SA_INVALID_PARAMETER_ERROR, sb)
  /\ _sa_dump_node localtime printf_3f (mkSANode k (string_ payload)) sb = Some (SA_OK, sb).
Proof.
  intros H. cbn [_sa_dump_node]. unfold _sa_dump_string. rewrite H. split; reflexivity.
Qed.

(* ===================================================================== *)
(** * Properties of the checks *)

Lemma assert_key_name_cases (k : option string) :
  _sa_assert_key_name k = SA_OK \/ _sa_assert_key_name k = SA_INVALID_PARAMETER_ERROR.
Proof.
  unfold _sa_assert_key_name.
  destruct ((checked_len k <? 1) || (checked_len k >? 255)); auto.
  destruct k as [k|]; auto.
  destruct (regexec sa_regex_0 k =? 0); auto.
  destruct (negb (regexec sa_regex_1 k =? 0)); auto.
Qed.

Lemma checked_len_ok (s : option string) :
  (checked_len s <? 1) || (checked_len s >? 255) = false <-> CheckSpec.length_ok s.
Proof.
  rewrite orb_false_iff, Z.ltb_ge, Z.gtb_ltb, Z.ltb_ge.
  destruct s as [s|]; simpl; [tauto|].
  unfold ULONG_MAX. split; [|tauto]. intros [_ H]. simpl in H. lia.
Qed.

Lemma check_legality_loop_spec (l : list SANode) :
  (_sa_check_legality_loop l = SA_OK
   /\ forall v, In v l -> CheckSpec.name_ok (key v))
  \/ (_sa_check_legality_loop l = SA_INVALID_PARAMETER_ERROR
      /\ exists v, In v l /\ ~ CheckSpec.name_ok (key v)).
Proof.
  unfold CheckSpec.name_ok.
  induction l as [|v l IH]; simpl.
  - left. split; [reflexivity|]. intros v [].
  - destruct (key v) as [k|] eqn:Hk.
    + destruct (assert_key_name_cases (Some k)) as [E|E]; rewrite E.
      * destruct IH as [[H1 H2]|[H1 (w & Hw & Hn)]].
        -- left. split; trivial. intros w [<-|Hw]; [now rewrite Hk|auto].
        -- right. split; trivial. exists w. auto.
      * right. split; trivial. exists v. split; [auto|]. rewrite Hk, E. discriminate.
    + right. split; trivial. exists v. split; [auto|]. rewrite Hk. discriminate.
Qed.

(** What [_sa_check_legality] decides. *)
Lemma check_legality_spec (d o : option string) (ty : string) (e : option string)
  (p : option SANode) :
  (_sa_check_legality d o ty e p = SA_OK
   /\ CheckSpec.length_ok d
   /\ (_sa_is_track_signup ty = true -> CheckSpec.length_ok o)
   /\ (_sa_is_track ty = true -> CheckSpec.name_ok e)
   /\ (forall P v, p = Some P -> In v (array_ P) -> CheckSpec.name_ok (key v)))
  \/ (_sa_check_legality d o ty e p = SA_INVALID_PARAMETER_ERROR
      /\ (~ CheckSpec.length_ok d
          \/ (_sa_is_track_signup ty = true /\ ~ CheckSpec.length_ok o)
          \/ (_sa_is_track ty = true /\ ~ CheckSpec.name_ok e)
          \/ (exists P v, p = Some P /\ In v (array_ P) /\ ~ CheckSpec.name_ok (key v)))).
Proof.
  unfold _sa_check_legality.
  destruct ((checked_len d <? 1) || (checked_len d >? 255)) eqn:Ed.
  { right. split; trivial. left. intros H. apply checked_len_ok in H. congruence. }
  apply checked_len_ok in Ed.
  destruct (_sa_is_track_signup ty
            && (let origin_id_len := checked_len o in
                (origin_id_len <? 1) || (origin_id_len >? 255))) eqn:Eo.
  { right. split; trivial. right. left.
    apply andb_true_iff in Eo as [Es Eo]. split; trivial.
    intros H. apply checked_len_ok in H. cbv zeta in Eo. congruence. }
  assert (Ho : _sa_is_track_signup ty = true -> CheckSpec.length_ok o).
  { intros Es. rewrite Es in Eo. cbn [andb] in Eo. cbv zeta in Eo.
    now apply checked_len_ok. }
  destruct (_sa_is_track ty
            && match e with
               | Some _ => match _sa_assert_key_name e with SA_OK => false | _ => true end
               | None => true
               end) eqn:Ee.
  { right. split; trivial. do 2 right. left.
    apply andb_true_iff in Ee as [Et Ee]. split; trivial.
    unfold CheckSpec.name_ok. intros H. destruct e as [e|]; [|discriminate].
    rewrite H in Ee. discriminate. }
  assert (He : _sa_is_track ty = true -> CheckSpec.name_ok e).
  { intros Et. rewrite Et in Ee. cbn [andb] in Ee. unfold CheckSpec.name_ok.
    destruct e as [e|]; [|discriminate].
    destruct (assert_key_name_cases (Some e)) as [E|E]; trivial.
    rewrite E in Ee. discriminate. }
  destruct p as [P|].
  - destruct (check_legality_loop_spec (array_ P)) as [[H1 H2]|[H1 (w & Hw & Hn)]].
    + left. repeat split; trivial. intros P' v [= <-]. auto.
    + right. split; trivial. do 3 right. exists P, w. auto.
  - left. repeat split; trivial. discriminate.
Qed.

Lemma failed_validation_is_rejected (c : call) :
  CheckSpec.validation_fails c ->
  _sa_check_legality (call_distinct_id c) (call_origin_id c) (call_type c) (call_event c)
    (call_properties c) = SA_INVALID_PARAMETER_ERROR.
Proof.
  intros Hf.
  destruct (check_legality_spec (call_distinct_id c) (call_origin_id c) (call_type c)
              (call_event c) (call_properties c))
    as [(_ & Hd & Ho & He & Hp)|[H _]]; trivial.
  exfalso.
  destruct Hf as [H|[(d & o & p & -> & H)|[(d & e & p & -> & H)|(p & v & Hc & Hv & H)]]].
  - auto.
  - apply H, Ho. reflexivity.
  - apply H, He. reflexivity.
  - apply H. eapply Hp; eauto.
Qed.

(** C2. A call with a distinct id whose length is not 1 to 255, a
    [track_signup] with such an origin id, a [track] whose event name the
    validator rejects, or a call with a property key the validator rejects,
    returns [SA_INVALID_PARAMETER_ERROR] and leaves the session, the super
    properties and the consumer's data in it, as it was: whatever the
    consumer is, its [send] has not run. *)
Theorem failed_validation_has_no_effect (localtime : Z -> tm) (printf_3f : float -> string)
  (T : Type) (op : SAConsumerOp T) (c : call)
  (__file__ __function__ : string) (__line__ : Z) (now : timeval)
  (sa : SensorsAnalytics T) :
  CheckSpec.validation_fails c ->
  run localtime printf_3f T op c __file__ __function__ __line__ now sa =
    Some (SA_INVALID_PARAMETER_ERROR, sa).
Proof.
  intros Hf. pose proof (failed_validation_is_rejected c Hf) as Hc.
  destruct c as [d e p|d o p|d [p|]|d [p|]|d [p|]|d [p|]|d k|d];
    unfold run, _sa_track, _sa_track_signup, _sa_profile_set, _sa_profile_set_once,
      _sa_profile_increment, _sa_profile_append, _sa_profile_unset, _sa_profile_delete;
    trivial;
    unfold _sa_track_internal;
    cbn [call_distinct_id call_origin_id call_type call_event call_properties] in Hc;
    rewrite Hc; reflexivity.
Qed.

(* ===================================================================== *)
(** * Properties of the envelope *)

Lemma byte_zero (c : ascii) : byte c = 0 <-> c = NUL.
Proof.
  split; [|now intros ->].
  intros H. apply byte_inj. now rewrite H.
Qed.

(** [strncmp] compares the first [n] bytes of the two texts. *)
Lemma strncmp_zero_iff (n : nat) :
  forall a b, strncmp a b n = 0 <-> prefix_n n (c_str a) = prefix_n n (c_str b).
Proof.
  induction n as [|n IH]; intros a b; [split; reflexivity|].
  destruct a as [|c1 r1], b as [|c2 r2]; cbn [strncmp c_str].
  - split; reflexivity.
  - destruct (Ascii.eqb c2 NUL) eqn:E2.
    + apply Ascii.eqb_eq in E2; subst. split; reflexivity.
    + apply Ascii.eqb_neq in E2. simpl. split; [|discriminate].
      intros H. exfalso. apply E2, byte_zero. lia.
  - destruct (Ascii.eqb c1 NUL) eqn:E1.
    + apply Ascii.eqb_eq in E1; subst. split; reflexivity.
    + apply Ascii.eqb_neq in E1. simpl. split; [|discriminate].
      intros H. exfalso. now apply E1, byte_zero.
  - destruct (Ascii.eqb c1 c2) eqn:E.
    + apply Ascii.eqb_eq in E; subst c2.
      destruct (Ascii.eqb c1 NUL); [split; reflexivity|].
      simpl. rewrite IH. split; [now intros ->|now intros [= ->]].
    + apply Ascii.eqb_neq in E. split.
      * intros H. exfalso. apply E, byte_inj. lia.
      * intros H. exfalso.
        destruct (Ascii.eqb c1 NUL) eqn:E1, (Ascii.eqb c2 NUL) eqn:E2; simpl in H;
          try discriminate.
        -- apply Ascii.eqb_eq in E1, E2. congruence.
        -- injection H as H _. congruence.
Qed.

Lemma key_is_transfer (k kc : string) (v : SANode) :
  key_is kc v = true -> key_is k v = true -> strncmp kc k 256 = 0.
Proof.
  unfold key_is. destruct (key v) as [vk|]; [|discriminate].
  rewrite !Z.eqb_eq, !strncmp_zero_iff. congruence.
Qed.

Lemma keyed_key_is (name : string) (v : SANode) : keyed name v = key_is name v.
Proof.
  unfold keyed, key_is. destruct (key v) as [vk|]; trivial.
  destruct (strncmp name vk 256 =? 0) eqn:E1, (strncmp vk name 256 =? 0) eqn:E2; trivial.
  - apply Z.eqb_eq, strncmp_sym_zero in E1. apply Z.eqb_neq in E2. contradiction.
  - apply Z.eqb_eq, strncmp_sym_zero in E2. apply Z.eqb_neq in E1. contradiction.
Qed.

Lemma get_child_loop_filter (k kc : string) (l : list SANode) :
  strncmp kc k 256 <> 0 ->
  _sa_get_child_loop k (filter (fun v => negb (key_is kc v)) l) = _sa_get_child_loop k l.
Proof.
  intros Hne. induction l as [|v l IH]; simpl; trivial.
  destruct (key_is kc v) eqn:E1; simpl.
  - destruct (key_is k v) eqn:E2; trivial.
    exfalso. apply Hne. eapply key_is_transfer; eauto.
  - now rewrite IH.
Qed.

(** Looking up the key just added finds the new child. *)
Lemma get_child_add_same (k : string) (c d : SANode) :
  tag d = SA_DICT -> key_is k c = true ->
  _sa_get_child (Some k) (snd (_sa_add_child c d)) = Some c.
Proof.
  intros Hd Hk. unfold key_is in Hk. destruct (key c) as [kc|] eqn:Hc; [|discriminate].
  unfold _sa_get_child. rewrite add_child_dict_tag by assumption.
  rewrite (add_child_dict c d kc Hd Hc). simpl snd.
  rewrite array_set_array_dict by assumption. simpl.
  unfold key_is at 1. now rewrite Hc, Hk.
Qed.

(** Adding a child under another key leaves a lookup as it was. *)
Lemma get_child_add_other (k : string) (c d : SANode) :
  tag d = SA_DICT -> key_is k c = false ->
  _sa_get_child (Some k) (snd (_sa_add_child c d)) = _sa_get_child (Some k) d.
Proof.
  intros Hd Hk. unfold _sa_get_child. rewrite add_child_dict_tag, Hd by assumption.
  destruct (key c) as [kc|] eqn:Hc.
  - rewrite (add_child_dict c d kc Hd Hc). simpl snd.
    rewrite array_set_array_dict by assumption. simpl. rewrite Hk.
    apply get_child_loop_filter.
    unfold key_is in Hk. rewrite Hc in Hk. now apply Z.eqb_neq.
  - unfold _sa_add_child. now rewrite Hd, Hc.
Qed.

Lemma get_child_loop_none (k : string) (l : list SANode) :
  _sa_get_child_loop k l = None <-> forall v, In v l -> key_is k v = false.
Proof.
  induction l as [|v l IH]; simpl.
  - split; trivial. intros _ v [].
  - destruct (key_is k v) eqn:E.
    + split; [discriminate|]. intros H. specialize (H v (or_introl eq_refl)). congruence.
    + rewrite IH. split.
      * intros H w [<-|Hw]; auto.
      * intros H w Hw. auto.
Qed.

Lemma add_children_tag (cs : list SANode) :
  forall d, tag d = SA_DICT -> tag (add_children cs d) = SA_DICT.
Proof.
  unfold add_children. induction cs as [|c cs IH]; intros d Hd; simpl; trivial.
  apply IH. now apply add_child_dict_tag.
Qed.

Lemma add_children_key (cs : list SANode) :
  forall d, key (add_children cs d) = key d.
Proof.
  unfold add_children. induction cs as [|c cs IH]; intros d; simpl; trivial.
  rewrite IH. apply add_child_key.
Qed.

Lemma add_child_members (c d v : SANode) :
  tag d = SA_DICT ->
  In v (array_ (snd (_sa_add_child c d))) -> v = c \/ In v (array_ d).
Proof.
  intros Hd. destruct (key c) as [kc|] eqn:Hc.
  - rewrite (add_child_dict c d kc Hd Hc). simpl snd.
    rewrite array_set_array_dict by assumption.
    intros [<-|H]; auto. apply filter_In in H. tauto.
  - unfold _sa_add_child. rewrite Hd, Hc. simpl. auto.
Qed.

(** Whatever a Dict holds after some children were added was there before
    or is one of them. *)
Lemma add_children_members (cs : list SANode) :
  forall d v, tag d = SA_DICT ->
    In v (array_ (add_children cs d)) -> In v cs \/ In v (array_ d).
Proof.
  unfold add_children. induction cs as [|c cs IH]; intros d v Hd; simpl; auto.
  intros H. apply IH in H; [|now apply add_child_dict_tag].
  destruct H as [H|H]; auto.
  apply add_child_members in H; trivial. destruct H as [->|H]; auto.
Qed.

Lemma distinct_keys_filter (f : SANode -> bool) (l : list SANode) :
  distinct_keys l = true -> distinct_keys (filter f l) = true.
Proof.
  induction l as [|c l IH]; simpl; trivial.
  destruct (key c) as [k|] eqn:Hk; [|discriminate].
  intros H. apply andb_true_iff in H as [H1 H2].
  destruct (f c); simpl; auto.
  rewrite Hk, (IH H2), andb_true_r.
  apply forallb_forall. intros v Hv. apply filter_In in Hv as [Hv _].
  rewrite forallb_forall in H1. auto.
Qed.

(** The unique-key invariant of a Dict survives [_sa_add_child]. *)
Lemma add_child_keeps_keys_distinct (c d : SANode) :
  tag d = SA_DICT -> distinct_keys (array_ d) = true ->
  distinct_keys (array_ (snd (_sa_add_child c d))) = true.
Proof.
  intros Hd Hdist. destruct (key c) as [kc|] eqn:Hc.
  - rewrite (add_child_dict c d kc Hd Hc). simpl snd.
    rewrite array_set_array_dict by assumption.
    simpl. rewrite Hc. apply andb_true_iff. split.
    + apply forallb_forall. intros v Hv. apply filter_In in Hv. tauto.
    + now apply distinct_keys_filter.
  - unfold _sa_add_child. now rewrite Hd, Hc.
Qed.

(** [sa_init_properties] gives a properties object, and the builders keep
    it one. *)
Lemma init_properties_object : EnvelopeSpec.properties_object (Some sa_init_properties).
Proof. intros p [= <-]. split; reflexivity. Qed.

Lemma builders_keep_properties_object (p : SANode) :
  EnvelopeSpec.properties_object (Some p) ->
  (forall k b, EnvelopeSpec.properties_object (snd (sa_add_bool k b (Some p))))
  /\ (forall k x, EnvelopeSpec.properties_object (snd (sa_add_number k x (Some p))))
  /\ (forall k i, EnvelopeSpec.properties_object (snd (sa_add_int k i (Some p))))
  /\ (forall k s u, EnvelopeSpec.properties_object (snd (sa_add_date k s u (Some p))))
  /\ (forall k str n, EnvelopeSpec.properties_object (snd (sa_add_string k str n (Some p)))).
Proof.
  intros H. destruct (H p eq_refl) as [Ht Hd].
  unfold EnvelopeSpec.properties_object, sa_add_bool, sa_add_number, sa_add_int,
    sa_add_date, sa_add_string.
  cbn [snd].
  repeat split; intros; match goal with H : Some _ = Some _ |- _ => injection H as <- end;
    first [now apply add_child_dict_tag | now apply add_child_keeps_keys_distinct].
Qed.

(** Clearing the super properties leaves none, and unregistering a key
    leaves no child under it. *)
Lemma clear_leaves_no_super_property (T : Type) (sa : SensorsAnalytics T) :
  tag (super_properties sa) = SA_DICT ->
  array_ (super_properties (snd (sa_clear_super_properties sa))) = [].
Proof.
  intros H. cbn [sa_clear_super_properties snd super_properties].
  unfold _sa_remove_child. rewrite H, array_set_array_dict by assumption.
  apply remove_loop_all.
Qed.

Lemma unregister_leaves_no_such_key (T : Type) (k : string) (sa : SensorsAnalytics T) :
  tag (super_properties sa) = SA_DICT ->
  EnvelopeSpec.field k (super_properties (snd (sa_unregister_super_properties (Some k) sa)))
  = None.
Proof.
  intros H. cbn [sa_unregister_super_properties snd super_properties].
  unfold EnvelopeSpec.field, _sa_get_child, _sa_remove_child.
  rewrite H, tag_set_array_, H, array_set_array_dict, remove_loop_filter by assumption.
  apply get_child_loop_none. intros v Hv. apply filter_In in Hv as [_ Hv].
  now apply negb_true_iff.
Qed.

Lemma prefix_n_len (s : string) : prefix_n (len s) s = s.
Proof. apply prefix_n_all. unfold len. lia. Qed.

Lemma prefix_c_str (buf : string) : prefix_n (len (c_str buf)) buf = c_str buf.
Proof.
  unfold len. induction buf as [|c r IH]; simpl; trivial.
  destruct (Ascii.eqb c NUL); simpl; trivial. now rewrite IH.
Qed.

Lemma checked_add_string (k s : string) (p : SANode) :
  checked (sa_add_string (Some k) s (len s) (Some p)) =
    Next (snd (_sa_add_child (mkSANode (Some k) (string_ s)) p)).
Proof. unfold sa_add_string, _sa_init_string_node. now rewrite prefix_n_len. Qed.

Lemma unchecked_add_string (k s : string) (p : SANode) :
  unchecked (sa_add_string (Some k) s (len s) (Some p)) p =
    snd (_sa_add_child (mkSANode (Some k) (string_ s)) p).
Proof. unfold sa_add_string, _sa_init_string_node. now rewrite prefix_n_len. Qed.

Lemma checked_add_int (k : string) (i : Z) (p : SANode) :
  checked (sa_add_int (Some k) i (Some p)) =
    Next (snd (_sa_add_child (mkSANode (Some k) (int_ i)) p)).
Proof. reflexivity. Qed.

Lemma time_is_not_project (v : SANode) :
  keyed "$time" v = true -> keyed "$project" v = false.
Proof.
  rewrite !keyed_key_is. intros H.
  destruct (key_is "$project" v) eqn:E; trivial.
  pose proof (key_is_transfer "$project" "$time" v H E) as C. discriminate C.
Qed.

(** The loop over the caller's properties: the plain ones are added to
    [inner_properties], a [$time] puts what is read as its date under [time]
    and a [$project] what is read as its text under [project] of [msg], and
    no other field of [msg] moves. *)
Lemma copy_properties_read (P : SANode) (curr : list SANode) :
  tag P = SA_DICT ->
  (forall v, In v curr -> In v (array_ P)) ->
  reserved_readable (Some P) ->
  forall msg inner,
    tag msg = SA_DICT ->
    exists msg',
      copy_properties P curr msg inner =
        Next (msg', add_children (filter EnvelopeSpec.plain curr) inner)
      /\ tag msg' = SA_DICT
      /\ EnvelopeSpec.field "time" msg' =
           (if existsb (keyed "$time") curr
            then option_map
                   (fun n => EnvelopeSpec.time_node (read_milliseconds n))
                   (EnvelopeSpec.time_entry (Some P))
            else EnvelopeSpec.field "time" msg)
      /\ EnvelopeSpec.field "project" msg' =
           (if existsb (keyed "$project") curr
            then option_map
                   (fun n => EnvelopeSpec.project_node (read_payload n))
                   (EnvelopeSpec.project_entry (Some P))
            else EnvelopeSpec.field "project" msg)
      /\ (forall k, strncmp "time" k 256 <> 0 -> strncmp "project" k 256 <> 0 ->
            EnvelopeSpec.field k msg' = EnvelopeSpec.field k msg).
Proof.
  intros HP Hsub [Htime Hproj].
  unfold EnvelopeSpec.field, EnvelopeSpec.time_entry, EnvelopeSpec.project_entry in *.
  induction curr as [|v next IH]; intros msg inner Hmsg.
  - exists msg. repeat split; trivial.
  - assert (Hnext : forall w, In w next -> In w (array_ P)) by (intros; apply Hsub; now right).
    specialize (IH Hnext).
    assert (Hv : In v (array_ P)) by (apply Hsub; now left).
    cbn [copy_properties existsb filter].
    destruct (keyed "$time" v) eqn:Et.
    + (* $time *)
      pose proof (time_is_not_project v Et) as Ep.
      unfold EnvelopeSpec.plain at 1. rewrite Et, Ep. cbn [negb andb orb].
      destruct (_sa_get_child (Some "$time") P) as [tn|] eqn:Eg.
      2:{ exfalso. unfold _sa_get_child in Eg. rewrite HP in Eg.
          rewrite get_child_loop_none in Eg. specialize (Eg v Hv).
          rewrite keyed_key_is in Et. congruence. }
      pose proof (Htime tn eq_refl) as Hread.
      set (u := date_microseconds (union tn)).
      assert (Hms : exists s, date_seconds (union tn) = Some s
                              /\ read_milliseconds tn = s * 1000 + Z.quot u 1000).
      { unfold read_milliseconds, EnvelopeSpec.milliseconds. fold u.
        destruct (date_seconds (union tn)) as [s|]; [eauto|contradiction]. }
      destruct Hms as (s & Es & Hms). clear Hread. rewrite Es.
      cbn [option_map] in *. rewrite Hms in *.
      rewrite checked_add_int. cbn [and_then].
      set (node := mkSANode (Some "time") (int_ (int64 (s * 1000 + Z.quot u 1000)))).
      destruct (IH (snd (_sa_add_child node msg)) inner
                  ltac:(now apply add_child_dict_tag))
        as (msg' & Heq & Htag' & Ht & Hp & Hk).
      exists msg'. repeat split; trivial.
      * rewrite Ht. destruct (existsb (keyed "$time") next); trivial.
        now rewrite get_child_add_same.
      * rewrite Hp. destruct (existsb (keyed "$project") next); trivial.
        now rewrite get_child_add_other.
      * intros k H1 H2. rewrite Hk by assumption.
        apply get_child_add_other; trivial.
        unfold key_is, node. cbn [key]. now apply Z.eqb_neq.
    + destruct (keyed "$project" v) eqn:Ep.
      * (* $project *)
        unfold EnvelopeSpec.plain at 1. rewrite Et, Ep. cbn [negb andb orb].
        destruct (_sa_get_child (Some "$project") P) as [pn|] eqn:Eg.
        2:{ exfalso. unfold _sa_get_child in Eg. rewrite HP in Eg.
            rewrite get_child_loop_none in Eg. specialize (Eg v Hv).
            rewrite keyed_key_is in Ep. congruence. }
        pose proof (Hproj pn eq_refl) as Hread.
        assert (Hpl : exists bytes, string_member (union pn) = Some bytes
                                    /\ read_payload pn = bytes).
        { unfold read_payload.
          destruct (string_member (union pn)) as [bytes|]; [eauto|contradiction]. }
        destruct Hpl as (bytes & Es & Hpl). clear Hread. rewrite Es.
        cbn [option_map] in *. rewrite Hpl in *.
        unfold sa_add_string, _sa_init_string_node. rewrite prefix_c_str.
        cbn [checked and_then].
        set (node := mkSANode (Some "project") (string_ (c_str bytes))).
        destruct (IH (snd (_sa_add_child node msg)) inner
                    ltac:(now apply add_child_dict_tag))
          as (msg' & Heq & Htag' & Ht & Hp & Hk).
        exists msg'. repeat split; trivial.
        -- rewrite Ht. destruct (existsb (keyed "$time") next); trivial.
           now rewrite get_child_add_other.
        -- rewrite Hp. destruct (existsb (keyed "$project") next); trivial.
           now rewrite get_child_add_same.
        -- intros k H1 H2. rewrite Hk by assumption.
           apply get_child_add_other; trivial.
           unfold key_is, node. cbn [key]. now apply Z.eqb_neq.
      * (* a plain property *)
        unfold EnvelopeSpec.plain at 1. rewrite Et, Ep. cbn [negb andb orb].
        destruct (IH msg (snd (_sa_add_child v inner)) Hmsg)
          as (msg' & Heq & Htag' & Ht & Hp & Hk).
        exists msg'. repeat split; trivial.
Qed.

(** The same where [$time] is a Date and [$project] a String. *)
Lemma reserved_typed_readable (properties : option SANode) :
  EnvelopeSpec.reserved_typed properties ->
  reserved_readable properties
  /\ (forall n, EnvelopeSpec.time_entry properties = Some n ->
        read_milliseconds n = EnvelopeSpec.date_milliseconds n)
  /\ (forall n, EnvelopeSpec.project_entry properties = Some n ->
        read_payload n = EnvelopeSpec.payload n).
Proof.
  intros [Htime Hproj]. split; [split|split]; intros n Hn.
  - specialize (Htime n Hn). destruct n as [k []]; try discriminate Htime. discriminate.
  - specialize (Hproj n Hn). destruct n as [k []]; try discriminate Hproj. discriminate.
  - specialize (Htime n Hn). destruct n as [k []]; try discriminate Htime. reflexivity.
  - specialize (Hproj n Hn). destruct n as [k []]; try discriminate Hproj. reflexivity.
Qed.

Lemma copy_properties_spec (P : SANode) (curr : list SANode) :
  tag P = SA_DICT ->
  (forall v, In v curr -> In v (array_ P)) ->
  EnvelopeSpec.reserved_typed (Some P) ->
  forall msg inner,
    tag msg = SA_DICT ->
    exists msg',
      copy_properties P curr msg inner =
        Next (msg', add_children (filter EnvelopeSpec.plain curr) inner)
      /\ tag msg' = SA_DICT
      /\ EnvelopeSpec.field "time" msg' =
           (if existsb (keyed "$time") curr
            then option_map
                   (fun n => EnvelopeSpec.time_node (EnvelopeSpec.date_milliseconds n))
                   (EnvelopeSpec.time_entry (Some P))
            else EnvelopeSpec.field "time" msg)
      /\ EnvelopeSpec.field "project" msg' =
           (if existsb (keyed "$project") curr
            then option_map
                   (fun n => EnvelopeSpec.project_node (EnvelopeSpec.payload n))
                   (EnvelopeSpec.project_entry (Some P))
            else EnvelopeSpec.field "project" msg)
      /\ (forall k, strncmp "time" k 256 <> 0 -> strncmp "project" k 256 <> 0 ->
            EnvelopeSpec.field k msg' = EnvelopeSpec.field k msg).
Proof.
  intros HP Hsub Htyped msg inner Hmsg.
  destruct (reserved_typed_readable (Some P) Htyped) as (Hread & Hms & Hpl).
  destruct (copy_properties_read P curr HP Hsub Hread msg inner Hmsg)
    as (msg' & Heq & Htag & Ht & Hp & Hk).
  exists msg'. repeat split; trivial.
  - rewrite Ht. destruct (existsb (keyed "$time") curr); trivial.
    destruct (EnvelopeSpec.time_entry (Some P)) as [n|] eqn:E; trivial.
    cbn [option_map]. now rewrite (Hms n).
  - rewrite Hp. destruct (existsb (keyed "$project") curr); trivial.
    destruct (EnvelopeSpec.project_entry (Some P)) as [n|] eqn:E; trivial.
    cbn [option_map]. now rewrite (Hpl n).
Qed.

Lemma unchecked_add_string_key (k : option string) (s : string) (n : nat) (p : SANode) :
  key (unchecked (sa_add_string k s n (Some p)) p) = key p.
Proof. unfold unchecked, sa_add_string. cbn [snd]. apply add_child_key. Qed.

Lemma existsb_keyed_entry (k : string) (P : SANode) :
  tag P = SA_DICT ->
  existsb (keyed k) (array_ P) =
    match _sa_get_child (Some k) P with Some _ => true | None => false end.
Proof.
  intros HP. unfold _sa_get_child. rewrite HP.
  induction (array_ P) as [|v l IH]; simpl; trivial.
  rewrite keyed_key_is. destruct (key_is k v); simpl; trivial.
Qed.

Lemma inner_properties_tag (ty : string) (super : SANode) :
  tag (inner_properties_of ty super) = SA_DICT.
Proof.
  unfold inner_properties_of.
  destruct (_sa_is_track ty || _sa_is_track_signup ty); [|reflexivity].
  apply add_children_tag. reflexivity.
Qed.

Lemma inner_properties_key (ty : string) (super : SANode) :
  key (inner_properties_of ty super) = Some "properties".
Proof.
  unfold inner_properties_of.
  destruct (_sa_is_track ty || _sa_is_track_signup ty); [|reflexivity].
  rewrite add_children_key. reflexivity.
Qed.

(** What [inner_properties] holds before the caller's properties are
    copied: nothing for a profile operation; for [track] and [track_signup]
    the library's [$lib] and [$lib_version] and the super properties. *)
Lemma inner_properties_members (ty : string) (super v : SANode) :
  In v (array_ (inner_properties_of ty super)) ->
  _sa_is_track ty || _sa_is_track_signup ty = true
  /\ (In v (array_ super)
      \/ v = mkSANode (Some "$lib") (string_ SA_LIB)
      \/ v = mkSANode (Some "$lib_version") (string_ SA_LIB_VERSION)).
Proof.
  unfold inner_properties_of.
  destruct (_sa_is_track ty || _sa_is_track_signup ty); [|intros []].
  intros H. split; trivial.
  apply add_children_members in H; [|reflexivity].
  destruct H as [H|H]; auto.
  cbn in H. destruct H as [<-|[<-|[]]]; auto.
Qed.

(** Runs the builder calls at the head of [_sa_track_msg], for a type that
    is a string constant and strings that are not NULL. *)
Ltac run_builders :=
  repeat first
    [ rewrite checked_add_string
    | rewrite unchecked_add_string
    | rewrite checked_add_int
    | progress cbn [and_then deref orb]
    | match goal with
      | |- context [_sa_is_track ?ty] =>
        let b := eval vm_compute in (_sa_is_track ty) in
        change (_sa_is_track ty) with b
      | |- context [_sa_is_track_signup ?ty] =>
        let b := eval vm_compute in (_sa_is_track_signup ty) in
        change (_sa_is_track_signup ty) with b
      end ].

(** The envelope of a call that has passed the checks: the fields of [msg]
    that the theorems below read, and what [inner_properties] was built
    from. *)
Lemma call_msg_read (c : call) (__file__ __function__ : string) (__line__ : Z)
  (now : timeval) (super : SANode) :
  _sa_check_legality (call_distinct_id c) (call_origin_id c) (call_type c) (call_event c)
    (call_properties c) = SA_OK ->
  EnvelopeSpec.properties_object (call_properties c) ->
  reserved_readable (call_properties c) ->
  exists msg,
    call_msg c __file__ __function__ __line__ now super = Next msg
    /\ tag msg = SA_DICT
    /\ EnvelopeSpec.field "properties" msg =
         Some (add_children
                 (filter EnvelopeSpec.plain (EnvelopeSpec.supplied (call_properties c)))
                 (inner_properties_of (call_type c) super))
    /\ EnvelopeSpec.field "time" msg =
         Some (match EnvelopeSpec.time_entry (call_properties c) with
               | Some n => EnvelopeSpec.time_node (read_milliseconds n)
               | None =>
                 EnvelopeSpec.time_node (EnvelopeSpec.milliseconds (tv_sec now) (tv_usec now))
               end)
    /\ EnvelopeSpec.field "project" msg =
         option_map (fun n => EnvelopeSpec.project_node (read_payload n))
           (EnvelopeSpec.project_entry (call_properties c))
    /\ EnvelopeSpec.field "event" msg =
         (if is_profile c then None
          else option_map (fun e => mkSANode (Some "event") (string_ e)) (call_event c)).
Proof.
  intros Hok Hobj Htyped.
  destruct (check_legality_spec (call_distinct_id c) (call_origin_id c) (call_type c)
              (call_event c) (call_properties c))
    as [(_ & Hd & Ho & He & _)|[H _]]; [|congruence].
  assert (Hbase : exists base,
             tag base = SA_DICT
             /\ call_msg c __file__ __function__ __line__ now super =
                  (both <- match call_properties c with
                           | None => Next (base, inner_properties_of (call_type c) super)
                           | Some p =>
                             copy_properties p (array_ p) base
                               (inner_properties_of (call_type c) super)
                           end ;;
                   Next (snd (_sa_add_child (snd both) (fst both))))
             /\ EnvelopeSpec.field "time" base =
                  Some (EnvelopeSpec.time_node
                          (EnvelopeSpec.milliseconds (tv_sec now) (tv_usec now)))
             /\ EnvelopeSpec.field "project" base = None
             /\ EnvelopeSpec.field "event" base =
                  (if is_profile c then None
                   else option_map (fun e => mkSANode (Some "event") (string_ e))
                          (call_event c))).
  { unfold call_msg, _sa_track_msg.
    destruct (call_distinct_id c) as [id|]; [|contradiction].
    destruct c as [d e p|d o p|d p|d p|d p|d p|d k|d];
      cbn [call_origin_id call_type call_event call_properties is_profile] in *.
    - specialize (He eq_refl). destruct e as [e|]; [|discriminate He].
      run_builders. eexists. split; [|split; [reflexivity|]]; repeat split.
    - specialize (Ho eq_refl). destruct o as [o|]; [|contradiction].
      run_builders. eexists. split; [|split; [reflexivity|]]; repeat split.
    - run_builders. eexists. split; [|split; [reflexivity|]]; repeat split.
    - run_builders. eexists. split; [|split; [reflexivity|]]; repeat split.
    - run_builders. eexists. split; [|split; [reflexivity|]]; repeat split.
    - run_builders. eexists. split; [|split; [reflexivity|]]; repeat split.
    - run_builders. eexists. split; [|split; [reflexivity|]]; repeat split.
    - run_builders. eexists. split; [|split; [reflexivity|]]; repeat split. }
  destruct Hbase as (base & Hbt & Heq & Hbtime & Hbproj & Hbevent).
  rewrite Heq. clear Heq.
  set (inner0 := inner_properties_of (call_type c) super).
  assert (Hi0 : tag inner0 = SA_DICT) by apply inner_properties_tag.
  assert (Hk0 : key inner0 = Some "properties") by apply inner_properties_key.
  unfold EnvelopeSpec.field in *.
  destruct (call_properties c) as [P|] eqn:HP.
  - destruct (Hobj P eq_refl) as [HPt _].
    destruct (copy_properties_read P (array_ P) HPt (fun v H => H) Htyped base inner0 Hbt)
      as (msg' & Hcopy & Hmt & Ht & Hp & Hk).
    rewrite Hcopy. cbn [and_then fst snd EnvelopeSpec.supplied].
    set (inner := add_children (filter EnvelopeSpec.plain (array_ P)) inner0) in *.
    assert (Hik : key inner = Some "properties").
    { unfold inner. now rewrite add_children_key. }
    assert (Hinner_other : forall k, strncmp "properties" k 256 <> 0 -> key_is k inner = false).
    { intros k Hne. unfold key_is. rewrite Hik. now apply Z.eqb_neq. }
    eexists. split; [reflexivity|]. repeat split.
    + now apply add_child_dict_tag.
    + apply get_child_add_same; trivial. unfold key_is. now rewrite Hik.
    + rewrite get_child_add_other by (trivial; apply Hinner_other; discriminate).
      unfold EnvelopeSpec.field in Ht. rewrite Ht.
      rewrite (existsb_keyed_entry "$time" P HPt). unfold EnvelopeSpec.time_entry.
      destruct (_sa_get_child (Some "$time") P); trivial.
    + rewrite get_child_add_other by (trivial; apply Hinner_other; discriminate).
      unfold EnvelopeSpec.field in Hp. rewrite Hp.
      rewrite (existsb_keyed_entry "$project" P HPt). unfold EnvelopeSpec.project_entry.
      destruct (_sa_get_child (Some "$project") P); trivial.
    + rewrite get_child_add_other by (trivial; apply Hinner_other; discriminate).
      unfold EnvelopeSpec.field in Hk. rewrite Hk by discriminate. exact Hbevent.
  - cbn [and_then fst snd EnvelopeSpec.supplied filter add_children fold_left].
    assert (Hinner_other : forall k, strncmp "properties" k 256 <> 0 -> key_is k inner0 = false).
    { intros k Hne. unfold key_is. rewrite Hk0. now apply Z.eqb_neq. }
    eexists. split; [reflexivity|]. repeat split.
    + now apply add_child_dict_tag.
    + apply get_child_add_same; trivial. unfold key_is. now rewrite Hk0.
    + rewrite get_child_add_other by (trivial; apply Hinner_other; discriminate).
      exact Hbtime.
    + rewrite get_child_add_other by (trivial; apply Hinner_other; discriminate).
      exact Hbproj.
    + rewrite get_child_add_other by (trivial; apply Hinner_other; discriminate).
      exact Hbevent.
Qed.

(** The same where [$time] is a Date and [$project] a String. *)
Lemma call_msg_spec (c : call) (__file__ __function__ : string) (__line__ : Z)
  (now : timeval) (super : SANode) :
  _sa_check_legality (call_distinct_id c) (call_origin_id c) (call_type c) (call_event c)
    (call_properties c) = SA_OK ->
  EnvelopeSpec.properties_object (call_properties c) ->
  EnvelopeSpec.reserved_typed (call_properties c) ->
  exists msg,
    call_msg c __file__ __function__ __line__ now super = Next msg
    /\ tag msg = SA_DICT
    /\ EnvelopeSpec.field "properties" msg =
         Some (add_children
                 (filter EnvelopeSpec.plain (EnvelopeSpec.supplied (call_properties c)))
                 (inner_properties_of (call_type c) super))
    /\ EnvelopeSpec.field "time" msg =
         Some (match EnvelopeSpec.time_entry (call_properties c) with
               | Some n => EnvelopeSpec.time_node (EnvelopeSpec.date_milliseconds n)
               | None =>
                 EnvelopeSpec.time_node (EnvelopeSpec.milliseconds (tv_sec now) (tv_usec now))
               end)
    /\ EnvelopeSpec.field "project" msg =
         option_map (fun n => EnvelopeSpec.project_node (EnvelopeSpec.payload n))
           (EnvelopeSpec.project_entry (call_properties c))
    /\ EnvelopeSpec.field "event" msg =
         (if is_profile c then None
          else option_map (fun e => mkSANode (Some "event") (string_ e)) (call_event c)).
Proof.
  intros Hok Hobj Htyped.
  destruct (reserved_typed_readable (call_properties c) Htyped) as (Hread & Hms & Hpl).
  destruct (call_msg_read c __file__ __function__ __line__ now super Hok Hobj Hread)
    as (msg & Hmsg & Htag & Hprops & Htime & Hproj & Hevent).
  exists msg. repeat split; trivial.
  - rewrite Htime. destruct (EnvelopeSpec.time_entry (call_properties c)) as [n|]; trivial.
    now rewrite (Hms n).
  - rewrite Hproj. destruct (EnvelopeSpec.project_entry (call_properties c)) as [n|]; trivial.
    cbn [option_map]. now rewrite (Hpl n).
Qed.


Lemma inner_properties_of_profile (c : call) (super : SANode) :
  is_profile c = true ->
  inner_properties_of (call_type c) super = _sa_init_dict_node (Some "properties").
Proof. destruct c; try discriminate; reflexivity. Qed.

Lemma track_is_not_profile (c : call) :
  _sa_is_track (call_type c) || _sa_is_track_signup (call_type c) = true ->
  is_profile c = false.
Proof. destruct c; trivial; discriminate. Qed.

(** Where a child of the finished [inner_properties] comes from: a plain
    property of the caller, or what [track] and [track_signup] put there
    first. *)
Lemma inner_members (c : call) (super v : SANode) :
  In v (array_ (add_children
                  (filter EnvelopeSpec.plain (EnvelopeSpec.supplied (call_properties c)))
                  (inner_properties_of (call_type c) super))) ->
  (In v (EnvelopeSpec.supplied (call_properties c)) /\ EnvelopeSpec.plain v = true)
  \/ (is_profile c = false
      /\ (In v (array_ super)
          \/ v = mkSANode (Some "$lib") (string_ SA_LIB)
          \/ v = mkSANode (Some "$lib_version") (string_ SA_LIB_VERSION))).
Proof.
  intros H. apply add_children_members in H; [|apply inner_properties_tag].
  destruct H as [H|H].
  - left. now apply filter_In in H.
  - right. apply inner_properties_members in H as [Ht H].
    split; trivial. now apply track_is_not_profile.
Qed.



(** C6. The envelope of a profile operation that passes the checks has no
    [event] field, the children of its inner properties are all properties
    of the caller, and the envelope is the same whatever the super properties
    are. *)
Theorem profile_envelope_ignores_super_properties (c : call)
  (__file__ __function__ : string) (__line__ : Z) (now : timeval) (super : SANode) :
  is_profile c = true ->
  _sa_check_legality (call_distinct_id c) (call_origin_id c) (call_type c) (call_event c)
    (call_properties c) = SA_OK ->
  EnvelopeSpec.properties_object (call_properties c) ->
  EnvelopeSpec.reserved_typed (call_properties c) ->
  exists msg inner,
    call_msg c __file__ __function__ __line__ now super = Next msg
    /\ EnvelopeSpec.field "event" msg = None
    /\ EnvelopeSpec.field "properties" msg = Some inner
    /\ (forall v, In v (array_ inner) -> In v (EnvelopeSpec.supplied (call_properties c)))
    /\ (forall super', call_msg c __file__ __function__ __line__ now super' = Next msg).
Proof.
  intros Hprofile Hok Hobj Htyped.
  destruct (call_msg_spec c __file__ __function__ __line__ now super Hok Hobj Htyped)
    as (msg & Hmsg & _ & Hprops & _ & _ & Hevent).
  eexists msg, _. split; [exact Hmsg|]. rewrite Hprofile in Hevent.
  split; [exact Hevent|]. split; [exact Hprops|]. split.
  - intros v Hv. apply inner_members in Hv as [[Hs _]|[Hc _]]; [trivial|congruence].
  - intros super'. rewrite <- Hmsg. unfold call_msg, _sa_track_msg.
    now rewrite !inner_properties_of_profile.
Qed.

(* ===================================================================== *)
(** * Properties of the logging consumer *)

Section LoggingConsumerProperties.

Variable World : Type.
Variable FILE : Type.
Variable time : World -> Z.
Variable localtime : Z -> tm.
Variable fopen_append : string -> World -> option FILE * World.
Variable fwrite : string -> FILE -> World -> Z * World.
Variable fflush : FILE -> World -> Z * World.
Variable fclose : FILE -> World -> Z * World.

Local Abbreviation send :=
  (_sa_logging_consumer_send World FILE time localtime fopen_append fwrite fflush fclose).
Local Abbreviation current_date := (_sa_get_current_date World time localtime).

(** C7, as amended. A send with data and an event that are not NULL reads
    the date of today; when it is the date of the open file, it writes the
    event and a newline to the stream and returns [SA_OK]; when it is
    another, it flushes and closes the open stream, if any, records the new
    date, and opens in append mode the file named by the prefix, [.log.] and
    the date number, in at most 511 bytes: it then writes the event and a
    newline and returns [SA_OK], or returns [SA_IO_ERROR] when the file did
    not open.  No other status comes back, and [SA_IO_ERROR] comes back for
    no other reason: what [fwrite] returns does not matter. *)
Theorem logging_send_rotates_by_date (inter : SALoggingConsumerInter FILE)
  (event : string) (length : nat) (w : World) :
  let today := current_date w in
  let w1 := match file inter with
            | Some f => snd (fclose f (snd (fflush f w)))
            | None => w
            end in
  let name := snprintf 512 (file_name_prefix inter ++ ".log." ++ printf_d today)%string in
  let opened := fopen_append name w1 in
  let written := fun f w' => snd (fwrite (chr 10) f (snd (fwrite (prefix_n length event) f w'))) in
  (today = date inter ->
   forall f, file inter = Some f ->
     send (Some inter) (Some event) length w = Some (SA_OK, Some inter, written f w))
  /\ (today <> date inter ->
      forall f, fst opened = Some f ->
        send (Some inter) (Some event) length w =
          Some (SA_OK, Some (mkInter name (file_name_prefix inter) today (Some f)),
                written f (snd opened)))
  /\ (today <> date inter ->
      fst opened = None ->
      send (Some inter) (Some event) length w =
        Some (SA_IO_ERROR, Some (mkInter name (file_name_prefix inter) today None),
              snd opened))
  /\ (forall res inter' w',
        send (Some inter) (Some event) length w = Some (res, inter', w') ->
        (res = SA_OK \/ res = SA_IO_ERROR)
        /\ (res = SA_IO_ERROR <-> today <> date inter /\ fst opened = None))
  /\ ((String.length (file_name_prefix inter) + 5 + String.length (printf_d today) <= 511)%nat ->
      name = (file_name_prefix inter ++ ".log." ++ printf_d today)%string).
Proof.
  intros today w1 name opened written.
  assert (Hsame : today = date inter ->
                  send (Some inter) (Some event) length w =
                    match file inter with
                    | Some f => Some (SA_OK, Some inter, written f w)
                    | None => None
                    end).
  { intros E. unfold _sa_logging_consumer_send. fold today.
    rewrite E, Z.eqb_refl. reflexivity. }
  assert (Hother : today <> date inter ->
                   send (Some inter) (Some event) length w =
                     match fst opened with
                     | Some f =>
                       Some (SA_OK, Some (mkInter name (file_name_prefix inter) today (Some f)),
                             written f (snd opened))
                     | None =>
                       Some (SA_IO_ERROR,
                             Some (mkInter name (file_name_prefix inter) today None),
                             snd opened)
                     end).
  { intros E. unfold _sa_logging_consumer_send. fold today.
    apply Z.eqb_neq in E. rewrite E. cbn [negb].
    unfold _sa_logging_consumer_close, opened, name, w1, written, write_event.
    destruct (file inter) as [f|]; cbn [file_name_prefix];
      destruct (fst (fopen_append _ _)) eqn:Eo; rewrite ?Eo; reflexivity. }
  split; [|split; [|split; [|split]]].
  - intros E f Hf. now rewrite (Hsame E), Hf.
  - intros E f Hf. now rewrite (Hother E), Hf.
  - intros E Ho. now rewrite (Hother E), Ho.
  - intros res inter' w' H.
    destruct (Z.eq_dec today (date inter)) as [E|E].
    + rewrite (Hsame E) in H. destruct (file inter); [|discriminate].
      injection H as <- _ _. split; [auto|]. split; [discriminate|tauto].
    + rewrite (Hother E) in H. destruct (fst opened) eqn:Eo; injection H as <- _ _.
      * split; [auto|]. split; [discriminate|]. intros [_ C]. discriminate.
      * split; auto. tauto.
  - intros Hlen. unfold name, snprintf. apply prefix_n_all.
    rewrite !append_length. simpl. lia.
Qed.

End LoggingConsumerProperties.

(* ===================================================================== *)
(** * Properties of the super properties *)

Lemma get_child_loop_app (k : string) (a b : list SANode) :
  _sa_get_child_loop k (a ++ b) = or_else (_sa_get_child_loop k a) (_sa_get_child_loop k b).
Proof.
  induction a as [|v a IH]; simpl; trivial.
  destruct (key_is k v); trivial.
Qed.

Lemma get_child_add (k : string) (c d : SANode) :
  tag d = SA_DICT ->
  _sa_get_child (Some k) (snd (_sa_add_child c d)) =
    if key_is k c then Some c else _sa_get_child (Some k) d.
Proof.
  intros Hd. destruct (key_is k c) eqn:E.
  - now apply get_child_add_same.
  - now apply get_child_add_other.
Qed.

(** A lookup after a run of [_sa_add_child] calls: the last child added
    under the key, or what was there. *)
Lemma get_child_add_children (k : string) (cs : list SANode) :
  forall d, tag d = SA_DICT ->
    _sa_get_child (Some k) (add_children cs d) =
      or_else (_sa_get_child_loop k (rev cs)) (_sa_get_child (Some k) d).
Proof.
  unfold add_children. induction cs as [|c cs IH]; intros d Hd; trivial.
  cbn [fold_left rev]. rewrite IH by now apply add_child_dict_tag.
  rewrite get_child_loop_app, get_child_add by assumption. cbn [_sa_get_child_loop].
  destruct (_sa_get_child_loop k (rev cs)); cbn [or_else]; trivial.
  destruct (key_is k c); trivial.
Qed.

Lemma get_child_loop_rev (k : string) (l : list SANode) :
  distinct_keys l = true -> _sa_get_child_loop k (rev l) = _sa_get_child_loop k l.
Proof.
  induction l as [|c l IH]; trivial.
  cbn [distinct_keys rev _sa_get_child_loop].
  destruct (key c) as [kc|] eqn:Hc; [|discriminate].
  intros H. apply andb_true_iff in H as [Hfresh Hl].
  rewrite get_child_loop_app, (IH Hl). cbn [_sa_get_child_loop].
  destruct (key_is k c) eqn:E.
  - assert (Hnone : _sa_get_child_loop k l = None).
    { apply get_child_loop_none. intros v Hv.
      destruct (key_is k v) eqn:Ev; trivial. exfalso.
      rewrite forallb_forall in Hfresh. specialize (Hfresh v Hv).
      apply negb_true_iff in Hfresh.
      unfold key_is in E, Ev, Hfresh. rewrite Hc in E.
      destruct (key v) as [vk|]; [|discriminate].
      apply Z.eqb_eq in E, Ev. apply Z.eqb_neq in Hfresh. apply Hfresh.
      rewrite strncmp_zero_iff in *. congruence. }
    now rewrite Hnone.
  - destruct (_sa_get_child_loop k l); trivial.
Qed.

Lemma add_children_keep_keys_distinct (cs : list SANode) :
  forall d, tag d = SA_DICT -> distinct_keys (array_ d) = true ->
    distinct_keys (array_ (add_children cs d)) = true.
Proof.
  unfold add_children. induction cs as [|c cs IH]; intros d Hd Hdist; trivial.
  cbn [fold_left]. apply IH.
  - now apply add_child_dict_tag.
  - now apply add_child_keeps_keys_distinct.
Qed.

(** X1. Registering a properties object as super properties returns [SA_OK]
    and leaves the consumer's data alone; afterwards the store is still a
    Dict with the key it had and pairwise distinct keys, and a lookup under
    any key finds the registered property when one was registered under that
    key, and what the store held before otherwise. *)
Theorem registered_properties_override (T : Type) (p : SANode) (sa : SensorsAnalytics T) :
  tag p = SA_DICT ->
  distinct_keys (array_ p) = true ->
  tag (super_properties sa) = SA_DICT ->
  distinct_keys (array_ (super_properties sa)) = true ->
  exists sa',
    sa_register_super_properties (Some p) (Some sa) = (SA_OK, Some sa')
    /\ this_ sa' = this_ sa
    /\ tag (super_properties sa') = SA_DICT
    /\ key (super_properties sa') = key (super_properties sa)
    /\ distinct_keys (array_ (super_properties sa')) = true
    /\ forall k,
         _sa_get_child (Some k) (super_properties sa') =
           or_else (_sa_get_child (Some k) p) (_sa_get_child (Some k) (super_properties sa)).
Proof.
  intros Hp Hpd Hs Hsd. unfold sa_register_super_properties. rewrite Hp.
  eexists. split; [reflexivity|]. cbn [this_ super_properties].
  split; [reflexivity|]. split; [now apply add_children_tag|].
  split; [apply add_children_key|].
  split; [now apply add_children_keep_keys_distinct|].
  intros k. rewrite get_child_add_children by assumption.
  rewrite get_child_loop_rev by assumption.
  unfold _sa_get_child at 2. now rewrite Hp.
Qed.

Lemma get_child_loop_filter_other (k : string) (f : SANode -> bool) (l : list SANode) :
  (forall v, In v l -> key_is k v = true -> f v = true) ->
  _sa_get_child_loop k (filter f l) = _sa_get_child_loop k l.
Proof.
  induction l as [|v l IH]; intros H; trivial. cbn [filter _sa_get_child_loop].
  assert (IH' : _sa_get_child_loop k (filter f l) = _sa_get_child_loop k l).
  { apply IH. intros w Hw. apply H. now right. }
  destruct (key_is k v) eqn:E.
  - rewrite (H v (or_introl eq_refl) E). cbn [_sa_get_child_loop]. now rewrite E.
  - destruct (f v); cbn [_sa_get_child_loop]; rewrite ?E; exact IH'.
Qed.

(** X2. Unregistering a super property returns [SA_OK] and unlinks the
    children its key names, on the first 256 bytes: the others stay, in
    their order, a lookup under the key finds nothing afterwards, and a
    lookup under a key that differs within 256 bytes finds what it found
    before.  With a NULL key every child is unlinked, as by
    [sa_clear_super_properties]. *)
Theorem unregister_unlinks_the_named_children (T : Type) (sa : SensorsAnalytics T) :
  tag (super_properties sa) = SA_DICT ->
  (forall k,
     let sa' := snd (sa_unregister_super_properties (Some k) sa) in
     fst (sa_unregister_super_properties (Some k) sa) = SA_OK
     /\ this_ sa' = this_ sa
     /\ array_ (super_properties sa') =
          filter (fun v => negb (key_is k v)) (array_ (super_properties sa))
     /\ _sa_get_child (Some k) (super_properties sa') = None
     /\ (forall k', strncmp k k' 256 <> 0 ->
           _sa_get_child (Some k') (super_properties sa') =
             _sa_get_child (Some k') (super_properties sa)))
  /\ sa_unregister_super_properties None sa = sa_clear_super_properties sa
  /\ array_ (super_properties (snd (sa_clear_super_properties sa))) = []
  /\ tag (super_properties (snd (sa_clear_super_properties sa))) = SA_DICT.
Proof.
  intros Hs. split; [|split; [reflexivity|split]].
  - intros k sa'. unfold sa'. cbn [sa_unregister_super_properties fst snd super_properties this_].
    assert (Harr : array_ (_sa_remove_child (Some k) (super_properties sa)) =
                   filter (fun v => negb (key_is k v)) (array_ (super_properties sa))).
    { unfold _sa_remove_child. rewrite Hs, array_set_array_dict by assumption.
      apply remove_loop_filter. }
    assert (Htag : tag (_sa_remove_child (Some k) (super_properties sa)) = SA_DICT).
    { unfold _sa_remove_child. now rewrite Hs, tag_set_array_. }
    split; [reflexivity|]. split; [reflexivity|]. split; [exact Harr|].
    unfold _sa_get_child. rewrite Htag, Harr, Hs. split.
    + apply get_child_loop_none. intros v Hv. apply filter_In in Hv as [_ Hv].
      now apply negb_true_iff.
    + intros k' Hne. now apply get_child_loop_filter.
  - cbn [sa_clear_super_properties snd super_properties].
    unfold _sa_remove_child. rewrite Hs, array_set_array_dict by assumption.
    apply remove_loop_all.
  - cbn [sa_clear_super_properties snd super_properties].
    unfold _sa_remove_child. now rewrite Hs, tag_set_array_.
Qed.

Lemma key_is_plain (k : string) (v : SANode) :
  strncmp "$time" k 256 <> 0 -> strncmp "$project" k 256 <> 0 ->
  key_is k v = true -> EnvelopeSpec.plain v = true.
Proof.
  intros Ht Hp Hk. unfold EnvelopeSpec.plain. rewrite !keyed_key_is.
  destruct (key_is "$time" v) eqn:E1.
  { exfalso. apply Ht. eapply key_is_transfer; eauto. }
  destruct (key_is "$project" v) eqn:E2; trivial.
  exfalso. apply Hp. eapply key_is_transfer; eauto.
Qed.

Lemma inner_properties_of_track (c : call) (super : SANode) :
  is_profile c = false ->
  inner_properties_of (call_type c) super = add_children (array_ super) library_properties.
Proof. destruct c; try discriminate; reflexivity. Qed.

(** A lookup in the finished [inner_properties]: the caller's property,
    else the super property, else the library's. *)
Lemma inner_properties_lookup (c : call) (super : SANode) :
  EnvelopeSpec.properties_object (call_properties c) ->
  tag super = SA_DICT ->
  distinct_keys (array_ super) = true ->
  let inner :=
    add_children (filter EnvelopeSpec.plain (EnvelopeSpec.supplied (call_properties c)))
      (inner_properties_of (call_type c) super) in
  distinct_keys (array_ inner) = true
  /\ forall k, strncmp "$time" k 256 <> 0 -> strncmp "$project" k 256 <> 0 ->
       EnvelopeSpec.field k inner =
         or_else (supplied_entry k (call_properties c))
           (if is_profile c then None
            else or_else (EnvelopeSpec.field k super)
                   (EnvelopeSpec.field k library_properties)).
Proof.
  intros Hobj Hs Hsd.
  set (sup := EnvelopeSpec.supplied (call_properties c)).
  set (inner0 := inner_properties_of (call_type c) super).
  assert (Hi0 : tag inner0 = SA_DICT) by apply inner_properties_tag.
  assert (Hsup : distinct_keys sup = true).
  { unfold sup. destruct (call_properties c) as [P|]; [|reflexivity]. now apply (Hobj P). }
  assert (Hinner0 : distinct_keys (array_ inner0) = true
                    /\ forall k, EnvelopeSpec.field k inner0 =
                         if is_profile c then None
                         else or_else (EnvelopeSpec.field k super)
                                (EnvelopeSpec.field k library_properties)).
  { unfold inner0. destruct (is_profile c) eqn:Ec.
    - rewrite inner_properties_of_profile by assumption. split; reflexivity.
    - rewrite inner_properties_of_track by assumption. split.
      + now apply add_children_keep_keys_distinct.
      + intros k. unfold EnvelopeSpec.field.
        rewrite get_child_add_children by reflexivity.
        rewrite get_child_loop_rev by assumption.
        unfold _sa_get_child at 2. now rewrite Hs. }
  destruct Hinner0 as [Hd0 Hf0]. cbv zeta. split.
  - apply add_children_keep_keys_distinct; assumption.
  - intros k Ht Hp. unfold EnvelopeSpec.field in *.
    rewrite get_child_add_children by assumption.
    rewrite get_child_loop_rev by now apply distinct_keys_filter.
    rewrite get_child_loop_filter_other by (intros v _; now apply key_is_plain).
    rewrite Hf0. f_equal.
    unfold sup, supplied_entry, EnvelopeSpec.supplied.
    destruct (call_properties c) as [P|] eqn:HP; trivial.
    unfold _sa_get_child. destruct (Hobj P eq_refl) as [HPt _]. now rewrite HPt.
Qed.

(** X3. In the envelope of a call that passes the checks, the children of
    [properties] have pairwise distinct keys, and under a key other than
    [$time] and [$project] it holds the caller's property when the caller
    gave one; otherwise, for [track] and [track_signup], the super property
    registered under the key, and failing that the library's [$lib] or
    [$lib_version]; and nothing else. *)
Theorem caller_properties_take_precedence (c : call) (__file__ __function__ : string)
  (__line__ : Z) (now : timeval) (super : SANode) :
  _sa_check_legality (call_distinct_id c) (call_origin_id c) (call_type c) (call_event c)
    (call_properties c) = SA_OK ->
  EnvelopeSpec.properties_object (call_properties c) ->
  EnvelopeSpec.reserved_typed (call_properties c) ->
  tag super = SA_DICT ->
  distinct_keys (array_ super) = true ->
  exists msg inner,
    call_msg c __file__ __function__ __line__ now super = Next msg
    /\ EnvelopeSpec.field "properties" msg = Some inner
    /\ distinct_keys (array_ inner) = true
    /\ forall k, strncmp "$time" k 256 <> 0 -> strncmp "$project" k 256 <> 0 ->
         EnvelopeSpec.field k inner =
           or_else (supplied_entry k (call_properties c))
             (if is_profile c then None
              else or_else (EnvelopeSpec.field k super)
                     (EnvelopeSpec.field k library_properties)).
Proof.
  intros Hok Hobj Htyped Hs Hsd.
  destruct (call_msg_spec c __file__ __function__ __line__ now super Hok Hobj Htyped)
    as (msg & Hmsg & _ & Hprops & _ & _ & _).
  eexists msg, _. split; [exact Hmsg|]. split; [exact Hprops|].
  exact (inner_properties_lookup c super Hobj Hs Hsd).
Qed.

(* ===================================================================== *)
(** * Further properties of the checks and the envelope *)

Lemma signup_type (c : call) :
  _sa_is_track_signup (call_type c) = true -> exists d o p, c = track_signup d o p.
Proof. destruct c; try discriminate. intros _. eauto. Qed.

Lemma track_type (c : call) :
  _sa_is_track (call_type c) = true ->
  (exists d e p, c = track d e p) \/ (exists d o p, c = track_signup d o p).
Proof. destruct c; try discriminate; intros _; eauto. Qed.

(** X4. The checks accept a call exactly when none of the four conditions
    fails, and answer [SA_INVALID_PARAMETER_ERROR] otherwise: no call is
    rejected for another reason, and the event name [$SignUp] that
    [track_signup] supplies always passes. *)
Theorem checks_reject_nothing_else (c : call) :
  (_sa_check_legality (call_distinct_id c) (call_origin_id c) (call_type c) (call_event c)
     (call_properties c) = SA_OK <-> ~ CheckSpec.validation_fails c)
  /\ (_sa_check_legality (call_distinct_id c) (call_origin_id c) (call_type c) (call_event c)
        (call_properties c) = SA_OK
      \/ _sa_check_legality (call_distinct_id c) (call_origin_id c) (call_type c)
           (call_event c) (call_properties c) = SA_INVALID_PARAMETER_ERROR).
Proof.
  split.
  - split.
    + intros Hok Hf. apply failed_validation_is_rejected in Hf. congruence.
    + intros Hnot.
      destruct (check_legality_spec (call_distinct_id c) (call_origin_id c) (call_type c)
                  (call_event c) (call_properties c))
        as [[H _]|[_ H]]; trivial.
      exfalso. apply Hnot. unfold CheckSpec.validation_fails.
      destruct H as [H|[[Hs H]|[[Ht H]|(P & v & HP & Hv & H)]]].
      * now left.
      * right. left. destruct (signup_type c Hs) as (d & o & p & ->).
        exists d, o, p. auto.
      * destruct (track_type c Ht) as [(d & e & p & ->)|(d & o & p & ->)].
        -- right. right. left. exists d, e, p. auto.
        -- exfalso. apply H. reflexivity.
      * right. right. right. exists P, v. auto.
  - destruct (check_legality_spec (call_distinct_id c) (call_origin_id c) (call_type c)
                (call_event c) (call_properties c)) as [[H _]|[H _]]; auto.
Qed.

(** X5. The envelope of a call that passes the checks names the call and
    its caller: [type] is the type of the call, [distinct_id] the distinct
    id, [original_id] the origin id of a [track_signup] and absent from every
    other envelope, and [lib] a Dict of four Strings: [$lib] is [C],
    [$lib_version] is [0.2.0], [$lib_method] is [code], and [$lib_detail] is
    [##function##file##line] cut to 255 bytes, with the line, an unsigned
    long, printed as the long of the same 64 bits. *)
Theorem envelope_names_the_call (c : call) (__file__ __function__ : string) (__line__ : Z)
  (now : timeval) (super : SANode) :
  _sa_check_legality (call_distinct_id c) (call_origin_id c) (call_type c) (call_event c)
    (call_properties c) = SA_OK ->
  EnvelopeSpec.properties_object (call_properties c) ->
  EnvelopeSpec.reserved_typed (call_properties c) ->
  exists msg lib,
    call_msg c __file__ __function__ __line__ now super = Next msg
    /\ EnvelopeSpec.field "type" msg = Some (mkSANode (Some "type") (string_ (call_type c)))
    /\ EnvelopeSpec.field "distinct_id" msg =
         option_map (fun id => mkSANode (Some "distinct_id") (string_ id)) (call_distinct_id c)
    /\ call_distinct_id c <> None
    /\ EnvelopeSpec.field "original_id" msg =
         option_map (fun o => mkSANode (Some "original_id") (string_ o)) (call_origin_id c)
    /\ EnvelopeSpec.field "lib" msg = Some lib
    /\ key lib = Some "lib"
    /\ tag lib = SA_DICT
    /\ array_ lib =
         [mkSANode (Some "$lib_detail")
            (string_ (prefix_n 255
                        ("##" ++ __function__ ++ "##" ++ __file__ ++ "##"
                           ++ printf_d (int64 __line__))%string));
          mkSANode (Some "$lib_method") (string_ "code");
          mkSANode (Some "$lib_version") (string_ "0.2.0");
          mkSANode (Some "$lib") (string_ "C")].
Proof.
  intros Hok Hobj Htyped.
  destruct (check_legality_spec (call_distinct_id c) (call_origin_id c) (call_type c)
              (call_event c) (call_properties c))
    as [(_ & Hd & Ho & He & _)|[H _]]; [|congruence].
  set (lib := lib_properties_of __file__ __function__ __line__).
  assert (Hlib : key lib = Some "lib"
                 /\ tag lib = SA_DICT
                 /\ array_ lib =
                      [mkSANode (Some "$lib_detail")
                         (string_ (prefix_n 255
                                     ("##" ++ __function__ ++ "##" ++ __file__ ++ "##"
                                        ++ printf_d (int64 __line__))%string));
                       mkSANode (Some "$lib_method") (string_ "code");
                       mkSANode (Some "$lib_version") (string_ "0.2.0");
                       mkSANode (Some "$lib") (string_ "C")]).
  { unfold lib, lib_properties_of. rewrite !unchecked_add_string.
    split; [|split]; reflexivity. }
  assert (Hbase : exists base,
             tag base = SA_DICT
             /\ call_msg c __file__ __function__ __line__ now super =
                  (both <- match call_properties c with
                           | None => Next (base, inner_properties_of (call_type c) super)
                           | Some p =>
                             copy_properties p (array_ p) base
                               (inner_properties_of (call_type c) super)
                           end ;;
                   Next (snd (_sa_add_child (snd both) (fst both))))
             /\ EnvelopeSpec.field "type" base =
                  Some (mkSANode (Some "type") (string_ (call_type c)))
             /\ EnvelopeSpec.field "distinct_id" base =
                  option_map (fun id => mkSANode (Some "distinct_id") (string_ id))
                    (call_distinct_id c)
             /\ EnvelopeSpec.field "original_id" base =
                  option_map (fun o => mkSANode (Some "original_id") (string_ o))
                    (call_origin_id c)
             /\ EnvelopeSpec.field "lib" base = Some lib).
  { unfold call_msg, _sa_track_msg. fold lib.
    destruct Hlib as [Hlk _]. revert Hlk. generalize lib. intros l Hlk.
    assert (Hl : forall k, key_is k l = (strncmp "lib" k 256 =? 0)).
    { intros k. unfold key_is. now rewrite Hlk. }
    destruct (call_distinct_id c) as [id|]; [|contradiction].
    destruct c as [d e p|d o p|d p|d p|d p|d p|d k|d];
      cbn [call_origin_id call_type call_event call_properties is_profile option_map] in *.
    - specialize (He eq_refl). destruct e as [e|]; [|discriminate He].
      run_builders. eexists. split; [|split; [reflexivity|]];
        [now apply add_child_dict_tag|].
      unfold EnvelopeSpec.field.
      rewrite !get_child_add by (repeat apply add_child_dict_tag; reflexivity).
      rewrite !Hl. repeat split.
    - specialize (Ho eq_refl). destruct o as [o|]; [|contradiction].
      run_builders. eexists. split; [|split; [reflexivity|]];
        [now apply add_child_dict_tag|].
      unfold EnvelopeSpec.field.
      rewrite !get_child_add by (repeat apply add_child_dict_tag; reflexivity).
      rewrite !Hl. repeat split.
    - run_builders. eexists. split; [|split; [reflexivity|]];
        [now apply add_child_dict_tag|].
      unfold EnvelopeSpec.field.
      rewrite !get_child_add by (repeat apply add_child_dict_tag; reflexivity).
      rewrite !Hl. repeat split.
    - run_builders. eexists. split; [|split; [reflexivity|]];
        [now apply add_child_dict_tag|].
      unfold EnvelopeSpec.field.
      rewrite !get_child_add by (repeat apply add_child_dict_tag; reflexivity).
      rewrite !Hl. repeat split.
    - run_builders. eexists. split; [|split; [reflexivity|]];
        [now apply add_child_dict_tag|].
      unfold EnvelopeSpec.field.
      rewrite !get_child_add by (repeat apply add_child_dict_tag; reflexivity).
      rewrite !Hl. repeat split.
    - run_builders. eexists. split; [|split; [reflexivity|]];
        [now apply add_child_dict_tag|].
      unfold EnvelopeSpec.field.
      rewrite !get_child_add by (repeat apply add_child_dict_tag; reflexivity).
      rewrite !Hl. repeat split.
    - run_builders. eexists. split; [|split; [reflexivity|]];
        [now apply add_child_dict_tag|].
      unfold EnvelopeSpec.field.
      rewrite !get_child_add by (repeat apply add_child_dict_tag; reflexivity).
      rewrite !Hl. repeat split.
    - run_builders. eexists. split; [|split; [reflexivity|]];
        [now apply add_child_dict_tag|].
      unfold EnvelopeSpec.field.
      rewrite !get_child_add by (repeat apply add_child_dict_tag; reflexivity).
      rewrite !Hl. repeat split. }
  destruct Hbase as (base & Hbt & Heq & Hbtype & Hbid & Hborigin & Hblib).
  destruct Hlib as (Hlk & Hlt & Hla).
  assert (Hfinal : exists msg,
             call_msg c __file__ __function__ __line__ now super = Next msg
             /\ forall k, strncmp "time" k 256 <> 0 -> strncmp "project" k 256 <> 0 ->
                  strncmp "properties" k 256 <> 0 ->
                  EnvelopeSpec.field k msg = EnvelopeSpec.field k base).
  { rewrite Heq. clear Heq.
    set (inner0 := inner_properties_of (call_type c) super).
    assert (Hk0 : key inner0 = Some "properties") by apply inner_properties_key.
    unfold EnvelopeSpec.field in *.
    destruct (call_properties c) as [P|] eqn:HP.
    - destruct (Hobj P eq_refl) as [HPt _].
      destruct (copy_properties_spec P (array_ P) HPt (fun v H => H) Htyped base inner0 Hbt)
        as (msg' & Hcopy & Hmt & _ & _ & Hk).
      rewrite Hcopy. cbn [and_then fst snd].
      eexists. split; [reflexivity|]. intros k H1 H2 H3.
      rewrite get_child_add_other; [now apply Hk|assumption|].
      unfold key_is. rewrite add_children_key, Hk0. now apply Z.eqb_neq.
    - cbn [and_then fst snd]. eexists. split; [reflexivity|]. intros k _ _ H3.
      apply get_child_add_other; trivial.
      unfold key_is. rewrite Hk0. now apply Z.eqb_neq. }
  destruct Hfinal as (msg & Hmsg & Hsame).
  exists msg, lib. split; [exact Hmsg|].
  rewrite !Hsame by discriminate.
  repeat (split; trivial).
  destruct (call_distinct_id c); [discriminate|contradiction].
Qed.

(* ===================================================================== *)
(** * Further properties of the logging consumer *)

Section LoggingConsumerLifeCycle.

Variable World : Type.
Variable FILE : Type.
Variable time : World -> Z.
Variable localtime : Z -> tm.
Variable fopen_append : string -> World -> option FILE * World.
Variable fwrite : string -> FILE -> World -> Z * World.
Variable fflush : FILE -> World -> Z * World.
Variable fclose : FILE -> World -> Z * World.

Local Abbreviation send :=
  (_sa_logging_consumer_send World FILE time localtime fopen_append fwrite fflush fclose).
Local Abbreviation close_ := (_sa_logging_consumer_close World FILE fflush fclose).
Local Abbreviation flush_ := (_sa_logging_consumer_flush World FILE fflush).
Local Abbreviation current_date := (_sa_get_current_date World time localtime).

(** X6. Closing the consumer returns [SA_OK]; it flushes and closes the
    open stream, if any, and leaves the consumer with no stream and the date
    it had.  Closing again touches nothing, a flush then answers
    [SA_IO_ERROR], and a send on the date the consumer still records does not
    open the file again: it hands [fwrite] the NULL stream.  A send on
    another date opens the file of that date and writes to it. *)
Theorem closed_consumer_is_not_reopened_on_its_date (inter : SALoggingConsumerInter FILE)
  (w : World) :
  let inter' := mkInter (file_name inter) (file_name_prefix inter) (date inter) None in
  let w' := match file inter with
            | Some f => snd (fclose f (snd (fflush f w)))
            | None => w
            end in
  close_ (Some inter) w = (SA_OK, Some inter', w')
  /\ (forall w2, close_ (Some inter') w2 = (SA_OK, Some inter', w2))
  /\ (forall w2, flush_ inter' w2 = (SA_IO_ERROR, w2))
  /\ (forall event length w2,
        current_date w2 = date inter -> send (Some inter') (Some event) length w2 = None)
  /\ (forall event length w2,
        current_date w2 <> date inter -> send (Some inter') (Some event) length w2 <> None)
  /\ (forall event length w2 f,
        current_date w2 <> date inter ->
        let name :=
          snprintf 512 (file_name_prefix inter ++ ".log." ++ printf_d (current_date w2))%string in
        fst (fopen_append name w2) = Some f ->
        send (Some inter') (Some event) length w2 =
          Some (SA_OK,
                Some (mkInter name (file_name_prefix inter) (current_date w2) (Some f)),
                snd (fwrite (chr 10) f
                       (snd (fwrite (prefix_n length event) f (snd (fopen_append name w2))))))).
Proof.
  intros inter' w'. split; [|split; [|split; [|split; [|split]]]].
  - unfold _sa_logging_consumer_close, inter', w'. destruct inter as [fn fp d [f|]]; reflexivity.
  - reflexivity.
  - reflexivity.
  - intros event length w2 E. unfold _sa_logging_consumer_send.
    cbn [date file inter']. now rewrite E, Z.eqb_refl.
  - intros event length w2 E. unfold _sa_logging_consumer_send.
    cbn [date file inter']. apply Z.eqb_neq in E. rewrite E. cbn [negb].
    cbn [_sa_logging_consumer_close file inter'].
    destruct (fst (fopen_append _ _)); discriminate.
  - intros event length w2 f E name Hopen. unfold _sa_logging_consumer_send.
    cbn [date file inter']. apply Z.eqb_neq in E. rewrite E. cbn [negb].
    cbn [_sa_logging_consumer_close file file_name_prefix inter' fst snd].
    fold name. rewrite Hopen. reflexivity.
Qed.

(** The date number of a calendar day is never 0, the date a new consumer
    records. *)
Lemma current_date_not_zero (w : World) :
  0 <= tm_mon (localtime (time w)) <= 11 ->
  1 <= tm_mday (localtime (time w)) <= 31 ->
  current_date w <> 0.
Proof. unfold _sa_get_current_date. lia. Qed.

(** X7. [sa_init_logging_consumer] refuses a file name of more than 500
    bytes and accepts every other: the new consumer holds the name as its
    prefix, no stream and the date 0.  Its first send, on any calendar day,
    therefore opens the file named by the prefix, [.log.] and the date
    number, and returns [SA_OK] after writing the event and a newline, or
    [SA_IO_ERROR] when the file does not open. *)
Theorem new_consumer_opens_its_file_on_the_first_send (name event : string) (length : nat)
  (w : World) :
  0 <= tm_mon (localtime (time w)) <= 11 ->
  1 <= tm_mday (localtime (time w)) <= 31 ->
  let file_name := snprintf 512 (name ++ ".log." ++ printf_d (current_date w))%string in
  let opened := fopen_append file_name w in
  (strlen name > 500 -> sa_init_logging_consumer FILE name = (SA_INVALID_PARAMETER_ERROR, None))
  /\ (strlen name <= 500 ->
      sa_init_logging_consumer FILE name = (SA_OK, Some (mkInter EmptyString name 0 None))
      /\ send (snd (sa_init_logging_consumer FILE name)) (Some event) length w =
           match fst opened with
           | Some f =>
             Some (SA_OK, Some (mkInter file_name name (current_date w) (Some f)),
                   snd (fwrite (chr 10) f (snd (fwrite (prefix_n length event) f (snd opened)))))
           | None =>
             Some (SA_IO_ERROR, Some (mkInter file_name name (current_date w) None), snd opened)
           end).
Proof.
  intros Hmon Hday file_name opened.
  pose proof (current_date_not_zero w Hmon Hday) as Hdate.
  unfold sa_init_logging_consumer. split.
  - intros H. apply Z.gt_lt, Z.ltb_lt in H. rewrite Z.gtb_ltb, H. reflexivity.
  - intros H. assert (E : (strlen name >? 500) = false).
    { rewrite Z.gtb_ltb. apply Z.ltb_ge. lia. }
    rewrite E. split; [reflexivity|]. cbn [snd].
    unfold _sa_logging_consumer_send. cbn [date].
    apply Z.eqb_neq in Hdate. rewrite Hdate. cbn [negb].
    cbn [_sa_logging_consumer_close file file_name_prefix]. fold file_name. fold opened.
    destruct (fst opened); reflexivity.
Qed.

End LoggingConsumerLifeCycle.

(* ===================================================================== *)
(** * Properties of the string buffer *)

(** The doubling loop, entered with less room than is asked for. *)
Lemma sb_grow_loop_spec (fuel : nat) :
  forall alloc length need,
    0 < alloc -> alloc < length + need -> length + need < 2 ^ 63 ->
    length + need <= 2 ^ Z.of_nat fuel * alloc ->
    exists k,
      (1 <= k)%nat
      /\ _sa_sb_grow_loop fuel alloc length need = Some (alloc * 2 ^ Z.of_nat k)
      /\ length + need <= alloc * 2 ^ Z.of_nat k < 2 * (length + need).
Proof.
  induction fuel as [|fuel IH]; intros alloc length need Ha Hlt Hmax Hfuel.
  - change (2 ^ Z.of_nat 0) with 1 in Hfuel. lia.
  - cbn [_sa_sb_grow_loop]. unfold size_t.
    rewrite (Z.mod_small (alloc * 2)) by lia.
    rewrite (Z.mod_small (length + need)) by lia.
    destruct (alloc * 2 <? length + need) eqn:E.
    + apply Z.ltb_lt in E.
      destruct (IH (alloc * 2) length need ltac:(lia) E Hmax) as (k & Hk & Heq & Hb).
      { rewrite Nat2Z.inj_succ, Z.pow_succ_r in Hfuel by lia. lia. }
      exists (S k). rewrite Nat2Z.inj_succ, Z.pow_succ_r by lia.
      replace (alloc * (2 * 2 ^ Z.of_nat k)) with (alloc * 2 * 2 ^ Z.of_nat k) by lia.
      split; [lia|]. split; assumption.
    + apply Z.ltb_ge in E. exists 1%nat. change (2 ^ Z.of_nat 1) with 2.
      split; [lia|]. split; [reflexivity|lia].
Qed.

Lemma sb_grow_loop_below (fuel : nat) :
  forall alloc length need,
    _sa_sb_grow_loop fuel alloc length need = None ->
    forall i, (1 <= i <= fuel)%nat -> size_t (alloc * 2 ^ Z.of_nat i) < size_t (length + need).
Proof.
  induction fuel as [|fuel IH]; intros alloc length need H i Hi; [lia|].
  cbn [_sa_sb_grow_loop] in H.
  destruct (size_t (alloc * 2) <? size_t (length + need)) eqn:E; [|discriminate].
  apply Z.ltb_lt in E.
  destruct i as [|[|i]]; [lia|exact E|].
  specialize (IH _ _ _ H (S i) ltac:(lia)).
  replace (alloc * 2 ^ Z.of_nat (S (S i))) with (alloc * 2 * 2 ^ Z.of_nat (S i)).
  - unfold size_t in *. now rewrite <- Z.mul_mod_idemp_l by lia.
  - rewrite (Nat2Z.inj_succ (S i)), Z.pow_succ_r by lia. lia.
Qed.

Lemma sb_grow_loop_forever (fuel : nat) :
  forall alloc length need,
    (forall i, (1 <= i)%nat -> size_t (alloc * 2 ^ Z.of_nat i) < size_t (length + need)) ->
    _sa_sb_grow_loop fuel alloc length need = None.
Proof.
  induction fuel as [|fuel IH]; intros alloc length need H; trivial.
  cbn [_sa_sb_grow_loop].
  pose proof (H 1%nat ltac:(lia)) as H1. change (2 ^ Z.of_nat 1) with 2 in H1.
  apply Z.ltb_lt in H1. rewrite H1. apply IH. intros i Hi.
  specialize (H (S i) ltac:(lia)).
  rewrite Nat2Z.inj_succ, Z.pow_succ_r in H by lia.
  replace (alloc * (2 * 2 ^ Z.of_nat i)) with (alloc * 2 * 2 ^ Z.of_nat i) in H by lia.
  unfold size_t in *. now rewrite Z.mul_mod_idemp_l by lia.
Qed.

(** A loop that 65 rounds do not end is not ended by any number of
    rounds. *)
Lemma sb_grow_loop_never_ends (alloc length need : Z) :
  _sa_sb_grow_loop 65 alloc length need = None ->
  forall fuel, _sa_sb_grow_loop fuel alloc length need = None.
Proof.
  intros H fuel. apply sb_grow_loop_forever. intros i Hi.
  destruct (Nat.le_gt_cases i 65) as [Hle|Hgt].
  - apply (sb_grow_loop_below 65 _ _ _ H). lia.
  - pose proof (sb_grow_loop_below 65 _ _ _ H 64%nat ltac:(lia)) as H64.
    assert (Hz : forall j, (64 <= j)%nat -> size_t (alloc * 2 ^ Z.of_nat j) = 0).
    { intros j Hj. unfold size_t.
      replace (Z.of_nat j) with (Z.of_nat (j - 64) + 64) by lia.
      rewrite Z.pow_add_r, Z.mul_assoc by lia. apply Z.mod_mul. lia. }
    rewrite Hz in H64 by lia. rewrite Hz by lia. exact H64.
Qed.

Lemma sb_need_spec (sb : SAStringBuffer) (need : Z) :
  sb_in_bounds sb -> 0 <= need -> strlen (sb_text sb) + need < 2 ^ 63 ->
  exists alloc,
    _sa_sb_need sb need = Some (mkSAStringBuffer (sb_text sb) alloc)
    /\ strlen (sb_text sb) + need <= alloc
    /\ (exists k : nat, alloc = sb_alloc sb * 2 ^ Z.of_nat k)
    /\ (alloc = sb_alloc sb \/ alloc < 2 * (strlen (sb_text sb) + need)).
Proof.
  intros [Ha Hb] Hn Hmax. unfold _sa_sb_need, _sa_sb_grow.
  destruct (sb_alloc sb <? strlen (sb_text sb) + need) eqn:E.
  - apply Z.ltb_lt in E.
    destruct (sb_grow_loop_spec 65 (sb_alloc sb) (strlen (sb_text sb)) need Ha E Hmax)
      as (k & Hk & Heq & Hle).
    { change (2 ^ Z.of_nat 65) with (2 ^ 65). lia. }
    rewrite Heq. eexists. split; [reflexivity|]. split; [lia|]. split; [eauto|lia].
  - apply Z.ltb_ge in E. exists (sb_alloc sb). destruct sb as [t a]. cbn [sb_text sb_alloc] in *.
    split; [reflexivity|]. split; [lia|]. split; [|now left].
    exists 0%nat. simpl. lia.
Qed.

Lemma prefix_n_length (n : nat) :
  forall s, (n <= String.length s)%nat -> String.length (prefix_n n s) = n.
Proof.
  induction n as [|n IH]; intros [|c s] H; simpl in *; trivial; try lia.
  rewrite IH; lia.
Qed.

Lemma prefix_n_append (a b : string) : prefix_n (String.length a) (a ++ b)%string = a.
Proof. induction a as [|c a IH]; simpl; [now destruct b|now rewrite IH]. Qed.

(** X8. A string buffer whose text lies inside its block keeps it there:
    [_sa_sb_need] leaves the text alone and leaves room for what is asked
    for, by doubling the block as often as that takes and no more;
    [_sa_sb_put] appends the bytes it is given, [_sa_sb_putc] the one byte,
    and the text lies inside the block afterwards, with room for the
    terminator of [_sa_sb_finish].  The lengths are those that fit 63
    bits. *)
Theorem string_buffer_stays_in_bounds (sb : SAStringBuffer) :
  sb_in_bounds sb ->
  (forall need, 0 <= need -> strlen (sb_text sb) + need < 2 ^ 63 ->
     exists sb',
       _sa_sb_need sb need = Some sb'
       /\ sb_text sb' = sb_text sb
       /\ strlen (sb_text sb) + need <= sb_alloc sb'
       /\ (exists k : nat, sb_alloc sb' = sb_alloc sb * 2 ^ Z.of_nat k)
       /\ (sb_alloc sb' = sb_alloc sb \/ sb_alloc sb' < 2 * (strlen (sb_text sb) + need)))
  /\ (forall string_ length,
        (length <= String.length string_ + 1)%nat ->
        strlen (sb_text sb) + Z.of_nat length < 2 ^ 63 ->
        exists sb',
          _sa_sb_put sb string_ length = Some sb'
          /\ sb_text sb' =
               (sb_text sb ++ prefix_n length (string_ ++ String NUL EmptyString))%string
          /\ (length = String.length string_ -> sb_text sb' = (sb_text sb ++ string_)%string)
          /\ sb_in_bounds sb')
  /\ (forall c, strlen (sb_text sb) + 1 < 2 ^ 63 ->
        exists sb',
          _sa_sb_putc sb c = Some sb'
          /\ sb_text sb' = (sb_text sb ++ String c EmptyString)%string
          /\ sb_in_bounds sb')
  /\ snd (_sa_sb_finish sb) <= sb_alloc sb.
Proof.
  intros Hin. pose proof Hin as [Ha Hb]. split; [|split; [|split]].
  - intros need Hn Hmax.
    destruct (sb_need_spec sb need Hin Hn Hmax) as (alloc & Heq & Hle & Hk & Hortho).
    eexists. split; [exact Heq|]. cbn [sb_text sb_alloc]. auto.
  - intros string_ length Hlen Hmax.
    destruct (sb_need_spec sb (Z.of_nat length) Hin ltac:(lia) Hmax)
      as (alloc & Heq & Hle & (k & Hk) & _).
    unfold _sa_sb_put. rewrite Heq.
    replace (String.length string_ + 1 <? length)%nat with false
      by (symmetry; apply Nat.ltb_ge; lia).
    eexists. split; [reflexivity|]. cbn [sb_text sb_alloc]. split; [reflexivity|]. split.
    + intros ->. now rewrite prefix_n_append.
    + unfold sb_in_bounds, strlen in *. cbn [sb_text sb_alloc].
      rewrite append_length, prefix_n_length by (rewrite append_length; simpl; lia).
      split; [|lia]. rewrite Hk. apply Z.mul_pos_pos; [lia|]. apply Z.pow_pos_nonneg; lia.
  - intros c Hmax. unfold _sa_sb_putc.
    destruct (strlen (sb_text sb) >=? sb_alloc sb) eqn:E.
    + rewrite Z.geb_leb in E. apply Z.leb_le in E. unfold _sa_sb_grow.
      destruct (sb_grow_loop_spec 65 (sb_alloc sb) (strlen (sb_text sb)) 1 Ha
                  ltac:(lia) Hmax) as (k & Hk & Heq & Hle).
      { change (2 ^ Z.of_nat 65) with (2 ^ 65). lia. }
      rewrite Heq. eexists. split; [reflexivity|]. cbn [sb_text sb_alloc].
      split; [reflexivity|]. unfold sb_in_bounds, strlen in *. cbn [sb_text sb_alloc].
      rewrite append_length. simpl String.length. lia.
    + rewrite Z.geb_leb in E. apply Z.leb_gt in E.
      eexists. split; [reflexivity|]. cbn [sb_text sb_alloc].
      split; [reflexivity|]. unfold sb_in_bounds, strlen in *. cbn [sb_text sb_alloc].
      rewrite append_length. simpl String.length. lia.
  - exact Hb.
Qed.

(* ===================================================================== *)
(** * Properties of the escapes *)

Lemma land_mask (a : Z) (n : Z) : 0 <= n -> Z.land a (2 ^ n - 1) = a mod 2 ^ n.
Proof.
  intros Hn. rewrite <- Z.land_ones by assumption. f_equal.
  rewrite Z.ones_equiv. lia.
Qed.

Lemma hex_digit_value (d : Z) :
  0 <= d < 16 -> HexSpec.digit_value (char_at "0123456789ABCDEF" d) = Some d.
Proof.
  intros H.
  assert (C : d = 0 \/ d = 1 \/ d = 2 \/ d = 3 \/ d = 4 \/ d = 5 \/ d = 6 \/ d = 7
              \/ d = 8 \/ d = 9 \/ d = 10 \/ d = 11 \/ d = 12 \/ d = 13 \/ d = 14
              \/ d = 15) by lia.
  repeat (destruct C as [C|C]; [subst d; reflexivity|]). subst d; reflexivity.
Qed.

(** X9. [_sa_write_hex16] writes a 16-bit number as exactly four digits of
    [0-9A-F], most significant first: read back in base 16 they give the
    number. *)
Theorem write_hex16_reads_back (val : Z) :
  0 <= val < 2 ^ 16 ->
  String.length (_sa_write_hex16 val) = 4%nat
  /\ HexSpec.value 0 (_sa_write_hex16 val) = Some val.
Proof.
  intros H. split; [reflexivity|].
  unfold _sa_write_hex16, uint16. rewrite (Z.mod_small val) by assumption.
  change 0xF with (2 ^ 4 - 1). rewrite !land_mask, !Z.shiftr_div_pow2 by lia.
  change (2 ^ 4) with 16. change (2 ^ 8) with 256. change (2 ^ 12) with 4096.
  assert (H3 : 0 <= (val / 4096) mod 16 < 16) by (apply Z.mod_pos_bound; lia).
  assert (H2 : 0 <= (val / 256) mod 16 < 16) by (apply Z.mod_pos_bound; lia).
  assert (H1 : 0 <= (val / 16) mod 16 < 16) by (apply Z.mod_pos_bound; lia).
  assert (H0 : 0 <= val mod 16 < 16) by (apply Z.mod_pos_bound; lia).
  cbn [HexSpec.value].
  rewrite (hex_digit_value _ H3), (hex_digit_value _ H2), (hex_digit_value _ H1),
    (hex_digit_value _ H0).
  f_equal. change (2 ^ 16) with 65536 in H. clear H0 H1 H2 H3.
  Z.div_mod_to_equations. lia.
Qed.

Lemma lor_surrogate_base (a : Z) :
  0 <= a < 1024 -> Z.lor a 0xD800 = a + 0xD800 /\ Z.lor a 0xDC00 = a + 0xDC00.
Proof.
  intros H.
  assert (A : forallb (fun n => let a := Z.of_nat n in
                                (Z.lor a 0xD800 =? a + 0xD800)
                                && (Z.lor a 0xDC00 =? a + 0xDC00)) (seq 0 1024) = true)
    by (vm_compute; reflexivity).
  rewrite forallb_forall in A. specialize (A (Z.to_nat a)).
  cbv zeta in A. rewrite Z2Nat.id in A by lia.
  apply andb_true_iff in A; [|apply in_seq; lia].
  now rewrite !Z.eqb_eq in A.
Qed.

(** X10. For a code point beyond the basic plane, U+10000 to U+10FFFF,
    [_sa_to_surrogate_pair] gives a high surrogate in D800..DBFF and a low
    surrogate in DC00..DFFF that together denote the code point: its 20 bits
    above 0x10000 are the ten low bits of the one followed by the ten low
    bits of the other. *)
Theorem surrogate_pair_denotes_the_code_point (unicode : Z) :
  0x10000 <= unicode <= 0x10FFFF ->
  let uc := fst (_sa_to_surrogate_pair unicode) in
  let lc := snd (_sa_to_surrogate_pair unicode) in
  0xD800 <= uc <= 0xDBFF
  /\ 0xDC00 <= lc <= 0xDFFF
  /\ 0x10000 + (uc - 0xD800) * 0x400 + (lc - 0xDC00) = unicode.
Proof.
  intros H uc lc. unfold uc, lc, _sa_to_surrogate_pair, uint32, uint16. cbn [fst snd].
  change (2 ^ 32) with 4294967296. change (2 ^ 16) with 65536.
  rewrite (Z.mod_small (unicode - 65536)) by lia.
  change 0x3FF with (2 ^ 10 - 1). rewrite !land_mask, Z.shiftr_div_pow2 by lia.
  change (2 ^ 10) with 1024.
  assert (Hh : 0 <= ((unicode - 65536) / 1024) mod 1024 < 1024)
    by (apply Z.mod_pos_bound; lia).
  assert (Hl : 0 <= (unicode - 65536) mod 1024 < 1024) by (apply Z.mod_pos_bound; lia).
  rewrite (proj1 (lor_surrogate_base _ Hh)), (proj2 (lor_surrogate_base _ Hl)).
  rewrite !Z.mod_small by lia. clear Hh Hl. Z.div_mod_to_equations. lia.
Qed.

(* ===================================================================== *)
(** * Properties of the UTF-8 validator *)

Lemma byte_range (c : ascii) : 0 <= byte c < 256.
Proof.
  unfold byte. pose proof (N_ascii_bounded c). lia.
Qed.

Lemma byte_octet (b : Z) : 0 <= b < 256 -> byte (Utf8Spec.octet b) = b.
Proof.
  intros H. unfold byte, Utf8Spec.octet. rewrite N_ascii_embedding by lia. lia.
Qed.

Lemma octet_byte (c : ascii) : Utf8Spec.octet (byte c) = c.
Proof. unfold byte, Utf8Spec.octet. now rewrite N2Z.id, ascii_N_embedding. Qed.

Lemma continuation_range (c : ascii) :
  continuation (byte c) = (0x80 <=? byte c) && (byte c <=? 0xBF).
Proof. destruct c as [[] [] [] [] [] [] [] []]; reflexivity. Qed.

Lemma continuation_octet (b : Z) : 0x80 <= b <= 0xBF -> continuation b = true.
Proof.
  intros H. rewrite <- (byte_octet b) at 1 by lia.
  rewrite continuation_range, byte_octet by lia.
  apply andb_true_iff. now rewrite !Z.leb_le.
Qed.

Lemma continuation_peek (s : string) :
  continuation (peek s) = true ->
  exists c r, s = String c r /\ 0x80 <= byte c <= 0xBF.
Proof.
  destruct s as [|c r]; [discriminate|]. cbn [peek].
  rewrite continuation_range, andb_true_iff, !Z.leb_le. eauto.
Qed.

Ltac arith := Z.div_mod_to_equations; lia.

Lemma encode_1 (b0 : Z) :
  0 <= b0 <= 0x7F ->
  Utf8Spec.encode b0 = String (Utf8Spec.octet b0) EmptyString /\ Utf8Spec.scalar b0.
Proof.
  intros H. unfold Utf8Spec.encode, Utf8Spec.scalar.
  replace (b0 <? 0x80) with true by (symmetry; apply Z.ltb_lt; lia).
  split; [reflexivity|lia].
Qed.

Lemma encode_2 (b0 b1 : Z) :
  0xC2 <= b0 <= 0xDF -> 0x80 <= b1 <= 0xBF ->
  let cp := (b0 - 0xC0) * 0x40 + (b1 - 0x80) in
  Utf8Spec.encode cp = String (Utf8Spec.octet b0) (String (Utf8Spec.octet b1) EmptyString)
  /\ Utf8Spec.scalar cp /\ cp <> 0.
Proof.
  intros H0 H1 cp. unfold Utf8Spec.encode, Utf8Spec.scalar.
  assert (Hcp : 0x80 <= cp < 0x800) by (unfold cp; lia).
  replace (cp <? 0x80) with false by (symmetry; apply Z.ltb_ge; lia).
  replace (cp <? 0x800) with true by (symmetry; apply Z.ltb_lt; lia).
  replace (0xC0 + cp / 0x40) with b0 by (unfold cp; arith).
  replace (0x80 + cp mod 0x40) with b1 by (unfold cp; arith).
  split; [reflexivity|lia].
Qed.

Lemma encode_3 (b0 b1 b2 : Z) :
  0xE0 <= b0 <= 0xEF -> 0x80 <= b1 <= 0xBF -> 0x80 <= b2 <= 0xBF ->
  (b0 = 0xE0 -> 0xA0 <= b1) -> (b0 = 0xED -> b1 <= 0x9F) ->
  let cp := (b0 - 0xE0) * 0x1000 + (b1 - 0x80) * 0x40 + (b2 - 0x80) in
  Utf8Spec.encode cp =
    String (Utf8Spec.octet b0)
      (String (Utf8Spec.octet b1) (String (Utf8Spec.octet b2) EmptyString))
  /\ Utf8Spec.scalar cp /\ cp <> 0.
Proof.
  intros H0 H1 H2 Ha Hb cp. unfold Utf8Spec.encode, Utf8Spec.scalar.
  assert (Hcp : 0x800 <= cp < 0x10000) by (unfold cp; lia).
  assert (Hs : ~ (0xD800 <= cp <= 0xDFFF)) by (unfold cp; lia).
  replace (cp <? 0x80) with false by (symmetry; apply Z.ltb_ge; lia).
  replace (cp <? 0x800) with false by (symmetry; apply Z.ltb_ge; lia).
  replace (cp <? 0x10000) with true by (symmetry; apply Z.ltb_lt; lia).
  replace (0xE0 + cp / 0x1000) with b0 by (unfold cp; arith).
  replace (0x80 + (cp / 0x40) mod 0x40) with b1 by (unfold cp; arith).
  replace (0x80 + cp mod 0x40) with b2 by (unfold cp; arith).
  split; [reflexivity|lia].
Qed.

Lemma encode_4 (b0 b1 b2 b3 : Z) :
  0xF0 <= b0 <= 0xF4 -> 0x80 <= b1 <= 0xBF -> 0x80 <= b2 <= 0xBF -> 0x80 <= b3 <= 0xBF ->
  (b0 = 0xF0 -> 0x90 <= b1) -> (b0 = 0xF4 -> b1 <= 0x8F) ->
  let cp := (b0 - 0xF0) * 0x40000 + (b1 - 0x80) * 0x1000 + (b2 - 0x80) * 0x40 + (b3 - 0x80) in
  Utf8Spec.encode cp =
    String (Utf8Spec.octet b0)
      (String (Utf8Spec.octet b1)
         (String (Utf8Spec.octet b2) (String (Utf8Spec.octet b3) EmptyString)))
  /\ Utf8Spec.scalar cp /\ cp <> 0.
Proof.
  intros H0 H1 H2 H3 Ha Hb cp. unfold Utf8Spec.encode, Utf8Spec.scalar.
  assert (Hcp : 0x10000 <= cp <= 0x10FFFF) by (unfold cp; lia).
  replace (cp <? 0x80) with false by (symmetry; apply Z.ltb_ge; lia).
  replace (cp <? 0x800) with false by (symmetry; apply Z.ltb_ge; lia).
  replace (cp <? 0x10000) with false by (symmetry; apply Z.ltb_ge; lia).
  replace (0xF0 + cp / 0x40000) with b0 by (unfold cp; arith).
  replace (0x80 + (cp / 0x1000) mod 0x40) with b1 by (unfold cp; arith).
  replace (0x80 + (cp / 0x40) mod 0x40) with b2 by (unfold cp; arith).
  replace (0x80 + cp mod 0x40) with b3 by (unfold cp; arith).
  split; [reflexivity|lia].
Qed.

(** What the validator accepts is the encoding of a scalar value. *)
Lemma validate_cz_sound (s : string) (n : nat) :
  sa_utf8_validate_cz s = n -> n <> 0%nat -> peek s <> 0 ->
  exists cp,
    Utf8Spec.scalar cp /\ cp <> 0
    /\ s = (Utf8Spec.encode cp ++ advance_n n s)%string
    /\ String.length (Utf8Spec.encode cp) = n.
Proof.
  destruct s as [|c0 r0]; [simpl; congruence|]. intros Hn Hnz Hpeek.
  pose proof (byte_range c0) as R0.
  unfold sa_utf8_validate_cz in Hn. cbn [peek advance] in *.
  destruct (byte c0 <=? 0x7F) eqn:E1.
  { apply Z.leb_le in E1. subst n. exists (byte c0).
    destruct (encode_1 (byte c0) ltac:(lia)) as [He Hs].
    rewrite He, octet_byte. repeat split; trivial; apply Hs. }
  apply Z.leb_gt in E1.
  destruct (byte c0 <=? 0xC1) eqn:E2; [congruence|]. apply Z.leb_gt in E2.
  destruct (byte c0 <=? 0xDF) eqn:E3.
  { apply Z.leb_le in E3.
    destruct (continuation (peek r0)) eqn:C1; cbn [negb] in Hn; [|congruence].
    apply continuation_peek in C1 as (c1 & r1 & -> & Hc1). subst n.
    destruct (encode_2 (byte c0) (byte c1) ltac:(lia) Hc1) as (He & Hs & Hz).
    eexists. rewrite He, !octet_byte. repeat split; trivial; apply Hs. }
  apply Z.leb_gt in E3.
  destruct (byte c0 <=? 0xEF) eqn:E4.
  { apply Z.leb_le in E4.
    destruct ((byte c0 =? 0xE0) && (peek r0 <? 0xA0)) eqn:G1; [congruence|].
    destruct ((byte c0 =? 0xED) && (peek r0 >? 0x9F)) eqn:G2; [congruence|].
    destruct (continuation (peek r0)) eqn:C1; cbn [negb] in Hn; [|congruence].
    apply continuation_peek in C1 as (c1 & r1 & -> & Hc1). cbn [peek advance] in *.
    destruct (continuation (peek r1)) eqn:C2; cbn [negb] in Hn; [|congruence].
    apply continuation_peek in C2 as (c2 & r2 & -> & Hc2). subst n.
    rewrite andb_false_iff, Z.eqb_neq, Z.ltb_ge in G1.
    rewrite Z.gtb_ltb, andb_false_iff, Z.eqb_neq, Z.ltb_ge in G2.
    destruct (encode_3 (byte c0) (byte c1) (byte c2) ltac:(lia) Hc1 Hc2 ltac:(lia) ltac:(lia))
      as (He & Hs & Hz).
    eexists. rewrite He, !octet_byte. repeat split; trivial; apply Hs. }
  apply Z.leb_gt in E4.
  destruct (byte c0 <=? 0xF4) eqn:E5; [|congruence].
  apply Z.leb_le in E5.
  destruct ((byte c0 =? 0xF0) && (peek r0 <? 0x90)) eqn:G1; [congruence|].
  destruct ((byte c0 =? 0xF4) && (peek r0 >? 0x8F)) eqn:G2; [congruence|].
  destruct (continuation (peek r0)) eqn:C1; cbn [negb] in Hn; [|congruence].
  apply continuation_peek in C1 as (c1 & r1 & -> & Hc1). cbn [peek advance] in *.
  destruct (continuation (peek r1)) eqn:C2; cbn [negb] in Hn; [|congruence].
  apply continuation_peek in C2 as (c2 & r2 & -> & Hc2). cbn [peek advance] in *.
  destruct (continuation (peek r2)) eqn:C3; cbn [negb] in Hn; [|congruence].
  apply continuation_peek in C3 as (c3 & r3 & -> & Hc3). subst n.
  rewrite andb_false_iff, Z.eqb_neq, Z.ltb_ge in G1.
  rewrite Z.gtb_ltb, andb_false_iff, Z.eqb_neq, Z.ltb_ge in G2.
  destruct (encode_4 (byte c0) (byte c1) (byte c2) (byte c3) ltac:(lia) Hc1 Hc2 Hc3
              ltac:(lia) ltac:(lia)) as (He & Hs & Hz).
  eexists. rewrite He, !octet_byte. repeat split; trivial; apply Hs.
Qed.

Lemma validate_cz_1 (c0 : ascii) (rest : string) :
  byte c0 <= 0x7F -> sa_utf8_validate_cz (String c0 rest) = 1%nat.
Proof.
  intros H. unfold sa_utf8_validate_cz. cbn [peek].
  apply Z.leb_le in H. now rewrite H.
Qed.

Ltac decide_leb :=
  repeat match goal with
         | |- context [?a <=? ?b] =>
           first [ replace (a <=? b) with true by (symmetry; apply Z.leb_le; lia)
                 | replace (a <=? b) with false by (symmetry; apply Z.leb_gt; lia) ]
         end.

Lemma validate_cz_2 (c0 c1 : ascii) (rest : string) :
  0xC2 <= byte c0 <= 0xDF -> 0x80 <= byte c1 <= 0xBF ->
  sa_utf8_validate_cz (String c0 (String c1 rest)) = 2%nat.
Proof.
  intros H0 H1. unfold sa_utf8_validate_cz. cbn [peek advance].
  rewrite (continuation_octet (byte c1)) by assumption. decide_leb. reflexivity.
Qed.

Lemma validate_cz_3 (c0 c1 c2 : ascii) (rest : string) :
  0xE0 <= byte c0 <= 0xEF -> 0x80 <= byte c1 <= 0xBF -> 0x80 <= byte c2 <= 0xBF ->
  (byte c0 = 0xE0 -> 0xA0 <= byte c1) -> (byte c0 = 0xED -> byte c1 <= 0x9F) ->
  sa_utf8_validate_cz (String c0 (String c1 (String c2 rest))) = 3%nat.
Proof.
  intros H0 H1 H2 Ha Hb. unfold sa_utf8_validate_cz. cbn [peek advance].
  rewrite (continuation_octet (byte c1)), (continuation_octet (byte c2)) by assumption.
  decide_leb.
  replace ((byte c0 =? 0xE0) && (byte c1 <? 0xA0)) with false.
  2:{ symmetry. apply andb_false_iff. rewrite Z.eqb_neq, Z.ltb_ge. lia. }
  replace ((byte c0 =? 0xED) && (byte c1 >? 0x9F)) with false.
  2:{ symmetry. apply andb_false_iff. rewrite Z.gtb_ltb, Z.eqb_neq, Z.ltb_ge. lia. }
  reflexivity.
Qed.

Lemma validate_cz_4 (c0 c1 c2 c3 : ascii) (rest : string) :
  0xF0 <= byte c0 <= 0xF4 -> 0x80 <= byte c1 <= 0xBF -> 0x80 <= byte c2 <= 0xBF ->
  0x80 <= byte c3 <= 0xBF ->
  (byte c0 = 0xF0 -> 0x90 <= byte c1) -> (byte c0 = 0xF4 -> byte c1 <= 0x8F) ->
  sa_utf8_validate_cz (String c0 (String c1 (String c2 (String c3 rest)))) = 4%nat.
Proof.
  intros H0 H1 H2 H3 Ha Hb. unfold sa_utf8_validate_cz. cbn [peek advance].
  rewrite (continuation_octet (byte c1)), (continuation_octet (byte c2)),
    (continuation_octet (byte c3)) by assumption.
  decide_leb.
  replace ((byte c0 =? 0xF0) && (byte c1 <? 0x90)) with false.
  2:{ symmetry. apply andb_false_iff. rewrite Z.eqb_neq, Z.ltb_ge. lia. }
  replace ((byte c0 =? 0xF4) && (byte c1 >? 0x8F)) with false.
  2:{ symmetry. apply andb_false_iff. rewrite Z.gtb_ltb, Z.eqb_neq, Z.ltb_ge. lia. }
  reflexivity.
Qed.

(** The validator accepts the encoding of every scalar value, whatever
    follows it. *)
Lemma validate_cz_complete (cp : Z) (rest : string) :
  Utf8Spec.scalar cp ->
  sa_utf8_validate_cz (Utf8Spec.encode cp ++ rest)%string =
    String.length (Utf8Spec.encode cp).
Proof.
  intros [Hr Hs]. unfold Utf8Spec.encode.
  destruct (cp <? 0x80) eqn:E1.
  { apply Z.ltb_lt in E1. cbn [append String.length].
    apply validate_cz_1. rewrite byte_octet; lia. }
  apply Z.ltb_ge in E1.
  destruct (cp <? 0x800) eqn:E2.
  { apply Z.ltb_lt in E2. cbn [append String.length].
    apply validate_cz_2; rewrite byte_octet; arith. }
  apply Z.ltb_ge in E2.
  destruct (cp <? 0x10000) eqn:E3.
  { apply Z.ltb_lt in E3. cbn [append String.length].
    apply validate_cz_3; rewrite ?byte_octet; arith. }
  apply Z.ltb_ge in E3. cbn [append String.length].
  apply validate_cz_4; rewrite ?byte_octet; arith.
Qed.

Lemma encode_length (cp : Z) : (1 <= String.length (Utf8Spec.encode cp) <= 4)%nat.
Proof.
  unfold Utf8Spec.encode.
  destruct (cp <? 0x80), (cp <? 0x800), (cp <? 0x10000); simpl; lia.
Qed.

Lemma validate_cz_at_most_4 (s : string) : (sa_utf8_validate_cz s <= 4)%nat.
Proof.
  unfold sa_utf8_validate_cz.
  repeat match goal with
         | |- context [if ?b then _ else _] => destruct b
         end; lia.
Qed.

(** X11. [sa_utf8_validate_cz] accepts exactly the UTF-8 encodings of the
    Unicode scalar values, the code points up to U+10FFFF that are no
    surrogates, in their shortest form: on the encoding of a scalar value,
    whatever follows it, it returns the number of its bytes, 1 to 4; and
    where it returns a length other than 0 at a byte other than 0, that many
    bytes are there and encode a scalar value.  It never returns more than
    4. *)
Theorem utf8_character_is_an_encoded_scalar :
  (forall cp rest,
     Utf8Spec.scalar cp ->
     sa_utf8_validate_cz (Utf8Spec.encode cp ++ rest)%string =
       String.length (Utf8Spec.encode cp)
     /\ (1 <= String.length (Utf8Spec.encode cp) <= 4)%nat)
  /\ (forall s,
        peek s <> 0 -> sa_utf8_validate_cz s <> 0%nat ->
        exists cp,
          Utf8Spec.scalar cp /\ cp <> 0
          /\ s = (Utf8Spec.encode cp ++ advance_n (sa_utf8_validate_cz s) s)%string
          /\ String.length (Utf8Spec.encode cp) = sa_utf8_validate_cz s)
  /\ (forall s, (sa_utf8_validate_cz s <= 4)%nat).
Proof.
  split; [|split].
  - intros cp rest H. split; [now apply validate_cz_complete|apply encode_length].
  - intros s Hp Hn. now apply (validate_cz_sound s _ eq_refl).
  - apply validate_cz_at_most_4.
Qed.

Lemma octet_not_nul (b : Z) : 0 < b < 256 -> not_nul (Utf8Spec.octet b) = true.
Proof.
  intros H. unfold not_nul. apply negb_true_iff, Ascii.eqb_neq. intros E.
  apply (f_equal byte) in E. rewrite byte_octet in E by lia. change (byte NUL) with 0 in E. lia.
Qed.

Lemma encode_not_nul (cp : Z) :
  Utf8Spec.scalar cp -> cp <> 0 -> all_chars not_nul (Utf8Spec.encode cp) = true.
Proof.
  intros [Hr Hs] Hz. unfold Utf8Spec.encode.
  destruct (cp <? 0x80) eqn:E1; [|destruct (cp <? 0x800) eqn:E2;
                                  [|destruct (cp <? 0x10000) eqn:E3]];
    rewrite ?Z.ltb_lt, ?Z.ltb_ge in *; cbn [all_chars];
    rewrite !octet_not_nul by arith; reflexivity.
Qed.

Lemma c_str_append (a b : string) :
  all_chars not_nul a = true -> c_str (a ++ b)%string = (a ++ c_str b)%string.
Proof.
  induction a as [|c a IH]; cbn [all_chars append c_str]; trivial.
  intros H. apply andb_true_iff in H as [Hc Ha]. unfold not_nul in Hc.
  apply negb_true_iff in Hc. rewrite Hc. now rewrite IH.
Qed.

Lemma advance_n_append (a b : string) : advance_n (String.length a) (a ++ b)%string = b.
Proof. induction a as [|c a IH]; cbn [String.length advance_n append advance]; trivial. Qed.

Lemma peek_zero_c_str (s : string) : peek s = 0 -> c_str s = EmptyString.
Proof.
  destruct s as [|c r]; trivial. cbn [peek c_str]. intros H.
  apply byte_zero in H. subst. reflexivity.
Qed.

Lemma c_str_empty_peek (s : string) : c_str s = EmptyString -> peek s = 0.
Proof.
  destruct s as [|c r]; trivial. cbn [peek c_str].
  destruct (Ascii.eqb c NUL) eqn:E; [|discriminate].
  apply Ascii.eqb_eq in E. now subst.
Qed.

(** A buffer whose text starts with [a] starts with [a]. *)
Lemma c_str_prefix (a : string) :
  forall s t, c_str s = (a ++ t)%string -> exists rest, s = (a ++ rest)%string /\ c_str rest = t.
Proof.
  induction a as [|x a IH]; intros s t H.
  - exists s. auto.
  - destruct s as [|c r]; [discriminate|]. cbn [c_str append] in H.
    destruct (Ascii.eqb c NUL); [discriminate|]. injection H as -> H.
    destruct (IH r t H) as (rest & -> & Hrest). exists rest. auto.
Qed.

Lemma validate_loop_sound (fuel : nat) :
  forall s, (String.length s < fuel)%nat -> sa_utf8_validate_loop fuel s = true ->
    exists cps, Utf8Spec.text cps /\ c_str s = Utf8Spec.encode_all cps.
Proof.
  induction fuel as [|fuel IH]; intros s Hlen H; [lia|].
  cbn [sa_utf8_validate_loop] in H.
  destruct (peek s =? 0) eqn:E.
  { apply Z.eqb_eq in E. exists []. split; [constructor|]. now apply peek_zero_c_str. }
  apply Z.eqb_neq in E.
  destruct (Nat.eqb (sa_utf8_validate_cz s) 0) eqn:En; [discriminate|].
  apply Nat.eqb_neq in En.
  destruct (validate_cz_sound s _ eq_refl En E) as (cp & Hs & Hz & Heq & Hl).
  pose proof (advance_shorter _ s En E) as Hshort.
  destruct (IH (advance_n (sa_utf8_validate_cz s) s) ltac:(lia) H) as (cps & Ht & Hc).
  exists (cp :: cps). split; [constructor; auto|].
  rewrite Heq at 1. rewrite c_str_append by now apply encode_not_nul.
  cbn [Utf8Spec.encode_all]. now rewrite Hc.
Qed.

Lemma validate_loop_complete (cps : list Z) :
  forall s fuel, Utf8Spec.text cps -> c_str s = Utf8Spec.encode_all cps ->
    sa_utf8_validate_loop fuel s = true.
Proof.
  induction cps as [|cp cps IH]; intros s fuel Ht Hc.
  - destruct fuel as [|fuel]; trivial. cbn [sa_utf8_validate_loop].
    apply c_str_empty_peek in Hc. now rewrite Hc.
  - destruct fuel as [|fuel]; trivial.
    inversion Ht as [|? ? [Hs Hz] Ht']; subst.
    cbn [Utf8Spec.encode_all] in Hc.
    destruct (c_str_prefix _ _ _ Hc) as (rest & -> & Hrest).
    cbn [sa_utf8_validate_loop].
    assert (Hp : peek (Utf8Spec.encode cp ++ rest)%string <> 0).
    { intros Hp. apply peek_zero_c_str in Hp.
      rewrite c_str_append in Hp by now apply encode_not_nul.
      pose proof (encode_length cp) as Hl.
      destruct (Utf8Spec.encode cp); [simpl in Hl; lia|discriminate]. }
    apply Z.eqb_neq in Hp. rewrite Hp.
    rewrite validate_cz_complete by assumption.
    pose proof (encode_length cp) as Hl.
    destruct (Nat.eqb_spec (String.length (Utf8Spec.encode cp)) 0) as [E0|_]; [lia|].
    rewrite advance_n_append. now apply IH.
Qed.

(** X12. [sa_utf8_validate] accepts a buffer exactly when its text, the
    bytes before the first 0, is UTF-8: the encodings, one after the other,
    of Unicode scalar values other than U+0000. *)
Theorem utf8_validate_accepts_exactly_utf8 (s : string) :
  sa_utf8_validate s = true <->
  exists cps, Utf8Spec.text cps /\ c_str s = Utf8Spec.encode_all cps.
Proof.
  unfold sa_utf8_validate. split.
  - apply validate_loop_sound. lia.
  - intros (cps & Ht & Hc). now apply (validate_loop_complete cps).
Qed.

(* ===================================================================== *)
(** * Further properties of the encoder *)

Lemma encode_tail (cp : Z) :
  Utf8Spec.scalar cp ->
  exists c p, Utf8Spec.encode cp = String c p /\ all_chars high p = true.
Proof.
  intros [Hr Hs]. unfold Utf8Spec.encode, high.
  destruct (cp <? 0x80) eqn:E1; [|destruct (cp <? 0x800) eqn:E2;
                                  [|destruct (cp <? 0x10000) eqn:E3]];
    rewrite ?Z.ltb_lt, ?Z.ltb_ge in *; eexists _, _; (split; [reflexivity|]);
    cbn [all_chars]; rewrite ?byte_octet by arith;
    repeat match goal with
           | |- context [?a <=? ?b] =>
             replace (a <=? b) with true by (symmetry; apply Z.leb_le; arith)
           end; reflexivity.
Qed.

Lemma high_bytes (p : string) :
  all_chars high p = true ->
  all_chars not_nul p = true
  /\ forall x,
       no_unicode_escape (p ++ x)%string = no_unicode_escape x
       /\ JsonSpec.escape_all (p ++ x)%string = (p ++ JsonSpec.escape_all x)%string.
Proof.
  unfold no_unicode_escape.
  induction p as [|c p IH]; cbn [all_chars append JsonSpec.escape_all]; [auto|].
  intros H. apply andb_true_iff in H as [Hc Hp]. destruct (IH Hp) as [IH1 IH2].
  unfold high in Hc. apply Z.leb_le in Hc.
  assert (Hn : not_nul c = true).
  { unfold not_nul. apply negb_true_iff, Ascii.eqb_neq. intros ->.
    change (byte NUL) with 0 in Hc. lia. }
  rewrite Hn, IH1. split; [reflexivity|]. intros x. destruct (IH2 x) as [-> ->].
  unfold JsonSpec.needs_unicode_escape, JsonSpec.escape.
  replace (byte c <? 0x1F) with false by (symmetry; apply Z.ltb_ge; lia).
  repeat match goal with
         | |- context [byte c =? ?n] =>
           replace (byte c =? n) with false by (symmetry; apply Z.eqb_neq; lia)
         end.
  split; reflexivity.
Qed.

Lemma no_unicode_escape_cons (c : ascii) (r : string) :
  no_unicode_escape (String c r) =
    negb (JsonSpec.needs_unicode_escape c) && no_unicode_escape r.
Proof. reflexivity. Qed.

Ltac short_escape E IH Hv Hlen :=
  apply Z.eqb_eq in E;
  rewrite validate_cz_1 in Hv by lia; cbn [Nat.eqb advance_n advance] in Hv;
  rewrite IH by (trivial; simpl in Hlen; lia);
  rewrite no_unicode_escape_cons;
  replace (JsonSpec.needs_unicode_escape _) with false
    by (unfold JsonSpec.needs_unicode_escape; rewrite E; reflexivity);
  cbn [negb andb JsonSpec.escape_all];
  match goal with
  | |- context [Some ((_ ++ ?T) ++ _)%string] =>
    replace (JsonSpec.escape _) with T by (unfold JsonSpec.escape; rewrite E; reflexivity)
  end;
  match goal with |- context [if ?x then _ else _] => destruct x end; trivial;
  now rewrite ?append_assoc.

(** The character loop on UTF-8: the text with the two-character escapes in
    place, or no defined result when a byte is sent to the [\u] branch. *)
Lemma dump_string_loop_spec (fuel : nat) :
  forall s b,
    (String.length s < fuel)%nat -> sa_utf8_validate_loop fuel s = true ->
    _sa_dump_string_loop false fuel s b =
      if no_unicode_escape (c_str s)
      then Some (b ++ JsonSpec.escape_all (c_str s))%string
      else None.
Proof.
  induction fuel as [|fuel IH]; intros s b Hlen Hv; [lia|].
  cbn [sa_utf8_validate_loop] in Hv. cbn [_sa_dump_string_loop].
  destruct (peek s =? 0) eqn:E0.
  { apply Z.eqb_eq, peek_zero_c_str in E0. rewrite E0. cbn. now rewrite append_empty_r. }
  destruct s as [|c0 r0]; [discriminate E0|]. cbn [peek advance] in *.
  assert (Hc : c_str (String c0 r0) = String c0 (c_str r0)).
  { cbn [c_str]. destruct (Ascii.eqb c0 NUL) eqn:EN; trivial.
    apply Ascii.eqb_eq in EN; subst. discriminate E0. }
  rewrite Hc. apply Z.eqb_neq in E0.
  destruct (byte c0 =? 34) eqn:E34; [short_escape E34 IH Hv Hlen|].
  destruct (byte c0 =? 92) eqn:E92; [short_escape E92 IH Hv Hlen|].
  destruct (byte c0 =? 8) eqn:E8; [short_escape E8 IH Hv Hlen|].
  destruct (byte c0 =? 12) eqn:E12; [short_escape E12 IH Hv Hlen|].
  destruct (byte c0 =? 10) eqn:E10; [short_escape E10 IH Hv Hlen|].
  destruct (byte c0 =? 13) eqn:E13; [short_escape E13 IH Hv Hlen|].
  destruct (byte c0 =? 9) eqn:E9; [short_escape E9 IH Hv Hlen|].
  set (n := sa_utf8_validate_cz (String c0 r0)) in *.
  destruct (Nat.eqb n 0) eqn:En; [discriminate|]. apply Nat.eqb_neq in En.
  destruct (validate_cz_sound (String c0 r0) n eq_refl En E0) as (cp & Hs & Hz & Heq & Hl).
  pose proof (advance_shorter n (String c0 r0) En E0) as Hshort.
  set (rest := advance_n n (String c0 r0)) in *.
  destruct (encode_tail cp Hs) as (c & p & Hep & Hp).
  rewrite Hep in Heq, Hl. cbn [append] in Heq. injection Heq as <- Hr0.
  destruct (high_bytes p Hp) as [Hnn Hx].
  destruct (Hx (c_str rest)) as [Hx1 Hx2].
  assert (Hcr : c_str r0 = (p ++ c_str rest)%string).
  { rewrite Hr0. now apply c_str_append. }
  assert (Hpre : prefix_n n (String c0 r0) = String c0 p).
  { rewrite Hr0, <- Hl.
    change (String c0 (p ++ rest)%string) with (String c0 p ++ rest)%string.
    apply prefix_n_append. }
  rewrite no_unicode_escape_cons. cbn [JsonSpec.escape_all].
  rewrite Hcr, Hx1, Hx2, Hpre.
  replace (JsonSpec.needs_unicode_escape c0) with (byte c0 <? 0x1F)
    by (unfold JsonSpec.needs_unicode_escape; rewrite E8, E9, E10, E12, E13;
        cbn [orb negb]; now rewrite andb_true_r).
  replace (JsonSpec.escape c0) with (String c0 EmptyString)
    by (unfold JsonSpec.escape; now rewrite E34, E92, E8, E12, E10, E13, E9).
  rewrite andb_false_r, orb_false_r.
  destruct (byte c0 <? 0x1F) eqn:Elow; cbn [negb andb]; trivial.
  rewrite IH by (trivial; lia).
  match goal with |- context [if ?x then _ else _] => destruct x end; trivial.
  f_equal. cbn [append]. now rewrite !append_assoc.
Qed.

(** X13. On a payload that is UTF-8, [_sa_dump_string] returns [SA_OK] and
    appends, between two quotation marks, the text of the payload with a
    two-character escape for the quotation mark, the backslash and the
    characters [\b], [\f], [\n], [\r] and [\t], and every other byte as
    it is, multi-byte characters included: the fallback that writes U+FFFD is
    never taken.  That holds when the text has no other control byte below
    0x1F; such a byte is sent to the [\u] branch, which has no defined
    result.  The byte 0x1F itself is written as it is. *)
Theorem dump_string_writes_the_escaped_text (payload sb : string) :
  sa_utf8_validate payload = true ->
  _sa_dump_string payload sb =
    (if no_unicode_escape (c_str payload)
     then Some (SA_OK, (sb ++ quote ++ JsonSpec.escape_all (c_str payload) ++ quote)%string)
     else None)
  /\ JsonSpec.needs_unicode_escape (ascii_of_nat 31) = false
  /\ JsonSpec.escape (ascii_of_nat 31) = String (ascii_of_nat 31) EmptyString.
Proof.
  intros Hv. split; [|split; reflexivity].
  unfold _sa_dump_string. rewrite Hv. cbn [negb].
  rewrite dump_string_loop_spec by (trivial; lia).
  destruct (no_unicode_escape (c_str payload)); trivial.
  now rewrite !append_assoc.
Qed.

Lemma name_char_verbatim (c : ascii) : NameSpec.name_char c = true -> verbatim c = true.
Proof.
  destruct c as [[] [] [] [] [] [] [] []]; intros H; try reflexivity; discriminate H.
Qed.

Lemma name_start_char (c : ascii) : NameSpec.name_start c = true -> NameSpec.name_char c = true.
Proof. unfold NameSpec.name_char. now intros ->. Qed.

Lemma all_chars_impl (p q : ascii -> bool) (s : string) :
  (forall c, p c = true -> q c = true) -> all_chars p s = true -> all_chars q s = true.
Proof.
  intros Himp. induction s as [|c s IH]; cbn [all_chars]; trivial.
  intros H. apply andb_true_iff in H as [Hc Hs]. now rewrite (Himp c Hc), IH.
Qed.

(** A text of such bytes is its own C string, UTF-8, and its own escaped
    text. *)
Lemma verbatim_text (s : string) :
  all_chars verbatim s = true ->
  c_str s = s
  /\ (forall fuel, sa_utf8_validate_loop fuel s = true)
  /\ no_unicode_escape s = true
  /\ JsonSpec.escape_all s = s.
Proof.
  induction s as [|c s IH]; cbn [all_chars].
  - intros _. repeat split. intros [|fuel]; reflexivity.
  - intros H. apply andb_true_iff in H as [Hc Hs].
    destruct (IH Hs) as (H1 & H2 & H3 & H4).
    unfold verbatim in Hc. rewrite !andb_true_iff, !negb_true_iff, !Z.leb_le, !Z.eqb_neq in Hc.
    destruct Hc as [[[Hlo Hhi] Hq] Hb].
    assert (Hn : Ascii.eqb c NUL = false).
    { apply Ascii.eqb_neq. intros ->. change (byte NUL) with 0 in Hlo. lia. }
    split; [|split; [|split]].
    + cbn [c_str]. now rewrite Hn, H1.
    + intros [|fuel]; trivial. cbn [sa_utf8_validate_loop peek].
      replace (byte c =? 0) with false by (symmetry; apply Z.eqb_neq; lia).
      rewrite validate_cz_1 by assumption. cbn [Nat.eqb advance_n advance]. apply H2.
    + rewrite no_unicode_escape_cons, H3. unfold JsonSpec.needs_unicode_escape.
      replace (byte c <? 0x1F) with false by (symmetry; apply Z.ltb_ge; lia). reflexivity.
    + cbn [JsonSpec.escape_all]. rewrite H4. unfold JsonSpec.escape.
      repeat match goal with
             | |- context [byte c =? ?n] =>
               replace (byte c =? n) with false by (symmetry; apply Z.eqb_neq; lia)
             end.
      reflexivity.
Qed.

(** X14. A name that [_sa_assert_key_name] accepts is made of bytes that
    the string encoder writes as they are: it is UTF-8, and
    [_sa_dump_string] writes it unchanged between two quotation marks.  So
    the key of a checked property, which [_sa_dump_dict] copies into the
    output without escaping, is the JSON string of the name.  The same holds
    of every text of ASCII bytes from 0x1F on without quotation mark and
    backslash. *)
Theorem accepted_names_need_no_escape (k sb : string) :
  _sa_assert_key_name (Some k) = SA_OK ->
  all_chars verbatim k = true
  /\ sa_utf8_validate k = true
  /\ _sa_dump_string k sb = Some (SA_OK, (sb ++ quote ++ k ++ quote)%string)
  /\ (forall payload sb',
        all_chars verbatim payload = true ->
        _sa_dump_string payload sb' = Some (SA_OK, (sb' ++ quote ++ payload ++ quote)%string)).
Proof.
  intros Hok.
  assert (Hgen : forall payload sb',
             all_chars verbatim payload = true ->
             sa_utf8_validate payload = true
             /\ _sa_dump_string payload sb' =
                  Some (SA_OK, (sb' ++ quote ++ payload ++ quote)%string)).
  { intros payload sb' Hv. destruct (verbatim_text payload Hv) as (H1 & H2 & H3 & H4).
    assert (Hval : sa_utf8_validate payload = true) by apply H2.
    split; trivial. unfold _sa_dump_string. rewrite Hval. cbn [negb].
    rewrite dump_string_loop_spec by (trivial; lia).
    rewrite H1, H3, H4. now rewrite !append_assoc. }
  assert (Hk : all_chars verbatim k = true).
  { unfold _sa_assert_key_name in Hok.
    destruct ((checked_len (Some k) <? 1) || (checked_len (Some k) >? 255)); [discriminate|].
    destruct (regexec sa_regex_0 k =? 0); [discriminate|].
    destruct (regexec sa_regex_1 k =? 0) eqn:E; [|discriminate].
    rewrite regexec_name in E. destruct k as [|c rest]; [discriminate|].
    unfold NameSpec.identifier in E. rewrite !andb_true_iff in E.
    destruct E as [[Hc _] Hrest]. cbn [all_chars].
    rewrite (name_char_verbatim c (name_start_char c Hc)).
    exact (all_chars_impl NameSpec.name_char verbatim rest name_char_verbatim Hrest). }
  split; [exact Hk|]. destruct (Hgen k sb Hk) as [H1 H2].
  split; [exact H1|]. split; [exact H2|]. intros payload sb' Hv. now apply Hgen.
Qed.

(** Induction on a node and, for a List or a Dict, on its children. *)
Lemma SANode_nested_ind (P : SANode -> Prop) :
  (forall k u, (forall l, u <> list_ l) -> (forall l, u <> dict_ l) -> P (mkSANode k u)) ->
  (forall k l, Forall P l -> P (mkSANode k (list_ l))) ->
  (forall k l, Forall P l -> P (mkSANode k (dict_ l))) ->
  forall node, P node.
Proof.
  intros Hleaf Hlist Hdict. fix IH 1. intros [k u].
  destruct u as [b|d|i|s us|p|l|l].
  1-5: apply Hleaf; intros l; discriminate.
  - apply Hlist. revert l. fix IHl 1. intros [|x l]; constructor; [apply IH|apply IHl].
  - apply Hdict. revert l. fix IHl 1. intros [|x l]; constructor; [apply IH|apply IHl].
Qed.

(** The character loop only appends. *)
Lemma dump_string_loop_appends (escape_unicode : bool) (fuel : nat) :
  forall s b,
    _sa_dump_string_loop escape_unicode fuel s b =
      match _sa_dump_string_loop escape_unicode fuel s EmptyString with
      | Some t => Some (b ++ t)%string
      | None => None
      end.
Proof.
  induction fuel as [|fuel IH]; intros s b; trivial.
  cbn [_sa_dump_string_loop]. destruct escape_unicode;
  repeat match goal with
         | |- context [if ?c then _ else _] => destruct c
         end;
    try reflexivity;
    try (now rewrite append_empty_r);
    match goal with
    | |- _sa_dump_string_loop ?e _ ?s' (b ++ ?X)%string = _ =>
      rewrite (IH s' (b ++ X)%string), (IH s' (EmptyString ++ X)%string);
      destruct (_sa_dump_string_loop e fuel s' EmptyString); trivial;
      cbn [append]; now rewrite !append_assoc
    end.
Qed.

Lemma dump_string_appends (payload sb : string) :
  _sa_dump_string payload sb =
    match _sa_dump_string payload EmptyString with
    | Some (res, t) => Some (res, (sb ++ t)%string)
    | None => None
    end.
Proof.
  unfold _sa_dump_string. destruct (sa_utf8_validate payload); cbn [negb].
  - rewrite (dump_string_loop_appends false _ payload (sb ++ quote)%string).
    rewrite (dump_string_loop_appends false _ payload (EmptyString ++ quote)%string).
    destruct (_sa_dump_string_loop false _ payload EmptyString); trivial.
    cbn [append]. now rewrite !append_assoc.
  - now rewrite append_empty_r.
Qed.

Ltac append_assoc_norm :=
  repeat (progress (rewrite ?append_assoc; cbn [append])); reflexivity.

Section EncoderStructure.

Variable localtime : Z -> tm.
Variable printf_3f : float -> string.

Local Abbreviation dump := (_sa_dump_node localtime printf_3f).
Local Abbreviation text := (dump_text localtime printf_3f).
Local Abbreviation appends :=
  (fun node : SANode =>
     forall sb, dump node sb =
                match text node with
                | Some t => Some (SA_OK, (sb ++ t)%string)
                | None => None
                end).

Lemma dump_list_loop_spec (l : list SANode) :
  Forall appends l ->
  forall sb,
    _sa_dump_list_loop dump l sb =
      match JsonSpec.sequence (map text l) with
      | Some ts => Some (sb ++ JsonSpec.join ts)%string
      | None => None
      end.
Proof.
  induction l as [|v next IH]; intros HF sb.
  - cbn. now rewrite append_empty_r.
  - inversion HF as [|? ? Hv Hnext]; subst. specialize (IH Hnext).
    cbn [_sa_dump_list_loop map JsonSpec.sequence]. rewrite (Hv sb).
    destruct (text v) as [t|]; [|reflexivity].
    destruct next as [|v' next'].
    + cbn. reflexivity.
    + rewrite IH. destruct (JsonSpec.sequence (map text (v' :: next'))) as [ts|] eqn:E;
        [|reflexivity].
      destruct ts as [|t' ts'].
      { cbn [map JsonSpec.sequence] in E.
        destruct (text v'), (JsonSpec.sequence (map text next')); discriminate E. }
      cbn [JsonSpec.join]. f_equal. append_assoc_norm.
Qed.

Lemma dump_dict_loop_spec (l : list SANode) :
  Forall appends l ->
  forall sb,
    _sa_dump_dict_loop dump l sb =
      match JsonSpec.sequence (map (fun v => JsonSpec.member (key v) (text v)) l) with
      | Some ts => Some (sb ++ JsonSpec.join ts)%string
      | None => None
      end.
Proof.
  induction l as [|v next IH]; intros HF sb.
  - cbn. now rewrite append_empty_r.
  - inversion HF as [|? ? Hv Hnext]; subst. specialize (IH Hnext).
    cbn [_sa_dump_dict_loop map JsonSpec.sequence].
    destruct (key v) as [k|]; [|reflexivity]. rewrite (Hv _).
    destruct (text v) as [t|]; [|reflexivity]. cbn [JsonSpec.member].
    destruct next as [|v' next'].
    + cbn [_sa_dump_dict_loop map JsonSpec.sequence JsonSpec.join]. f_equal.
      append_assoc_norm.
    + rewrite IH.
      destruct (JsonSpec.sequence
                  (map (fun v => JsonSpec.member (key v) (text v)) (v' :: next')))
        as [ts|] eqn:E; [|reflexivity].
      destruct ts as [|t' ts'].
      { cbn [map JsonSpec.sequence] in E.
        destruct (JsonSpec.member (key v') (text v')),
          (JsonSpec.sequence (map (fun v => JsonSpec.member (key v) (text v)) next'));
          discriminate E. }
      cbn [JsonSpec.join]. f_equal. append_assoc_norm.
Qed.

Lemma dump_node_appends (node : SANode) : appends node.
Proof.
  induction node as [k u Hl Hd|k l IH|k l IH] using SANode_nested_ind; intros sb.
  - unfold dump_text. destruct u as [b|d|i|s us|p|l|l];
      try (now specialize (Hl l)); try (now specialize (Hd l)); try reflexivity.
    cbn [_sa_dump_node]. rewrite (dump_string_appends p sb).
    destruct (_sa_dump_string p EmptyString) as [[res t]|]; reflexivity.
  - unfold dump_text. cbn [_sa_dump_node].
    rewrite !(dump_list_loop_spec l IH).
    destruct (JsonSpec.sequence (map text l)); trivial.
    do 2 f_equal. append_assoc_norm.
  - unfold dump_text. cbn [_sa_dump_node].
    rewrite !(dump_dict_loop_spec l IH).
    destruct (JsonSpec.sequence _); trivial.
    do 2 f_equal. append_assoc_norm.
Qed.

Lemma all_append (l : list SANode) : Forall appends l.
Proof. apply Forall_forall. intros v _. apply dump_node_appends. Qed.

(** The text of a node does not depend on the buffer, and the texts of a
    List and of a Dict are made of the texts of their children. *)
Lemma encoder_structure_lemma :
  (forall node sb,
     dump node sb =
       match text node with
       | Some t => Some (SA_OK, (sb ++ t)%string)
       | None => None
       end)
  /\ (forall k l, text (mkSANode k (list_ l)) = JsonSpec.array (map text l))
  /\ (forall k l,
        text (mkSANode k (dict_ l)) =
          JsonSpec.object (map (fun v => JsonSpec.member (key v) (text v)) l)).
Proof.
  split; [apply dump_node_appends|]. split.
  - intros k l. unfold JsonSpec.array. unfold dump_text at 1. cbn [_sa_dump_node].
    rewrite (dump_list_loop_spec l (all_append l)).
    destruct (JsonSpec.sequence (map text l)); reflexivity.
  - intros k l. unfold JsonSpec.object. unfold dump_text at 1. cbn [_sa_dump_node].
    rewrite (dump_dict_loop_spec l (all_append l)).
    destruct (JsonSpec.sequence _); reflexivity.
Qed.

(** X15. The encoder only appends: what [_sa_dump_node] adds to the buffer
    for a node is the same text whatever the buffer holds, and its status is
    [SA_OK].  The text of a List is the texts of its children between
    brackets, and the text of a Dict, between braces, the children each as
    its key between quotation marks, a colon and its text; the children
    come in the order of the list, separated by commas.  A Bool is [true] or
    [false], an Int its decimal digits, a String what [_sa_dump_string]
    writes.  A child without a text, or without a key in a Dict, leaves the
    whole without one; [_sa_dump_list] and [_sa_dump_dict] are [_sa_dump_node]
    on a List and on a Dict. *)
Theorem encoder_appends_the_json_text (node : SANode) :
  (forall sb,
     dump node sb =
       match text node with
       | Some t => Some (SA_OK, (sb ++ t)%string)
       | None => None
       end)
  /\ (forall k l, text (mkSANode k (list_ l)) = JsonSpec.array (map text l))
  /\ (forall k l,
        text (mkSANode k (dict_ l)) =
          JsonSpec.object (map (fun v => JsonSpec.member (key v) (text v)) l))
  /\ (forall k b, text (mkSANode k (bool_ b)) = Some (if b =? 0 then "false" else "true"))
  /\ (forall k i, text (mkSANode k (int_ i)) = Some (snprintf 64 (printf_d i)))
  /\ (forall k payload,
        text (mkSANode k (string_ payload)) =
          match _sa_dump_string payload EmptyString with
          | Some (_, t) => Some t
          | None => None
          end)
  /\ (forall k l sb,
        _sa_dump_list localtime printf_3f (mkSANode k (list_ l)) sb =
          dump (mkSANode k (list_ l)) sb)
  /\ (forall k l sb,
        _sa_dump_dict localtime printf_3f (mkSANode k (dict_ l)) sb =
          dump (mkSANode k (dict_ l)) sb).
Proof.
  destruct encoder_structure_lemma as (Happ & Hlist & Hdict).
  split; [apply Happ|].
  split; [exact Hlist|]. split; [exact Hdict|].
  split; [|split; [|split; [|split]]]; try reflexivity.
  - intros k payload. unfold dump_text. cbn [_sa_dump_node].
    destruct (_sa_dump_string payload EmptyString) as [[res t]|]; reflexivity.
Qed.

End EncoderStructure.

(* ===================================================================== *)
(** * Further properties of the value tree *)

Lemma c_str_no_nul (s : string) : all_chars not_nul s = true -> c_str s = s.
Proof.
  intros H. rewrite <- (append_empty_r s) at 1.
  rewrite c_str_append by assumption. apply append_empty_r.
Qed.

Lemma prefix_n_min (n : nat) :
  forall s, String.length (prefix_n n s) = Nat.min n (String.length s).
Proof. induction n as [|n IH]; intros [|c s]; simpl; trivial. now rewrite IH. Qed.

Lemma prefix_n_eq_short (n : nat) (a b : string) :
  (String.length b < n)%nat -> prefix_n n a = prefix_n n b -> a = b.
Proof.
  intros Hb H. pose proof (f_equal String.length H) as Hl.
  rewrite !prefix_n_min in Hl.
  rewrite (prefix_n_all n b) in H by lia. rewrite (prefix_n_all n a) in H by lia.
  exact H.
Qed.

(** X16. The keys of a Dict are compared on their first 256 bytes.  For
    keys of which one is at most 255 bytes long, as every name the checks
    accept is, a child is named by a key exactly when the key is its own:
    lookup and replacement go by the whole name.  Two keys that share their
    first 256 bytes name the same child, so adding a child under the one
    replaces the child under the other, and a lookup under the other finds
    it. *)
Theorem keys_are_compared_on_256_bytes :
  (forall k v,
     key_is k v = true <->
     exists vk, key v = Some vk /\ prefix_n 256 (c_str vk) = prefix_n 256 (c_str k))
  /\ (forall k vk u,
        all_chars not_nul k = true -> all_chars not_nul vk = true ->
        (String.length k <= 255)%nat \/ (String.length vk <= 255)%nat ->
        (key_is k (mkSANode (Some vk) u) = true <-> vk = k))
  /\ (forall a t1 t2 u d,
        String.length a = 256%nat -> all_chars not_nul a = true -> tag d = SA_DICT ->
        let child := mkSANode (Some (a ++ t1)%string) u in
        _sa_get_child (Some (a ++ t2)%string) (snd (_sa_add_child child d)) = Some child
        /\ forall v, In v (array_ (snd (_sa_add_child child d))) ->
             v = child \/ key_is (a ++ t2)%string v = false).
Proof.
  split; [|split].
  - intros k v. unfold key_is. destruct (key v) as [vk|].
    + rewrite Z.eqb_eq, strncmp_zero_iff. split; [eauto|]. now intros (vk' & [= <-] & H).
    + split; [discriminate|]. now intros (vk' & H & _).
  - intros k vk u Hk Hvk Hlen. unfold key_is. cbn [key].
    rewrite Z.eqb_eq, strncmp_zero_iff, !c_str_no_nul by assumption. split.
    + intros H. destruct Hlen as [Hlen|Hlen].
      * apply (prefix_n_eq_short 256); [lia|assumption].
      * symmetry. apply (prefix_n_eq_short 256); [lia|now symmetry].
    + now intros ->.
  - intros a t1 t2 u d Ha Hnn Hd child.
    assert (Hsame : forall t t', strncmp (a ++ t)%string (a ++ t')%string 256 = 0).
    { intros t t'. apply strncmp_zero_iff.
      rewrite !c_str_append by assumption. rewrite <- Ha.
      now rewrite !prefix_n_append. }
    assert (Hchild : key_is (a ++ t2)%string child = true).
    { unfold key_is, child. cbn [key]. apply Z.eqb_eq, Hsame. }
    split; [now apply get_child_add_same|].
    intros v Hv. rewrite (add_child_dict child d (a ++ t1)%string Hd eq_refl) in Hv.
    cbn [snd] in Hv. rewrite array_set_array_dict in Hv by assumption.
    destruct Hv as [<-|Hv]; [now left|]. right.
    apply filter_In in Hv as [_ Hv]. apply negb_true_iff in Hv.
    unfold key_is in *. destruct (key v) as [vk|]; trivial.
    apply Z.eqb_neq in Hv. apply Z.eqb_neq. intros E. apply Hv.
    rewrite strncmp_zero_iff in *. rewrite E.
    apply strncmp_zero_iff, Hsame.
Qed.

(* ===================================================================== *)
(** * Properties of [sa_append_list] *)

Lemma update_child_keys (k : string) (f : SANode -> SANode) (l : list SANode) :
  (forall v, key (f v) = key v) -> map key (update_child k f l) = map key l.
Proof.
  intros Hf. induction l as [|v l IH]; cbn [update_child map]; trivial.
  destruct (key_is k v); cbn [map]; now rewrite ?Hf, ?IH.
Qed.

Lemma key_is_by_key (k : string) (v w : SANode) : key v = key w -> key_is k v = key_is k w.
Proof. unfold key_is. now intros ->. Qed.

Lemma distinct_keys_by_keys (l1 : list SANode) :
  forall l2, map key l1 = map key l2 -> distinct_keys l1 = distinct_keys l2.
Proof.
  induction l1 as [|v l1 IH]; intros [|w l2] H; try discriminate; trivial.
  cbn [map] in H. injection H as Hk Hl. cbn [distinct_keys]. rewrite <- Hk.
  destruct (key v) as [k|]; trivial. rewrite (IH l2 Hl). f_equal.
  clear IH. revert l2 Hl. induction l1 as [|x l1 IH]; intros [|y l2] Hl; try discriminate; trivial.
  cbn [map] in Hl. injection Hl as Hx Hl. cbn [forallb].
  now rewrite (key_is_by_key k x y Hx), (IH l2 Hl).
Qed.

Lemma get_child_loop_update_same (k : string) (f : SANode -> SANode) (l : list SANode) :
  (forall v, key (f v) = key v) ->
  _sa_get_child_loop k (update_child k f l) = option_map f (_sa_get_child_loop k l).
Proof.
  intros Hf. induction l as [|v l IH]; cbn [update_child _sa_get_child_loop]; trivial.
  destruct (key_is k v) eqn:E; cbn [_sa_get_child_loop].
  - now rewrite (key_is_by_key k (f v) v (Hf v)), E.
  - now rewrite E.
Qed.

Lemma get_child_loop_update_other (k k' : string) (f : SANode -> SANode) (l : list SANode) :
  (forall v, key (f v) = key v) -> strncmp k k' 256 <> 0 ->
  _sa_get_child_loop k' (update_child k f l) = _sa_get_child_loop k' l.
Proof.
  intros Hf Hne. induction l as [|v l IH]; cbn [update_child _sa_get_child_loop]; trivial.
  destruct (key_is k v) eqn:E; cbn [_sa_get_child_loop].
  - rewrite (key_is_by_key k' (f v) v (Hf v)).
    destruct (key_is k' v) eqn:E'; trivial.
    exfalso. apply Hne. eapply key_is_transfer; eauto.
  - now rewrite IH.
Qed.

Lemma update_child_same (k : string) (f : SANode -> SANode) (l : list SANode) :
  (forall v, _sa_get_child_loop k l = Some v -> f v = v) -> update_child k f l = l.
Proof.
  induction l as [|v l IH]; cbn [update_child _sa_get_child_loop]; trivial.
  destruct (key_is k v); intros H.
  - now rewrite H.
  - now rewrite IH.
Qed.

Lemma update_child_length (k : string) (f : SANode -> SANode) (l : list SANode) :
  List.length (update_child k f l) = List.length l.
Proof.
  induction l as [|v l IH]; cbn [update_child]; trivial.
  destruct (key_is k v); cbn [List.length]; now rewrite ?IH.
Qed.

Lemma set_array_same (p : SANode) : tag p = SA_DICT -> set_array_ p (array_ p) = p.
Proof. destruct p as [k []]; try discriminate; reflexivity. Qed.

(** What a call of [sa_append_list] on a Dict does under a key. *)
Lemma append_list_spec (k string_ : string) (length : nat) (p : SANode) :
  tag p = SA_DICT ->
  distinct_keys (array_ p) = true ->
  let str := element (prefix_n length string_) in
  exists p',
    sa_append_list (Some k) string_ length (Some p) = (SA_OK, Some p')
    /\ tag p' = SA_DICT
    /\ key p' = key p
    /\ distinct_keys (array_ p') = true
    /\ (forall k', strncmp k k' 256 <> 0 ->
          _sa_get_child (Some k') p' = _sa_get_child (Some k') p)
    /\ match _sa_get_child (Some k) p with
       | None =>
         array_ p' = mkSANode (Some k) (list_ [str]) :: array_ p
         /\ _sa_get_child (Some k) p' = Some (mkSANode (Some k) (list_ [str]))
       | Some (mkSANode vk (list_ l)) =>
         _sa_get_child (Some k) p' = Some (mkSANode vk (list_ (str :: l)))
         /\ List.length (array_ p') = List.length (array_ p)
       | Some _ => p' = p
       end.
Proof.
  intros Hp Hd str. unfold sa_append_list.
  fold (element (prefix_n length string_)). unfold _sa_init_string_node.
  fold (element (prefix_n length string_)). fold str.
  set (f := fun list : SANode => snd (_sa_add_child str list)).
  assert (Hf : forall v, key (f v) = key v) by (intros v; apply add_child_key).
  destruct (_sa_get_child (Some k) p) as [found|] eqn:Eg.
  - eexists. split; [reflexivity|].
    assert (Hfound : _sa_get_child_loop k (array_ p) = Some found).
    { unfold _sa_get_child in Eg. now rewrite Hp in Eg. }
    split; [now rewrite tag_set_array_|]. split; [now rewrite key_set_array_|].
    rewrite array_set_array_dict by assumption.
    split.
    { rewrite (distinct_keys_by_keys _ (array_ p)); trivial. now apply update_child_keys. }
    split.
    { intros k' Hne. unfold _sa_get_child. rewrite tag_set_array_, Hp.
      rewrite array_set_array_dict by assumption.
      now apply get_child_loop_update_other. }
    destruct found as [vk u].
    assert (Hlist : forall l, u = list_ l ->
               _sa_get_child (Some k)
                 (set_array_ p (update_child k f (array_ p))) =
                 Some (mkSANode vk (list_ (str :: l)))
               /\ List.length (update_child k f (array_ p)) = List.length (array_ p)).
    { intros l ->. split; [|apply update_child_length].
      unfold _sa_get_child. rewrite tag_set_array_, Hp.
      rewrite array_set_array_dict by assumption.
      rewrite get_child_loop_update_same, Hfound by assumption. reflexivity. }
    assert (Hother : (forall l, u <> list_ l) ->
               set_array_ p (update_child k f (array_ p)) = p).
    { intros Hu. rewrite update_child_same; [now apply set_array_same|].
      intros v Hv. rewrite Hfound in Hv. injection Hv as <-.
      destruct u as [b|x|i|s us|t|l|l]; try reflexivity. now specialize (Hu l). }
    destruct u as [b|x|i|s us|t|l|l]; try (apply Hother; intros l'; discriminate).
    now apply Hlist.
  - cbn [_sa_init_list_node _sa_add_child tag union key set_array_ array_ snd].
    set (new := mkSANode (Some k) (list_ [str])).
    assert (Hnone : forall v, In v (array_ p) -> key_is k v = false).
    { apply get_child_loop_none. unfold _sa_get_child in Eg. now rewrite Hp in Eg. }
    assert (Harr : array_ (snd (_sa_add_child new p)) = new :: array_ p).
    { rewrite (add_child_dict new p k Hp eq_refl). cbn [snd].
      rewrite array_set_array_dict by assumption. f_equal.
      apply filter_all_true, forallb_forall. intros v Hv. now rewrite (Hnone v Hv). }
    eexists. split; [reflexivity|].
    split; [now apply add_child_dict_tag|]. split; [apply add_child_key|].
    split; [now apply add_child_keeps_keys_distinct|]. split.
    { intros k' Hne. apply get_child_add_other; trivial.
      unfold key_is, new. cbn [key]. now apply Z.eqb_neq. }
    split; [exact Harr|].
    apply get_child_add_same; trivial. unfold key_is, new. cbn [key].
    now rewrite strncmp_refl.
Qed.

(** X17. [sa_append_list] on a properties object returns [SA_OK] and
    keeps it a Dict with distinct keys.  Under a key that names no child it
    puts a new List with the string as its only element, in front of the
    other children; under a key that names a List it puts the string in
    front of the elements of that List, which stays where it is; under a key
    that names a child of another type it changes nothing and still returns
    [SA_OK].  A lookup under a key that differs within 256 bytes finds what
    it found before.  With a NULL key nothing is changed, and without
    properties the call returns [SA_INVALID_PARAMETER_ERROR]. *)
Theorem append_list_puts_the_string_in_front (k string_ : string) (length : nat)
  (p : SANode) :
  tag p = SA_DICT ->
  distinct_keys (array_ p) = true ->
  let str := element (prefix_n length string_) in
  (exists p',
     sa_append_list (Some k) string_ length (Some p) = (SA_OK, Some p')
     /\ tag p' = SA_DICT
     /\ key p' = key p
     /\ distinct_keys (array_ p') = true
     /\ (forall k', strncmp k k' 256 <> 0 ->
           _sa_get_child (Some k') p' = _sa_get_child (Some k') p)
     /\ match _sa_get_child (Some k) p with
        | None =>
          array_ p' = mkSANode (Some k) (list_ [str]) :: array_ p
          /\ _sa_get_child (Some k) p' = Some (mkSANode (Some k) (list_ [str]))
        | Some (mkSANode vk (list_ l)) =>
          _sa_get_child (Some k) p' = Some (mkSANode vk (list_ (str :: l)))
          /\ List.length (array_ p') = List.length (array_ p)
        | Some _ => p' = p
        end)
  /\ sa_append_list None string_ length (Some p) = (SA_OK, Some p)
  /\ sa_append_list (Some k) string_ length None = (SA_INVALID_PARAMETER_ERROR, None).
Proof.
  intros Hp Hd str. split; [now apply append_list_spec|]. split; [|reflexivity].
  unfold sa_append_list, _sa_get_child. rewrite Hp.
  unfold _sa_add_child at 1. rewrite Hp. reflexivity.
Qed.

(** X18. Strings appended one after the other under a key that named no
    child end up in one List under that key, the string of the latest call
    first; the other keys of the properties object find what they found
    before. *)
Theorem appended_strings_are_listed_latest_first (k : string) (ss : list string)
  (p : SANode) :
  tag p = SA_DICT ->
  distinct_keys (array_ p) = true ->
  _sa_get_child (Some k) p = None ->
  ss <> [] ->
  exists p',
    append_each k ss (Some p) = Some p'
    /\ tag p' = SA_DICT
    /\ distinct_keys (array_ p') = true
    /\ _sa_get_child (Some k) p' = Some (mkSANode (Some k) (list_ (rev (map element ss))))
    /\ (forall k', strncmp k k' 256 <> 0 ->
          _sa_get_child (Some k') p' = _sa_get_child (Some k') p).
Proof.
  intros Hp Hd Hnone Hss.
  assert (Hgrow : forall ss q vk l,
             tag q = SA_DICT -> distinct_keys (array_ q) = true ->
             _sa_get_child (Some k) q = Some (mkSANode vk (list_ l)) ->
             exists q',
               append_each k ss (Some q) = Some q'
               /\ tag q' = SA_DICT
               /\ distinct_keys (array_ q') = true
               /\ _sa_get_child (Some k) q' =
                    Some (mkSANode vk (list_ (rev (map element ss) ++ l)))
               /\ (forall k', strncmp k k' 256 <> 0 ->
                     _sa_get_child (Some k') q' = _sa_get_child (Some k') q)).
  { clear. induction ss as [|s ss IH]; intros q vk l Hq Hd Hg.
    - exists q. cbn. auto.
    - destruct (append_list_spec k s (len s) q Hq Hd)
        as (q1 & Heq & Hq1 & _ & Hd1 & Hother1 & Hcase).
      rewrite Hg, prefix_n_len in Hcase. destruct Hcase as [Hg1 _].
      destruct (IH q1 vk (element s :: l) Hq1 Hd1 Hg1) as (q' & Hrun & Hq' & Hd' & Hg' & Ho').
      exists q'. unfold append_each in *. cbn [fold_left]. rewrite Heq. cbn [snd].
      split; [exact Hrun|]. split; [exact Hq'|]. split; [exact Hd'|]. split.
      + rewrite Hg'. cbn [map rev]. now rewrite <- app_assoc.
      + intros k' Hne. now rewrite Ho', Hother1. }
  destruct ss as [|s ss]; [contradiction|].
  destruct (append_list_spec k s (len s) p Hp Hd)
    as (p1 & Heq & Hp1 & _ & Hd1 & Hother1 & Hcase).
  rewrite Hnone, prefix_n_len in Hcase. destruct Hcase as [_ Hg1].
  destruct (Hgrow ss p1 (Some k) [element s] Hp1 Hd1 Hg1) as (p' & Hrun & Hp' & Hd' & Hg' & Ho').
  exists p'. unfold append_each in *. cbn [fold_left]. rewrite Heq. cbn [snd].
  split; [exact Hrun|]. split; [exact Hp'|]. split; [exact Hd'|]. split.
  - rewrite Hg'. reflexivity.
  - intros k' Hne. now rewrite Ho', Hother1.
Qed.

(* ===================================================================== *)
(** * Properties of the session *)

Section SessionProperties.

Variable localtime : Z -> tm.
Variable printf_3f : float -> string.
Variable T : Type.
Variable op : SAConsumerOp T.

Local Abbreviation run_ := (run localtime printf_3f T op).
Local Abbreviation step_ := (session_step localtime printf_3f T op).
Local Abbreviation run_all := (session_run localtime printf_3f T op).

Lemma track_internal_keeps_super (d o : option string) (ty : string) (e : option string)
  (p : option SANode) (__file__ __function__ : string) (__line__ : Z) (now : timeval)
  (sa sa' : SensorsAnalytics T) (res : SAErrCode) :
  _sa_track_internal localtime printf_3f T op d o ty e p __file__ __function__ __line__ now sa
    = Some (res, sa') ->
  super_properties sa' = super_properties sa.
Proof.
  unfold _sa_track_internal.
  destruct (_sa_check_legality d o ty e p); try (now intros [= _ <-]).
  destruct (_sa_track_msg _ _ _ _ _ _ _ _ _ _) as [msg|r|]; try discriminate;
    try (now intros [= _ <-]).
  destruct (_sa_dump_node _ _ _ _) as [[r text]|]; [|discriminate].
  destruct (send op (this_ sa) text) as [[r' this']|]; [|discriminate].
  now intros [= _ <-].
Qed.

Lemma run_keeps_super (c : call) (__file__ __function__ : string) (__line__ : Z)
  (now : timeval) (sa sa' : SensorsAnalytics T) (res : SAErrCode) :
  run_ c __file__ __function__ __line__ now sa = Some (res, sa') ->
  super_properties sa' = super_properties sa.
Proof.
  destruct c as [d e p|d o p|d [p|]|d [p|]|d [p|]|d [p|]|d k|d];
    unfold run, _sa_track, _sa_track_signup, _sa_profile_set, _sa_profile_set_once,
      _sa_profile_increment, _sa_profile_append, _sa_profile_unset, _sa_profile_delete;
    try (now intros [= _ <-]); apply track_internal_keeps_super.
Qed.

(** One call keeps the store a properties object. *)
Lemma session_step_keeps_the_store (sa sa' : SensorsAnalytics T) (sc : session_call) :
  step_ sa sc = Some sa' ->
  tag (super_properties sa) = SA_DICT
  /\ key (super_properties sa) = Some "properties"
  /\ distinct_keys (array_ (super_properties sa)) = true ->
  tag (super_properties sa') = SA_DICT
  /\ key (super_properties sa') = Some "properties"
  /\ distinct_keys (array_ (super_properties sa')) = true.
Proof.
  intros Hstep (Ht & Hk & Hd).
  destruct sc as [p|k| | |c f fn l now]; cbn [session_step] in Hstep.
  - unfold sa_register_super_properties in Hstep.
    destruct p as [p|]; [|now injection Hstep as <-].
    destruct (tag p); cbn [snd] in Hstep; injection Hstep as <-; auto.
    cbn [super_properties]. split; [now apply add_children_tag|].
    split; [now rewrite add_children_key|]. now apply add_children_keep_keys_distinct.
  - injection Hstep as <-. cbn [sa_unregister_super_properties snd super_properties].
    unfold _sa_remove_child. rewrite Ht, tag_set_array_, key_set_array_.
    rewrite array_set_array_dict by assumption. split; [trivial|]. split; [trivial|].
    destruct k as [k|].
    + rewrite remove_loop_filter. now apply distinct_keys_filter.
    + now rewrite remove_loop_all.
  - injection Hstep as <-. cbn [sa_clear_super_properties snd super_properties].
    unfold _sa_remove_child. rewrite Ht, tag_set_array_, key_set_array_.
    rewrite array_set_array_dict by assumption. now rewrite remove_loop_all.
  - unfold sa_flush in Hstep. destruct (flush op (this_ sa)) as [[r t]|]; [|discriminate].
    injection Hstep as <-. auto.
  - destruct (run_ c f fn l now sa) as [[r sa1]|] eqn:E; [|discriminate].
    injection Hstep as <-. rewrite (run_keeps_super _ _ _ _ _ _ _ _ E). auto.
Qed.

(** X19. Whatever a program calls on a session after [sa_init], the super
    properties stay a properties object: a Dict named [properties] whose
    children carry pairwise distinct keys.  Registering, unregistering and
    clearing keep it one, and a tracking call or a flush does not touch
    it. *)
Theorem session_keeps_the_store_a_properties_object (consumer : T)
  (scs : list session_call) (sa : SensorsAnalytics T) :
  run_all scs (snd (sa_init consumer)) = Some sa ->
  tag (super_properties sa) = SA_DICT
  /\ key (super_properties sa) = Some "properties"
  /\ distinct_keys (array_ (super_properties sa)) = true
  /\ (forall c __file__ __function__ __line__ now res sa',
        run_ c __file__ __function__ __line__ now sa = Some (res, sa') ->
        super_properties sa' = super_properties sa)
  /\ (forall sa', sa_flush T op sa = Some sa' -> super_properties sa' = super_properties sa).
Proof.
  intros Hrun.
  assert (Hinv : forall scs sa0 sa1,
             run_all scs sa0 = Some sa1 ->
             tag (super_properties sa0) = SA_DICT
             /\ key (super_properties sa0) = Some "properties"
             /\ distinct_keys (array_ (super_properties sa0)) = true ->
             tag (super_properties sa1) = SA_DICT
             /\ key (super_properties sa1) = Some "properties"
             /\ distinct_keys (array_ (super_properties sa1)) = true).
  { clear. induction scs as [|sc scs IH]; intros sa0 sa1 H Hi.
    - injection H as <-. exact Hi.
    - cbn [session_run] in H. destruct (step_ sa0 sc) as [sa'|] eqn:E; [|discriminate].
      apply (IH sa' sa1 H). now apply (session_step_keeps_the_store sa0 sa' sc). }
  destruct (Hinv scs _ _ Hrun) as (Ht & Hk & Hd); [repeat split|].
  split; [exact Ht|]. split; [exact Hk|]. split; [exact Hd|]. split.
  - intros c f fn l now res sa'. apply run_keeps_super.
  - intros sa'. unfold sa_flush.
    destruct (flush op (this_ sa)) as [[r t]|]; [|discriminate]. now intros [= <-].
Qed.

End SessionProperties.

(* ===================================================================== *)
(** * Properties of a call from the checks to the consumer *)

Section CallProperties.

Variable localtime : Z -> tm.
Variable printf_3f : float -> string.
Variable T : Type.
Variable op : SAConsumerOp T.

Local Abbreviation run_ := (run localtime printf_3f T op).
Local Abbreviation text := (dump_text localtime printf_3f).


End CallProperties.

(** X21. Registered super properties reach the envelopes of later [track]
    and [track_signup] calls: under a key other than [$time] and [$project]
    for which the caller gives no property, the envelope's [properties] hold
    the property registered under that key.  Once the key is unregistered
    they hold under it what the caller gives, or the library's own [$lib] or
    [$lib_version], and nothing of the store. *)
Theorem registered_properties_reach_the_envelope (T : Type) (p : SANode)
  (sa : SensorsAnalytics T) (c : call) (__file__ __function__ : string) (__line__ : Z)
  (now : timeval) :
  tag p = SA_DICT ->
  distinct_keys (array_ p) = true ->
  tag (super_properties sa) = SA_DICT ->
  distinct_keys (array_ (super_properties sa)) = true ->
  is_profile c = false ->
  _sa_check_legality (call_distinct_id c) (call_origin_id c) (call_type c) (call_event c)
    (call_properties c) = SA_OK ->
  EnvelopeSpec.properties_object (call_properties c) ->
  EnvelopeSpec.reserved_typed (call_properties c) ->
  exists sa1,
    sa_register_super_properties (Some p) (Some sa) = (SA_OK, Some sa1)
    /\ (exists msg inner,
          call_msg c __file__ __function__ __line__ now (super_properties sa1) = Next msg
          /\ EnvelopeSpec.field "properties" msg = Some inner
          /\ forall k v,
               strncmp "$time" k 256 <> 0 -> strncmp "$project" k 256 <> 0 ->
               _sa_get_child (Some k) p = Some v ->
               supplied_entry k (call_properties c) = None ->
               EnvelopeSpec.field k inner = Some v)
    /\ (forall k,
          strncmp "$time" k 256 <> 0 -> strncmp "$project" k 256 <> 0 ->
          exists msg inner,
            call_msg c __file__ __function__ __line__ now
              (super_properties (snd (sa_unregister_super_properties (Some k) sa1))) = Next msg
            /\ EnvelopeSpec.field "properties" msg = Some inner
            /\ EnvelopeSpec.field k inner =
                 or_else (supplied_entry k (call_properties c))
                   (EnvelopeSpec.field k library_properties)).
Proof.
  intros Hp Hpd Hs Hsd Hc Hok Hobj Htyped.
  unfold sa_register_super_properties. rewrite Hp.
  eexists. split; [reflexivity|]. cbn [super_properties].
  set (store := add_children (array_ p) (super_properties sa)).
  assert (Ht : tag store = SA_DICT) by now apply add_children_tag.
  assert (Hd : distinct_keys (array_ store) = true)
    by now apply add_children_keep_keys_distinct.
  split.
  - destruct (call_msg_spec c __file__ __function__ __line__ now store Hok Hobj Htyped)
      as (msg & Hmsg & _ & Hprops & _).
    eexists msg, _. split; [exact Hmsg|]. split; [exact Hprops|].
    intros k v Hk1 Hk2 Hv Hnone.
    destruct (inner_properties_lookup c store Hobj Ht Hd) as [_ Hlook].
    rewrite (Hlook k Hk1 Hk2), Hnone, Hc. cbn [or_else].
    unfold EnvelopeSpec.field, store.
    rewrite get_child_add_children by assumption.
    rewrite get_child_loop_rev by assumption.
    unfold _sa_get_child in Hv. rewrite Hp in Hv. now rewrite Hv.
  - intros k Hk1 Hk2. cbn [sa_unregister_super_properties snd super_properties].
    set (store' := _sa_remove_child (Some k) store).
    assert (Harr : array_ store' = filter (fun v => negb (key_is k v)) (array_ store)).
    { unfold store', _sa_remove_child. rewrite Ht, array_set_array_dict by assumption.
      apply remove_loop_filter. }
    assert (Ht' : tag store' = SA_DICT).
    { unfold store', _sa_remove_child. now rewrite Ht, tag_set_array_. }
    assert (Hd' : distinct_keys (array_ store') = true).
    { rewrite Harr. now apply distinct_keys_filter. }
    destruct (call_msg_spec c __file__ __function__ __line__ now store' Hok Hobj Htyped)
      as (msg & Hmsg & _ & Hprops & _).
    eexists msg, _. split; [exact Hmsg|]. split; [exact Hprops|].
    destruct (inner_properties_lookup c store' Hobj Ht' Hd') as [_ Hlook].
    rewrite (Hlook k Hk1 Hk2), Hc. do 2 f_equal.
    unfold EnvelopeSpec.field, _sa_get_child. rewrite Ht', Harr.
    replace (_sa_get_child_loop k (filter (fun v => negb (key_is k v)) (array_ store)))
      with (@None SANode); [reflexivity|].
    symmetry. apply get_child_loop_none. intros v Hv. apply filter_In in Hv as [_ Hv].
    now apply negb_true_iff.
Qed.

(* ===================================================================== *)
(** * The domain of the encoder *)

Section EncoderDomain.

Variable localtime : Z -> tm.
Variable printf_3f : float -> string.

Local Abbreviation text := (dump_text localtime printf_3f).

Lemma sequence_defined (ts : list (option string)) :
  JsonSpec.sequence ts <> None <-> Forall (fun t => t <> None) ts.
Proof.
  induction ts as [|t ts IH]; cbn [JsonSpec.sequence].
  - split; [constructor|discriminate].
  - destruct t as [t|].
    + destruct (JsonSpec.sequence ts) as [r|].
      * split; [|discriminate]. intros _. constructor; [discriminate|]. now apply IH.
      * split; [contradiction|]. intros H. inversion H; subst. now apply IH.
    + split; [contradiction|]. intros H. inversion H; subst. contradiction.
Qed.

Lemma dump_string_defined (payload : string) :
  _sa_dump_string payload EmptyString <> None <->
  negb (sa_utf8_validate payload) || no_unicode_escape (c_str payload) = true.
Proof.
  unfold _sa_dump_string. destruct (sa_utf8_validate payload) eqn:Ev; cbn [negb orb].
  - rewrite dump_string_loop_spec by (trivial; lia).
    destruct (no_unicode_escape (c_str payload)); split; try discriminate; trivial.
    now intros C.
  - split; [reflexivity|discriminate].
Qed.

(** X22. [_sa_dump_node] has a defined result, and then the status
    [SA_OK], for exactly these nodes: every String in the tree either is not
    UTF-8, and is left out of the output, or sends no byte to the [\u]
    branch; and every child of a Dict carries a key.  Bool, Number, Int and
    Date nodes always have a text. *)
Theorem encoder_is_defined_on_encodable_nodes (node : SANode) :
  (encodable node = true <-> exists t, text node = Some t)
  /\ (forall sb,
        encodable node = true ->
        exists t, _sa_dump_node localtime printf_3f node sb = Some (SA_OK, (sb ++ t)%string))
  /\ (forall sb,
        encodable node = false -> _sa_dump_node localtime printf_3f node sb = None).
Proof.
  assert (Hiff : forall n, encodable n = true <-> text n <> None).
  { induction n as [k u Hl Hd|k l IH|k l IH] using SANode_nested_ind.
    - destruct u as [b|d|i|s us|p|l|l];
        try (now specialize (Hl l)); try (now specialize (Hd l));
        try (split; [discriminate|reflexivity]).
      cbn [encodable]. rewrite <- dump_string_defined.
      unfold dump_text. cbn [_sa_dump_node].
      destruct (_sa_dump_string p EmptyString) as [[r t]|];
        [split; intros _; discriminate|tauto].
    - cbn [encodable].
      rewrite (proj1 (proj2 (encoder_structure_lemma localtime printf_3f)) k l).
      unfold JsonSpec.array.
      assert (Hseq : forallb encodable l = true <-> JsonSpec.sequence (map text l) <> None).
      { rewrite sequence_defined, forallb_forall, Forall_forall. split.
        - intros H t Ht. apply in_map_iff in Ht as (v & <- & Hv).
          rewrite Forall_forall in IH. apply (IH v Hv). auto.
        - intros H v Hv. rewrite Forall_forall in IH. apply (IH v Hv).
          apply H. now apply in_map. }
      rewrite Hseq. destruct (JsonSpec.sequence (map text l));
        [split; intros _; discriminate|tauto].
    - cbn [encodable].
      rewrite (proj2 (proj2 (encoder_structure_lemma localtime printf_3f)) k l).
      unfold JsonSpec.object.
      assert (Hseq : forallb (fun v => match key v with
                                       | Some _ => encodable v
                                       | None => false
                                       end) l = true <->
                     JsonSpec.sequence
                       (map (fun v => JsonSpec.member (key v) (text v)) l) <> None).
      { rewrite sequence_defined, forallb_forall, Forall_forall.
        rewrite Forall_forall in IH. split.
        - intros H t Ht. apply in_map_iff in Ht as (v & <- & Hv).
          specialize (H v Hv). destruct (key v); [|discriminate].
          apply (IH v Hv) in H. cbn [JsonSpec.member]. destruct (text v); [discriminate|auto].
        - intros H v Hv. specialize (H _ (in_map _ _ _ Hv)). cbn beta in H.
          revert H. destruct (key v); intros H; [|exfalso; apply H; reflexivity].
          apply (IH v Hv).
          cbn [JsonSpec.member] in H. destruct (text v); [discriminate|auto]. }
      rewrite Hseq. destruct (JsonSpec.sequence _);
        [split; intros _; discriminate|tauto]. }
  split; [|split].
  - rewrite Hiff. destruct (text node) as [t|]; split; eauto; try discriminate.
    + intros C. now contradiction C.
    + intros (t & C). discriminate.
  - intros sb He. apply Hiff in He.
    rewrite (proj1 (encoder_structure_lemma localtime printf_3f) node sb).
    destruct (text node) as [t|]; [eauto|contradiction].
  - intros sb He.
    rewrite (proj1 (encoder_structure_lemma localtime printf_3f) node sb).
    destruct (text node) as [t|] eqn:Et; trivial.
    assert (C : encodable node = true) by (apply Hiff; rewrite Et; discriminate).
    congruence.
Qed.

End EncoderDomain.

(* ===================================================================== *)
(** * The name of the log file *)

Lemma decimal_loop_acc (fuel : nat) :
  forall n acc, decimal_loop fuel n acc = (decimal_loop fuel n EmptyString ++ acc)%string.
Proof.
  induction fuel as [|fuel IH]; intros n acc; trivial.
  cbn [decimal_loop]. destruct (n <? 10); trivial.
  rewrite (IH (n / 10) (String _ acc)), (IH (n / 10) (String _ EmptyString)).
  now rewrite append_assoc.
Qed.

Lemma decimal_loop_fuel (fuel1 : nat) :
  forall fuel2 n acc,
    (1 <= fuel1)%nat -> (1 <= fuel2)%nat ->
    0 <= n < 2 ^ Z.of_nat fuel1 -> n < 2 ^ Z.of_nat fuel2 ->
    decimal_loop fuel1 n acc = decimal_loop fuel2 n acc.
Proof.
  induction fuel1 as [|fuel1 IH]; intros fuel2 n acc H1 H2 Hn1 Hn2; [lia|].
  destruct fuel2 as [|fuel2]; [lia|]. cbn [decimal_loop].
  destruct (n <? 10) eqn:E; trivial. apply Z.ltb_ge in E.
  rewrite Nat2Z.inj_succ, Z.pow_succ_r in Hn1, Hn2 by lia.
  assert (F1 : (1 <= fuel1)%nat) by (destruct fuel1; [simpl in Hn1; lia|lia]).
  assert (F2 : (1 <= fuel2)%nat) by (destruct fuel2; [simpl in Hn2; lia|lia]).
  apply IH; trivial.
  - split; [apply Z.div_pos; lia|]. apply Z.div_lt_upper_bound; lia.
  - apply Z.div_lt_upper_bound; lia.
Qed.

(** The digits of a number of two digits or more: the digits of its tenth,
    then its last digit. *)
Lemma decimal_step (n : Z) :
  10 <= n ->
  decimal n = (decimal (n / 10) ++ String (digit_char (n mod 10)) EmptyString)%string.
Proof.
  intros Hn. unfold decimal at 1. cbn [decimal_loop].
  replace (n <? 10) with false by (symmetry; apply Z.ltb_ge; lia).
  rewrite decimal_loop_acc. f_equal. unfold decimal.
  assert (Hlog : 2 ^ Z.log2 n <= n < 2 ^ Z.succ (Z.log2 n)) by (apply Z.log2_spec; lia).
  assert (Hpos : 0 < n / 10) by (apply Z.div_str_pos; lia).
  assert (Hlog' : 2 ^ Z.log2 (n / 10) <= n / 10 < 2 ^ Z.succ (Z.log2 (n / 10)))
    by (apply Z.log2_spec; lia).
  assert (H3 : 3 <= Z.log2 n) by (apply Z.log2_le_pow2; lia).
  apply decimal_loop_fuel.
  - apply Nat2Z.inj_le. rewrite Z2Nat.id by lia. lia.
  - lia.
  - rewrite Z2Nat.id by lia. split; [lia|].
    apply Z.div_lt_upper_bound; [lia|].
    rewrite Z.pow_succ_r in Hlog by lia. lia.
  - rewrite Nat2Z.inj_succ, Z2Nat.id by apply Z.log2_nonneg. lia.
Qed.

Lemma digits_value_bound (s : string) :
  all_chars DateSpec.is_digit s = true ->
  forall acc, DateSpec.digits_value acc s < (acc + 1) * 10 ^ Z.of_nat (String.length s).
Proof.
  induction s as [|c s IH]; cbn [all_chars DateSpec.digits_value String.length]; intros H acc.
  - simpl. lia.
  - apply andb_true_iff in H as [Hc Hs].
    unfold DateSpec.is_digit in Hc. rewrite andb_true_iff, !Z.leb_le in Hc.
    specialize (IH Hs (acc * 10 + (byte c - 48))).
    rewrite Nat2Z.inj_succ, Z.pow_succ_r by lia.
    assert (0 < 10 ^ Z.of_nat (String.length s)) by (apply Z.pow_pos_nonneg; lia).
    nia.
Qed.

Lemma decimal_length (n : Z) (k : nat) :
  (1 <= k)%nat -> 10 ^ Z.of_nat (Nat.pred k) <= n < 10 ^ Z.of_nat k ->
  String.length (decimal n) = k.
Proof.
  intros Hk [Hlo Hhi].
  assert (Hn : 0 <= n).
  { assert (0 < 10 ^ Z.of_nat (Nat.pred k)) by (apply Z.pow_pos_nonneg; lia). lia. }
  destruct (decimal_spec n Hn) as (Hall & Hval & Hlen & _ & Hbound).
  specialize (Hbound k Hk Hhi).
  pose proof (digits_value_bound (decimal n) Hall 0) as Hup. rewrite Hval in Hup.
  destruct (Nat.eq_dec (String.length (decimal n)) k) as [|Hne]; trivial. exfalso.
  assert (Hle : (String.length (decimal n) <= Nat.pred k)%nat) by lia.
  assert (10 ^ Z.of_nat (String.length (decimal n)) <= 10 ^ Z.of_nat (Nat.pred k))
    by (apply Z.pow_le_mono_r; lia).
  lia.
Qed.

Section LogFileName.

Variable World : Type.
Variable FILE : Type.
Variable time : World -> Z.
Variable localtime : Z -> tm.
Variable fopen_append : string -> World -> option FILE * World.
Variable fwrite : string -> FILE -> World -> Z * World.
Variable fflush : FILE -> World -> Z * World.
Variable fclose : FILE -> World -> Z * World.

Local Abbreviation send :=
  (_sa_logging_consumer_send World FILE time localtime fopen_append fwrite fflush fclose).
Local Abbreviation current_date := (_sa_get_current_date World time localtime).

(** X23. [sa_init_logging_consumer] accepts a file name of 500 bytes, and
    [file_name] holds 511: with the five bytes of [.log.] that leaves room
    for six digits.  So for a name of 500 bytes and a date number of seven
    digits, as [_sa_get_current_date] gives for the years 2000 to 2899, the
    first send opens the file named by the date number without its last
    digit: the days 10 to 19 of a month go to one file.  A name of at most
    499 bytes keeps all seven digits. *)
Theorem longest_file_name_loses_a_digit (name event : string) (length : nat) (w : World) :
  10 ^ 6 <= current_date w < 10 ^ 7 ->
  let inter := snd (sa_init_logging_consumer FILE name) in
  let opened_name :=
    match send inter (Some event) length w with
    | Some (_, Some inter', _) => Some (file_name inter')
    | _ => None
    end in
  (String.length name = 500%nat ->
   fst (sa_init_logging_consumer FILE name) = SA_OK
   /\ opened_name = Some (name ++ ".log." ++ printf_d (current_date w / 10))%string)
  /\ ((String.length name <= 499)%nat ->
      fst (sa_init_logging_consumer FILE name) = SA_OK
      /\ opened_name = Some (name ++ ".log." ++ printf_d (current_date w))%string).
Proof.
  intros Hdate inter opened_name.
  assert (Hinit : (String.length name <= 500)%nat ->
                  sa_init_logging_consumer FILE name =
                    (SA_OK, Some (mkInter EmptyString name 0 None))).
  { intros H. unfold sa_init_logging_consumer, strlen.
    replace (Z.of_nat (String.length name) >? 500) with false; trivial.
    symmetry. rewrite Z.gtb_ltb. apply Z.ltb_ge. lia. }
  assert (Hname : (String.length name <= 500)%nat ->
                  opened_name =
                    Some (snprintf 512 (name ++ ".log." ++ printf_d (current_date w))%string)).
  { intros H. unfold opened_name, inter. rewrite (Hinit H). cbn [snd].
    unfold _sa_logging_consumer_send. cbn [date].
    replace (current_date w =? 0) with false by (symmetry; apply Z.eqb_neq; lia).
    cbn [negb _sa_logging_consumer_close file file_name_prefix].
    destruct (fst (fopen_append _ _)); reflexivity. }
  assert (Hd : printf_d (current_date w) = decimal (current_date w)).
  { unfold printf_d, printf_0d.
    replace (current_date w <? 0) with false by (symmetry; apply Z.ltb_ge; lia).
    reflexivity. }
  assert (H7 : String.length (decimal (current_date w)) = 7%nat).
  { apply decimal_length; [lia|]. exact Hdate. }
  split.
  - intros Hlen. rewrite Hinit, Hname by lia. split; [reflexivity|]. f_equal.
    assert (Hdiv : 10 ^ 5 <= current_date w / 10 < 10 ^ 6).
    { split; [apply Z.div_le_lower_bound; lia|apply Z.div_lt_upper_bound; lia]. }
    assert (Hd' : printf_d (current_date w / 10) = decimal (current_date w / 10)).
    { unfold printf_d, printf_0d.
      replace (current_date w / 10 <? 0) with false by (symmetry; apply Z.ltb_ge; lia).
      reflexivity. }
    assert (H6 : String.length (decimal (current_date w / 10)) = 6%nat).
    { apply decimal_length; [lia|]. exact Hdiv. }
    rewrite Hd, Hd', decimal_step by lia.
    unfold snprintf. cbn [Nat.pred].
    replace (name ++ ".log." ++ decimal (current_date w / 10) ++ String _ EmptyString)%string
      with ((name ++ ".log." ++ decimal (current_date w / 10))
              ++ String (digit_char (current_date w mod 10)) EmptyString)%string
      by (now rewrite !append_assoc).
    replace 511%nat with (String.length (name ++ ".log." ++ decimal (current_date w / 10))%string).
    + apply prefix_n_append.
    + rewrite !append_length, Hlen, H6. reflexivity.
  - intros Hlen. rewrite Hinit, Hname by lia. split; [reflexivity|]. f_equal.
    unfold snprintf. apply prefix_n_all.
    rewrite !append_length, Hd, H7. simpl. lia.
Qed.

End LogFileName.

(* ===================================================================== *)
(** * A reserved key with a value of another type *)

(** The encoding of some doubles. *)
Example double_bits_samples :
  double_bits 1 = Some 0x3FF0000000000000
  /\ double_bits (-2.5) = Some 0xC004000000000000
  /\ double_bits 5888 = Some 0x40B7000000000000
  /\ double_bits 0 = Some 0
  /\ double_bits infinity = Some 0x7FF0000000000000
  /\ double_bits nan = None.
Proof. repeat split; reflexivity. Qed.

(** X24. The checks look at the keys of the properties, not at the types
    of their values, and [_sa_track_internal] reads the node under [$time]
    as a Date without a look at its tag.  Where that read finds a number,
    the call goes on as with a Date: for the [$time] the caller gave, [time]
    is what was read as seconds, times 1000, plus what was read as
    microseconds over 1000.  An Int is read as its value in seconds, a Bool
    as its 32 bits and a Number as the 64 bits of its encoding, all with 0
    microseconds, so an Int 5 gives the time 5000; the clock is not
    used. *)
Theorem reserved_key_is_read_through_the_union (c : call) (__file__ __function__ : string)
  (__line__ : Z) (now : timeval) (super : SANode) :
  _sa_check_legality (call_distinct_id c) (call_origin_id c) (call_type c) (call_event c)
    (call_properties c) = SA_OK ->
  EnvelopeSpec.properties_object (call_properties c) ->
  reserved_readable (call_properties c) ->
  exists msg,
    call_msg c __file__ __function__ __line__ now super = Next msg
    /\ (forall n seconds,
          EnvelopeSpec.time_entry (call_properties c) = Some n ->
          date_seconds (union n) = Some seconds ->
          EnvelopeSpec.field "time" msg =
            Some (EnvelopeSpec.time_node
                    (EnvelopeSpec.milliseconds seconds (date_microseconds (union n)))))
    /\ (forall k i,
          EnvelopeSpec.time_entry (call_properties c) = Some (mkSANode k (int_ i)) ->
          EnvelopeSpec.field "time" msg = Some (EnvelopeSpec.time_node (int64 i * 1000)))
    /\ (forall k b,
          EnvelopeSpec.time_entry (call_properties c) = Some (mkSANode k (bool_ b)) ->
          EnvelopeSpec.field "time" msg =
            Some (EnvelopeSpec.time_node (b mod 2 ^ 32 * 1000)))
    /\ (forall k seconds microseconds,
          EnvelopeSpec.time_entry (call_properties c) =
            Some (mkSANode k (date_ seconds microseconds)) ->
          EnvelopeSpec.field "time" msg =
            Some (EnvelopeSpec.time_node (seconds * 1000 + Z.quot microseconds 1000)))
    /\ (forall k d bits,
          EnvelopeSpec.time_entry (call_properties c) = Some (mkSANode k (number_ d)) ->
          double_bits d = Some bits ->
          EnvelopeSpec.field "time" msg =
            Some (EnvelopeSpec.time_node (int64 bits * 1000))).
Proof.
  intros Hok Hobj Hread.
  destruct (call_msg_read c __file__ __function__ __line__ now super Hok Hobj Hread)
    as (msg & Hmsg & _ & _ & Htime & _ & _).
  exists msg. split; [exact Hmsg|].
  assert (Hgen : forall n seconds,
             EnvelopeSpec.time_entry (call_properties c) = Some n ->
             date_seconds (union n) = Some seconds ->
             EnvelopeSpec.field "time" msg =
               Some (EnvelopeSpec.time_node
                       (EnvelopeSpec.milliseconds seconds (date_microseconds (union n))))).
  { intros n s Hn Hs. rewrite Htime, Hn. unfold read_milliseconds. now rewrite Hs. }
  split; [exact Hgen|]. split; [|split; [|split]].
  - intros k i Hn. rewrite (Hgen _ (int64 i) Hn eq_refl).
    unfold EnvelopeSpec.milliseconds. cbn [union date_microseconds].
    do 2 f_equal. change (Z.quot 0 1000) with 0. lia.
  - intros k b Hn. rewrite (Hgen _ (b mod 2 ^ 32) Hn eq_refl).
    unfold EnvelopeSpec.milliseconds. cbn [union date_microseconds].
    do 2 f_equal. change (Z.quot 0 1000) with 0. lia.
  - intros k s u Hn. now rewrite (Hgen _ s Hn eq_refl).
  - intros k d bits Hn Hbits.
    rewrite (Hgen _ (int64 bits) Hn) by (cbn [union date_seconds]; now rewrite Hbits).
    unfold EnvelopeSpec.milliseconds. cbn [union date_microseconds].
    do 2 f_equal. change (Z.quot 0 1000) with 0. lia.
Qed.

Section UnsetOfAReservedKey.

Variable localtime : Z -> tm.
Variable printf_3f : float -> string.
Variable T : Type.
Variable op : SAConsumerOp T.


End UnsetOfAReservedKey.

(* ===================================================================== *)
(** * The line of a [track] *)

Lemma dump_string_verbatim (payload sb : string) :
  all_chars verbatim payload = true ->
  _sa_dump_string payload sb = Some (SA_OK, (sb ++ quote ++ payload ++ quote)%string).
Proof.
  intros Hv. destruct (verbatim_text payload Hv) as (H1 & H2 & H3 & H4).
  assert (Hval : sa_utf8_validate payload = true) by apply H2.
  unfold _sa_dump_string. rewrite Hval. cbn [negb].
  rewrite dump_string_loop_spec by (trivial; lia).
  rewrite H1, H3, H4. now rewrite !append_assoc.
Qed.

Lemma accepted_name_verbatim (k : string) :
  _sa_assert_key_name (Some k) = SA_OK -> all_chars verbatim k = true.
Proof.
  intros Hok. unfold _sa_assert_key_name in Hok.
  destruct ((checked_len (Some k) <? 1) || (checked_len (Some k) >? 255)); [discriminate|].
  destruct (regexec sa_regex_0 k =? 0); [discriminate|].
  destruct (regexec sa_regex_1 k =? 0) eqn:E; [|discriminate].
  rewrite regexec_name in E. destruct k as [|c rest]; [discriminate|].
  unfold NameSpec.identifier in E. rewrite !andb_true_iff in E.
  destruct E as [[Hc _] Hrest]. cbn [all_chars].
  rewrite (name_char_verbatim c (name_start_char c Hc)).
  exact (all_chars_impl NameSpec.name_char verbatim rest name_char_verbatim Hrest).
Qed.

Lemma is_digit_verbatim (c : ascii) : DateSpec.is_digit c = true -> verbatim c = true.
Proof.
  destruct c as [[] [] [] [] [] [] [] []]; intros H; try reflexivity; discriminate H.
Qed.

Lemma prefix_n_all_chars (p : ascii -> bool) (n : nat) :
  forall s, all_chars p s = true -> all_chars p (prefix_n n s) = true.
Proof.
  induction n as [|n IH]; intros [|c s]; cbn [prefix_n all_chars]; trivial.
  intros H. apply andb_true_iff in H as [Hc Hs]. now rewrite Hc, IH.
Qed.

Lemma printf_d_verbatim (n : Z) : all_chars verbatim (printf_d n) = true.
Proof.
  unfold printf_d, printf_0d. destruct (n <? 0) eqn:E.
  - apply Z.ltb_lt in E. cbn [Nat.pred Nat.sub zeros append all_chars].
    change (verbatim "-") with true. cbn [andb].
    apply (all_chars_impl DateSpec.is_digit verbatim _ is_digit_verbatim).
    apply decimal_spec. lia.
  - apply Z.ltb_ge in E. cbn [Nat.sub zeros append].
    apply (all_chars_impl DateSpec.is_digit verbatim _ is_digit_verbatim).
    now apply decimal_spec.
Qed.

Lemma lib_detail_verbatim (__file__ __function__ : string) (__line__ : Z) :
  all_chars verbatim __file__ = true -> all_chars verbatim __function__ = true ->
  all_chars verbatim
    (snprintf 256
       ("##" ++ __function__ ++ "##" ++ __file__ ++ "##" ++ printf_d (int64 __line__))%string)
  = true.
Proof.
  intros Hf Hfn. unfold snprintf. apply prefix_n_all_chars.
  rewrite !all_chars_append, Hf, Hfn. cbn [all_chars andb].
  change (verbatim "#") with true. cbn [andb].
  apply printf_d_verbatim.
Qed.

Section TrackLine.

Variable localtime : Z -> tm.
Variable printf_3f : float -> string.
Variable T : Type.
Variable op : SAConsumerOp T.

Local Abbreviation text := (dump_text localtime printf_3f).

Lemma text_string (k : option string) (payload : string) :
  all_chars verbatim payload = true ->
  text (mkSANode k (string_ payload)) = Some (quote ++ payload ++ quote)%string.
Proof.
  intros H. unfold dump_text. cbn [_sa_dump_node].
  now rewrite (dump_string_verbatim payload EmptyString H).
Qed.

(** X25. A [track] without properties, on a session without super
    properties, with a distinct id, a file name and a function name of
    printable ASCII without quotation mark and backslash, hands the
    consumer one text and returns what [send] returns.  The line number, an
    unsigned long, stands in [$lib_detail] as the long of the same 64 bits.  The text is a JSON
    object whose members come in the order opposite to the one they were
    added in: [properties], holding [$lib_version] and [$lib]; [lib], holding
    [$lib_detail], [$lib_method], [$lib_version] and [$lib]; [time], the
    milliseconds of the clock in decimal; [event]; [distinct_id]; and
    [type]. *)
Theorem track_writes_this_line (id event __file__ __function__ : string) (__line__ : Z)
  (now : timeval) (sa : SensorsAnalytics T) :
  1 <= strlen id <= 255 ->
  all_chars verbatim id = true ->
  _sa_assert_key_name (Some event) = SA_OK ->
  all_chars verbatim __file__ = true ->
  all_chars verbatim __function__ = true ->
  super_properties sa = sa_init_properties ->
  let q := fun s => (quote ++ s ++ quote)%string in
  let line :=
    ("{" ++ q "properties" ++ ":{"
         ++ q "$lib_version" ++ ":" ++ q "0.2.0" ++ ","
         ++ q "$lib" ++ ":" ++ q "C" ++ "},"
     ++ q "lib" ++ ":{"
         ++ q "$lib_detail" ++ ":"
         ++ q (snprintf 256
                 ("##" ++ __function__ ++ "##" ++ __file__ ++ "##" ++ printf_d (int64 __line__)))
         ++ ","
         ++ q "$lib_method" ++ ":" ++ q "code" ++ ","
         ++ q "$lib_version" ++ ":" ++ q "0.2.0" ++ ","
         ++ q "$lib" ++ ":" ++ q "C" ++ "},"
     ++ q "time" ++ ":"
         ++ snprintf 64 (printf_d (int64 (tv_sec now * 1000 + Z.quot (tv_usec now) 1000)))
         ++ ","
     ++ q "event" ++ ":" ++ q event ++ ","
     ++ q "distinct_id" ++ ":" ++ q id ++ ","
     ++ q "type" ++ ":" ++ q "track" ++ "}")%string in
  run localtime printf_3f T op (track (Some id) (Some event) None)
    __file__ __function__ __line__ now sa =
    match send op (this_ sa) line with
    | Some (res, this') => Some (res, mkSensorsAnalytics (super_properties sa) this')
    | None => None
    end.
Proof.
  intros Hlen Hid Hev Hfile Hfn Hsuper q line.
  pose proof (accepted_name_verbatim event Hev) as Hevent.
  pose proof (lib_detail_verbatim __file__ __function__ __line__ Hfile Hfn) as Hdetail.
  set (detail := snprintf 256
                   ("##" ++ __function__ ++ "##" ++ __file__ ++ "##" ++ printf_d (int64 __line__))%string)
    in *.
  set (ms := int64 (tv_sec now * 1000 + Z.quot (tv_usec now) 1000)).
  assert (Hok : _sa_check_legality (Some id) None "track" (Some event) None = SA_OK).
  { unfold _sa_check_legality. cbn [checked_len].
    replace (strlen id <? 1) with false by (symmetry; apply Z.ltb_ge; lia).
    replace (strlen id >? 255) with false
      by (symmetry; rewrite Z.gtb_ltb; apply Z.ltb_ge; lia).
    cbn [orb]. change (_sa_is_track_signup "track") with false.
    change (_sa_is_track "track") with true. cbn [andb]. now rewrite Hev. }
  set (msg :=
         mkSANode None
           (dict_ [mkSANode (Some "properties")
                     (dict_ [mkSANode (Some "$lib_version") (string_ "0.2.0");
                             mkSANode (Some "$lib") (string_ "C")]);
                   mkSANode (Some "lib")
                     (dict_ [mkSANode (Some "$lib_detail") (string_ detail);
                             mkSANode (Some "$lib_method") (string_ "code");
                             mkSANode (Some "$lib_version") (string_ "0.2.0");
                             mkSANode (Some "$lib") (string_ "C")]);
                   mkSANode (Some "time") (int_ ms);
                   mkSANode (Some "event") (string_ event);
                   mkSANode (Some "distinct_id") (string_ id);
                   mkSANode (Some "type") (string_ "track")])).
  assert (Hmsg : _sa_track_msg (Some id) None "track" (Some event) None
                   __file__ __function__ __line__ now (super_properties sa) = Next msg).
  { rewrite Hsuper. unfold _sa_track_msg, lib_properties_of. fold detail. fold ms.
    run_builders. reflexivity. }
  assert (Htext : text msg = Some line).
  { destruct (encoder_structure_lemma localtime printf_3f) as (_ & _ & Hdict).
    unfold msg. rewrite Hdict. cbn [map key JsonSpec.member].
    rewrite !Hdict. cbn [map key JsonSpec.member].
    rewrite !text_string by (assumption || reflexivity).
    change (text (mkSANode (Some "time") (int_ ms))) with (Some (snprintf 64 (printf_d ms))).
    cbn [JsonSpec.object JsonSpec.sequence JsonSpec.join JsonSpec.member].
    f_equal. unfold line, q. fold detail. fold ms. append_assoc_norm. }
  unfold run, _sa_track, _sa_track_internal. rewrite Hok, Hmsg.
  unfold dump_text in Htext.
  destruct (_sa_dump_node localtime printf_3f msg EmptyString) as [[r t]|]; [|discriminate].
  injection Htext as ->. reflexivity.
Qed.

End TrackLine.

(* ===================================================================== *)
(** * The super properties under the reserved keys *)

Lemma plain_is_not_time (v : SANode) :
  EnvelopeSpec.plain v = true -> key_is "$time" v = false.
Proof.
  unfold EnvelopeSpec.plain. rewrite !keyed_key_is.
  destruct (key_is "$time" v); trivial; discriminate.
Qed.

Lemma plain_is_not_project (v : SANode) :
  EnvelopeSpec.plain v = true -> key_is "$project" v = false.
Proof.
  unfold EnvelopeSpec.plain. rewrite !keyed_key_is.
  destruct (key_is "$project" v); trivial. rewrite andb_false_r. discriminate.
Qed.

(** A lookup in the finished [inner_properties] of a [track] or
    [track_signup] under a key that none of the copied properties has: the
    super property. *)
Lemma reserved_key_lookup (c : call) (super : SANode) (k : string) :
  is_profile c = false ->
  tag super = SA_DICT ->
  distinct_keys (array_ super) = true ->
  (forall v, EnvelopeSpec.plain v = true -> key_is k v = false) ->
  forall n,
    EnvelopeSpec.field k super = Some n ->
    EnvelopeSpec.field k
      (add_children (filter EnvelopeSpec.plain (EnvelopeSpec.supplied (call_properties c)))
         (inner_properties_of (call_type c) super)) = Some n.
Proof.
  intros Hc Hs Hsd Hplain n Hn. unfold EnvelopeSpec.field in *.
  rewrite get_child_add_children by apply inner_properties_tag.
  replace (_sa_get_child_loop k
             (rev (filter EnvelopeSpec.plain (EnvelopeSpec.supplied (call_properties c)))))
    with (@None SANode).
  2:{ symmetry. apply get_child_loop_none. intros v Hv.
      apply in_rev, filter_In in Hv as [_ Hv]. now apply Hplain. }
  cbn [or_else]. rewrite inner_properties_of_track by assumption.
  rewrite get_child_add_children by reflexivity.
  rewrite get_child_loop_rev by assumption.
  unfold _sa_get_child in Hn. rewrite Hs in Hn. now rewrite Hn.
Qed.

(** C3. The claim fails on the code where [$time] is among the super
    properties.  For a [track] or [track_signup] that passes the checks, a
    super property registered under [$time] is a child of the inner
    properties under that key, also when the caller's properties hold a
    [$time] date, which then gives the envelope its [time]: the loop that
    merges the super properties has no test for the key, unlike the loop
    that copies the caller's. *)
Theorem registered_time_stays_in_properties (c : call) (__file__ __function__ : string)
  (__line__ : Z) (now : timeval) (super : SANode) :
  is_profile c = false ->
  _sa_check_legality (call_distinct_id c) (call_origin_id c) (call_type c) (call_event c)
    (call_properties c) = SA_OK ->
  EnvelopeSpec.properties_object (call_properties c) ->
  reserved_readable (call_properties c) ->
  tag super = SA_DICT ->
  distinct_keys (array_ super) = true ->
  forall n,
    EnvelopeSpec.field "$time" super = Some n ->
    exists msg inner,
      call_msg c __file__ __function__ __line__ now super = Next msg
      /\ EnvelopeSpec.field "properties" msg = Some inner
      /\ EnvelopeSpec.field "$time" inner = Some n
      /\ (forall k seconds microseconds,
            EnvelopeSpec.time_entry (call_properties c) =
              Some (mkSANode k (date_ seconds microseconds)) ->
            EnvelopeSpec.field "time" msg =
              Some (EnvelopeSpec.time_node (EnvelopeSpec.milliseconds seconds microseconds))).
Proof.
  intros Hc Hok Hobj Htyped Hs Hsd n Hn.
  destruct (call_msg_read c __file__ __function__ __line__ now super Hok Hobj Htyped)
    as (msg & Hmsg & _ & Hprops & Htime & _ & _).
  eexists msg, _. split; [exact Hmsg|]. split; [exact Hprops|]. split.
  - apply reserved_key_lookup; trivial. exact plain_is_not_time.
  - intros k s u Hsome. now rewrite Htime, Hsome.
Qed.

(** C4. The claim fails on the code where [$project] is among the super
    properties.  For a [track] or [track_signup] that passes the checks, a
    super property registered under [$project] is a child of the inner
    properties under that key, also when the caller's properties hold a
    [$project], whose text then is the [project] field at the root of the
    envelope: the loop that merges the super properties has no test for the
    key, unlike the loop that copies the caller's. *)
Theorem registered_project_stays_in_properties (c : call) (__file__ __function__ : string)
  (__line__ : Z) (now : timeval) (super : SANode) :
  is_profile c = false ->
  _sa_check_legality (call_distinct_id c) (call_origin_id c) (call_type c) (call_event c)
    (call_properties c) = SA_OK ->
  EnvelopeSpec.properties_object (call_properties c) ->
  reserved_readable (call_properties c) ->
  tag super = SA_DICT ->
  distinct_keys (array_ super) = true ->
  forall n,
    EnvelopeSpec.field "$project" super = Some n ->
    exists msg inner,
      call_msg c __file__ __function__ __line__ now super = Next msg
      /\ EnvelopeSpec.field "properties" msg = Some inner
      /\ EnvelopeSpec.field "$project" inner = Some n
      /\ (forall k bytes,
            EnvelopeSpec.project_entry (call_properties c) =
              Some (mkSANode k (string_ bytes)) ->
            EnvelopeSpec.field "project" msg =
              Some (mkSANode (Some "project") (string_ (c_str bytes)))).
Proof.
  intros Hc Hok Hobj Htyped Hs Hsd n Hn.
  destruct (call_msg_read c __file__ __function__ __line__ now super Hok Hobj Htyped)
    as (msg & Hmsg & _ & Hprops & _ & Hproj & _).
  eexists msg, _. split; [exact Hmsg|]. split; [exact Hprops|]. split.
  - apply reserved_key_lookup; trivial. exact plain_is_not_project.
  - intros k bytes Hsome. now rewrite Hproj, Hsome.
Qed.

(* ===================================================================== *)
(** * The theorems at sample inputs *)

Lemma add_child_replaces_and_prepends_witness :
  tag sample_dict = SA_DICT
  /\ key sample_child = Some "os"
  /\ array_ (snd (_sa_add_child sample_child sample_dict)) =
       [sample_child; mkSANode (Some "a") (int_ 1); mkSANode (Some "b") (int_ 2)]
  /\ _sa_get_child (Some "os") (snd (_sa_add_child sample_child sample_dict)) =
       Some sample_child
  /\ List.length (filter (has_key "os") (array_ (snd (_sa_add_child sample_child sample_dict))))
     = 1%nat.
Proof.
  destruct (add_child_replaces_and_prepends sample_dict sample_child "os" eq_refl eq_refl)
    as (_ & Hrem & _ & Harr & _ & Hget & Hone & _).
  split; [reflexivity|]. split; [reflexivity|]. split; [|split].
  - rewrite Harr, Hrem. reflexivity.
  - exact Hget.
  - exact Hone.
Defined.

Lemma add_with_null_key_changes_nothing_witness :
  tag sample_dict = SA_DICT
  /\ sa_add_bool None SA_TRUE (Some sample_dict) = (SA_OK, Some sample_dict)
  /\ sa_add_string None "iOS" 3 (Some sample_dict) = (SA_OK, Some sample_dict).
Proof.
  destruct (add_with_null_key_changes_nothing sample_dict eq_refl)
    as (Hb & _ & _ & _ & Hs).
  split; [reflexivity|]. split.
  - exact (proj1 (Hb SA_TRUE)).
  - exact (proj1 (Hs "iOS" 3%nat)).
Defined.

Lemma assert_key_name_accepts_exactly_witness :
  _sa_assert_key_name (Some "product_name") = SA_OK
  /\ 101 <= strlen sample_long_name <= 255
  /\ _sa_assert_key_name (Some sample_long_name) = SA_INVALID_PARAMETER_ERROR.
Proof.
  split; [|split].
  - apply (proj1 (assert_key_name_accepts_exactly "product_name")).
    repeat split; try reflexivity; discriminate.
  - split; discriminate.
  - apply (proj2 (assert_key_name_accepts_exactly sample_long_name)).
    split; discriminate.
Defined.

Lemma failed_validation_has_no_effect_witness :
  CheckSpec.validation_fails (track (Some "ABCDEF123456789") (Some "time") None)
  /\ run sample_localtime sample_printf_3f (list string) recording_op
       (track (Some "ABCDEF123456789") (Some "time") None) "demo.c" "main" 251 sample_now
       (mkSensorsAnalytics sample_store []) =
     Some (SA_INVALID_PARAMETER_ERROR, mkSensorsAnalytics sample_store []).
Proof.
  assert (H : CheckSpec.validation_fails (track (Some "ABCDEF123456789") (Some "time") None)).
  { right. right. left. exists (Some "ABCDEF123456789"), (Some "time"), None.
    split; [reflexivity|]. unfold CheckSpec.name_ok. discriminate. }
  split; [exact H|].
  exact (failed_validation_has_no_effect sample_localtime sample_printf_3f (list string)
           recording_op _ "demo.c" "main" 251 sample_now _ H).
Defined.

Lemma sample_properties_object : EnvelopeSpec.properties_object (Some sample_properties).
Proof. intros p [= <-]. split; reflexivity. Defined.

Lemma sample_reserved_typed : EnvelopeSpec.reserved_typed (Some sample_properties).
Proof. split; intros n [= <-]; reflexivity. Defined.

Lemma sample_reserved_readable : reserved_readable (Some sample_properties).
Proof. split; intros n [= <-]; discriminate. Defined.



Lemma registered_time_stays_in_properties_witness :
  exists sa msg inner,
    sa_register_super_properties (Some sample_registered)
      (Some (snd (sa_init ([] : list string)))) = (SA_OK, Some sa)
    /\ _sa_check_legality (Some "ABCDEF123456789") None "track" (Some "ViewHomePage")
         (Some sample_properties) = SA_OK
    /\ call_msg (track (Some "ABCDEF123456789") (Some "ViewHomePage") (Some sample_properties))
         "demo.c" "main" 60 sample_now (super_properties sa) = Next msg
    /\ EnvelopeSpec.field "time" msg = Some (mkSANode (Some "time") (int_ 1000005))
    /\ EnvelopeSpec.field "properties" msg = Some inner
    /\ EnvelopeSpec.field "$time" inner = Some (mkSANode (Some "$time") (date_ 2000 0)).
Proof.
  eexists. 
  destruct (registered_time_stays_in_properties
              (track (Some "ABCDEF123456789") (Some "ViewHomePage") (Some sample_properties))
              "demo.c" "main" 60 sample_now sample_registered eq_refl eq_refl
              sample_properties_object sample_reserved_readable eq_refl eq_refl
              (mkSANode (Some "$time") (date_ 2000 0)) eq_refl)
    as (msg & inner & Hmsg & Hprops & Htime & Hdate).
  exists msg, inner. split; [reflexivity|]. split; [reflexivity|].
  split; [exact Hmsg|]. split; [|split; [exact Hprops|exact Htime]].
  exact (Hdate (Some "$time") 1000 5500 eq_refl).
Defined.

Lemma registered_project_stays_in_properties_witness :
  _sa_check_legality (Some "ABCDEF123456789") None "track" (Some "ViewHomePage")
    (Some sample_properties) = SA_OK
  /\ exists msg inner,
       call_msg (track (Some "ABCDEF123456789") (Some "ViewHomePage") (Some sample_properties))
         "demo.c" "main" 60 sample_now sample_store = Next msg
       /\ EnvelopeSpec.field "project" msg = Some (mkSANode (Some "project") (string_ "Foo"))
       /\ EnvelopeSpec.field "properties" msg = Some inner
       /\ EnvelopeSpec.field "$project" inner =
            Some (mkSANode (Some "$project") (string_ "Bar")).
Proof.
  split; [reflexivity|].
  destruct (registered_project_stays_in_properties
              (track (Some "ABCDEF123456789") (Some "ViewHomePage") (Some sample_properties))
              "demo.c" "main" 60 sample_now sample_store eq_refl eq_refl
              sample_properties_object sample_reserved_readable eq_refl eq_refl
              (mkSANode (Some "$project") (string_ "Bar")) eq_refl)
    as (msg & inner & Hmsg & Hprops & Hproject & Htext).
  exists msg, inner. split; [exact Hmsg|]. split; [|split; [exact Hprops|exact Hproject]].
  exact (Htext (Some "$project") "Foo" eq_refl).
Defined.

Lemma profile_envelope_ignores_super_properties_witness :
  is_profile (profile_increment (Some "123456") (Some sample_dict)) = true
  /\ _sa_check_legality (Some "123456") None "profile_increment" None (Some sample_dict)
     = SA_OK
  /\ exists msg,
       call_msg (profile_increment (Some "123456") (Some sample_dict))
         "demo.c" "main" 210 sample_now sample_store = Next msg
       /\ EnvelopeSpec.field "event" msg = None
       /\ call_msg (profile_increment (Some "123456") (Some sample_dict))
            "demo.c" "main" 210 sample_now sa_init_properties = Next msg.
Proof.
  split; [reflexivity|]. split; [reflexivity|].
  assert (Hobj : EnvelopeSpec.properties_object (Some sample_dict)).
  { intros p [= <-]. split; reflexivity. }
  assert (Htyped : EnvelopeSpec.reserved_typed (Some sample_dict)).
  { split; intros n H; discriminate H. }
  destruct (profile_envelope_ignores_super_properties
              (profile_increment (Some "123456") (Some sample_dict))
              "demo.c" "main" 210 sample_now sample_store eq_refl eq_refl Hobj Htyped)
    as (msg & inner & Hmsg & Hevent & _ & _ & Hany).
  exists msg. split; [exact Hmsg|]. split; [exact Hevent|]. apply Hany.
Defined.

Lemma logging_send_rotates_by_date_witness :
  _sa_logging_consumer_send SampleWorld string sample_time sample_localtime
    sample_fopen_append sample_fwrite sample_fflush sample_fclose
    (Some sample_inter) (Some "{}") 2 sample_world =
  Some (SA_OK,
        Some (mkInter "demo.out.log.1170102" "demo.out" 1170102 (Some "demo.out.log.1170102")),
        mkSampleWorld 1483326245
          [("demo.out.log.1170102", String "{" (String "}" (chr 10)))] false).
Proof.
  destruct (logging_send_rotates_by_date SampleWorld string sample_time sample_localtime
              sample_fopen_append sample_fwrite sample_fflush sample_fclose
              sample_inter "{}" 2 sample_world)
    as (_ & Hopen & _).
  rewrite (Hopen ltac:(discriminate) "demo.out.log.1170102" eq_refl). reflexivity.
Defined.

(** C7, as the specification states it, fails: on a disk that takes no
    data both [fwrite] calls return 0 and the file stays empty, yet the send
    returns [SA_OK]. *)
Lemma send_returns_ok_when_the_write_fails :
  fst (sample_fwrite "{}" "demo.out.log.1170102" full_world) = 0
  /\ _sa_logging_consumer_send SampleWorld string sample_time sample_localtime
       sample_fopen_append sample_fwrite sample_fflush sample_fclose
       (Some sample_inter) (Some "{}") 2 full_world =
     Some (SA_OK,
           Some (mkInter "demo.out.log.1170102" "demo.out" 1170102
                   (Some "demo.out.log.1170102")),
           mkSampleWorld 1483326245 [("demo.out.log.1170102", EmptyString)] true).
Proof. split; reflexivity. Qed.

Lemma dump_node_drops_the_utf8_status_witness :
  sa_utf8_validate (chr 255) = false
  /\ _sa_dump_string (chr 255) EmptyString = Some (SA_INVALID_PARAMETER_ERROR, EmptyString)
  /\ _sa_dump_node sample_localtime sample_printf_3f
       (mkSANode (Some "k") (string_ (chr 255))) EmptyString = Some (SA_OK, EmptyString).
Proof.
  split; [reflexivity|].
  exact (dump_node_drops_the_utf8_status sample_localtime sample_printf_3f (Some "k")
           (chr 255) EmptyString eq_refl).
Defined.

(** What the swallowed status leads to: a [track] with a String property
    that is not UTF-8 returns [SA_OK] and hands the consumer a line in which
    the value of the property is missing. *)
Lemma track_sends_a_line_without_the_value :
  run sample_localtime sample_printf_3f (list string) recording_op
    (track (Some "u") (Some "E")
       (Some (mkSANode (Some "properties")
                (dict_ [mkSANode (Some "k") (string_ (chr 255))]))))
    "f" "g" 1 (mk_timeval 0 0) (mkSensorsAnalytics sa_init_properties []) =
  Some (SA_OK,
        mkSensorsAnalytics sa_init_properties
          [("{" ++ quote ++ "properties" ++ quote ++ ":{" ++ quote ++ "k" ++ quote ++ ":,"
            ++ quote ++ "$lib_version" ++ quote ++ ":" ++ quote ++ "0.2.0" ++ quote ++ ","
            ++ quote ++ "$lib" ++ quote ++ ":" ++ quote ++ "C" ++ quote ++ "},"
            ++ quote ++ "lib" ++ quote ++ ":{"
            ++ quote ++ "$lib_detail" ++ quote ++ ":" ++ quote ++ "##g##f##1" ++ quote ++ ","
            ++ quote ++ "$lib_method" ++ quote ++ ":" ++ quote ++ "code" ++ quote ++ ","
            ++ quote ++ "$lib_version" ++ quote ++ ":" ++ quote ++ "0.2.0" ++ quote ++ ","
            ++ quote ++ "$lib" ++ quote ++ ":" ++ quote ++ "C" ++ quote ++ "},"
            ++ quote ++ "time" ++ quote ++ ":0,"
            ++ quote ++ "event" ++ quote ++ ":" ++ quote ++ "E" ++ quote ++ ","
            ++ quote ++ "distinct_id" ++ quote ++ ":" ++ quote ++ "u" ++ quote ++ ","
            ++ quote ++ "type" ++ quote ++ ":" ++ quote ++ "track" ++ quote ++ "}")%string]).
Proof. reflexivity. Qed.

Lemma date_node_text_witness :
  0 <= 123456 < 2 ^ 31
  /\ exists Y M D h m s F,
       _sa_dump_node sample_localtime sample_printf_3f
         (mkSANode (Some "first_time") (date_ 1483326245 123456)) EmptyString =
         Some (SA_OK, DateSpec.date_string Y M D h m s F)
       /\ (DateSpec.zero_padded 4 2017 Y /\ String.length Y = 4%nat)
       /\ (DateSpec.zero_padded 2 1 M /\ String.length M = 2%nat)
       /\ (DateSpec.zero_padded 2 2 D /\ String.length D = 2%nat)
       /\ (DateSpec.zero_padded 2 3 h /\ String.length h = 2%nat)
       /\ (DateSpec.zero_padded 2 4 m /\ String.length m = 2%nat)
       /\ (DateSpec.zero_padded 2 5 s /\ String.length s = 2%nat)
       /\ DateSpec.zero_padded 3 123456 F.
Proof.
  split; [lia|].
  apply (date_node_text sample_localtime sample_printf_3f (Some "first_time")
           1483326245 123456 EmptyString); simpl; lia.
Defined.

Lemma digits_value_nonneg (s : string) :
  all_chars DateSpec.is_digit s = true ->
  forall acc, 0 <= acc -> 0 <= DateSpec.digits_value acc s.
Proof.
  induction s as [|c s IH]; cbn [all_chars DateSpec.digits_value]; intros H acc Hacc; trivial.
  apply andb_true_iff in H as [Hc Hs].
  unfold DateSpec.is_digit in Hc. rewrite andb_true_iff, !Z.leb_le in Hc.
  apply IH; trivial. lia.
Qed.

(** C9, as the specification states it, fails.  With -5 microseconds the
    text after the point is a minus sign and two digits, and for a time in
    the year 10000 the year has five digits: neither text has the fields of
    [YYYY-MM-DD HH:MM:SS.mmm]. *)
Lemma date_text_outside_the_format :
  (_sa_dump_node sample_localtime sample_printf_3f
     (mkSANode (Some "first_time") (date_ 1483326245 (-5))) EmptyString =
     Some (SA_OK, (quote ++ "2017-01-02 03:04:05.-05" ++ quote)%string)
   /\ ~ exists Y M D h m s F,
          _sa_dump_node sample_localtime sample_printf_3f
            (mkSANode (Some "first_time") (date_ 1483326245 (-5))) EmptyString =
            Some (SA_OK, DateSpec.date_string Y M D h m s F)
          /\ DateSpec.zero_padded 3 (-5) F)
  /\ (_sa_dump_node sample_far_localtime sample_printf_3f
        (mkSANode (Some "first_time") (date_ 253402300800 0)) EmptyString =
        Some (SA_OK, (quote ++ "10000-01-02 03:04:05.000" ++ quote)%string)
      /\ ~ exists Y M D h m s F,
             _sa_dump_node sample_far_localtime sample_printf_3f
               (mkSANode (Some "first_time") (date_ 253402300800 0)) EmptyString =
               Some (SA_OK, DateSpec.date_string Y M D h m s F)
             /\ DateSpec.zero_padded 4 10000 Y /\ String.length Y = 4%nat).
Proof.
  split; (split; [reflexivity|]).
  - intros (Y & M & D & h & m & s & F & _ & Hdigits & Hvalue & _).
    pose proof (digits_value_nonneg F Hdigits 0 ltac:(lia)). lia.
  - intros (Y & M & D & h & m & s & F & _ & (Hdigits & Hvalue & _) & Hlen).
    pose proof (digits_value_bound Y Hdigits 0) as Hb. rewrite Hvalue, Hlen in Hb.
    simpl in Hb. lia.
Qed.

(** ** The further properties at sample inputs *)

Lemma registered_properties_override_witness :
  tag sample_properties = SA_DICT
  /\ distinct_keys (array_ sample_properties) = true
  /\ exists sa',
       sa_register_super_properties (Some sample_properties)
         (Some (mkSensorsAnalytics sample_store ([] : list string))) = (SA_OK, Some sa')
       /\ _sa_get_child (Some "$project") (super_properties sa') =
            Some (mkSANode (Some "$project") (string_ "Foo"))
       /\ _sa_get_child (Some "os") (super_properties sa') =
            Some (mkSANode (Some "os") (string_ "iOS")).
Proof.
  split; [reflexivity|]. split; [reflexivity|].
  destruct (registered_properties_override (list string) sample_properties
              (mkSensorsAnalytics sample_store []) eq_refl eq_refl eq_refl eq_refl)
    as (sa' & Heq & _ & _ & _ & _ & Hlook).
  exists sa'. split; [exact Heq|]. split; [exact (Hlook "$project")|exact (Hlook "os")].
Defined.

Lemma unregister_unlinks_the_named_children_witness :
  tag (super_properties sample_session) = SA_DICT
  /\ array_ (super_properties (snd (sa_unregister_super_properties (Some "os") sample_session)))
     = [mkSANode (Some "a") (int_ 1); mkSANode (Some "b") (int_ 2)]
  /\ array_ (super_properties (snd (sa_unregister_super_properties None sample_session))) = [].
Proof.
  destruct (unregister_unlinks_the_named_children (list string) sample_session eq_refl)
    as (Hk & Hnull & Hclear & _).
  split; [reflexivity|]. split.
  - destruct (Hk "os") as (_ & _ & Harr & _). exact Harr.
  - rewrite Hnull. exact Hclear.
Defined.

Lemma caller_properties_take_precedence_witness :
  _sa_check_legality (Some "ABCDEF123456789") None "track" (Some "ViewHomePage")
    (Some sample_properties) = SA_OK
  /\ exists msg inner,
       call_msg sample_track "demo.c" "main" 60 sample_now sample_dict = Next msg
       /\ EnvelopeSpec.field "properties" msg = Some inner
       /\ EnvelopeSpec.field "os" inner = Some (mkSANode (Some "os") (string_ "iOS"))
       /\ EnvelopeSpec.field "a" inner = Some (mkSANode (Some "a") (int_ 1))
       /\ EnvelopeSpec.field "$lib" inner = Some (mkSANode (Some "$lib") (string_ "C")).
Proof.
  split; [reflexivity|].
  destruct (caller_properties_take_precedence sample_track "demo.c" "main" 60 sample_now
              sample_dict eq_refl sample_properties_object sample_reserved_typed
              eq_refl eq_refl)
    as (msg & inner & Hmsg & Hprops & _ & Hlook).
  exists msg, inner. split; [exact Hmsg|]. split; [exact Hprops|]. split; [|split].
  - exact (Hlook "os" ltac:(discriminate) ltac:(discriminate)).
  - exact (Hlook "a" ltac:(discriminate) ltac:(discriminate)).
  - exact (Hlook "$lib" ltac:(discriminate) ltac:(discriminate)).
Defined.

Lemma envelope_names_the_call_witness :
  _sa_check_legality (Some "registered") (Some "anonymous") "track_signup" (Some "$SignUp")
    None = SA_OK
  /\ exists msg lib,
       call_msg (track_signup (Some "registered") (Some "anonymous") None)
         "demo.c" "main" 120 sample_now sample_store = Next msg
       /\ EnvelopeSpec.field "type" msg = Some (mkSANode (Some "type") (string_ "track_signup"))
       /\ EnvelopeSpec.field "distinct_id" msg =
            Some (mkSANode (Some "distinct_id") (string_ "registered"))
       /\ EnvelopeSpec.field "original_id" msg =
            Some (mkSANode (Some "original_id") (string_ "anonymous"))
       /\ EnvelopeSpec.field "lib" msg = Some lib
       /\ EnvelopeSpec.field "$lib_detail" lib =
            Some (mkSANode (Some "$lib_detail") (string_ "##main##demo.c##120")).
Proof.
  split; [reflexivity|].
  assert (Hobj : EnvelopeSpec.properties_object None) by (intros p H; discriminate H).
  assert (Htyped : EnvelopeSpec.reserved_typed None) by (split; intros n H; discriminate H).
  destruct (envelope_names_the_call (track_signup (Some "registered") (Some "anonymous") None)
              "demo.c" "main" 120 sample_now sample_store eq_refl Hobj Htyped)
    as (msg & lib & Hmsg & Htype & Hid & _ & Horigin & Hlib & Hkey & Htag & Harr).
  exists msg, lib. split; [exact Hmsg|]. split; [exact Htype|]. split; [exact Hid|].
  split; [exact Horigin|]. split; [exact Hlib|].
  unfold EnvelopeSpec.field, _sa_get_child. rewrite Htag, Harr. reflexivity.
Defined.

Lemma new_consumer_opens_its_file_on_the_first_send_witness :
  strlen "demo.out" <= 500
  /\ _sa_logging_consumer_send SampleWorld string sample_time sample_localtime
       sample_fopen_append sample_fwrite sample_fflush sample_fclose
       (snd (sa_init_logging_consumer string "demo.out")) (Some "{}") 2 sample_world =
     Some (SA_OK,
           Some (mkInter "demo.out.log.1170102" "demo.out" 1170102
                   (Some "demo.out.log.1170102")),
           mkSampleWorld 1483326245
             [("demo.out.log.1170102", String "{" (String "}" (chr 10)))] false).
Proof.
  assert (H : strlen "demo.out" <= 500) by discriminate.
  split; [exact H|].
  destruct (new_consumer_opens_its_file_on_the_first_send SampleWorld string sample_time
              sample_localtime sample_fopen_append sample_fwrite sample_fflush sample_fclose
              "demo.out" "{}" 2 sample_world ltac:(simpl; lia) ltac:(simpl; lia))
    as [_ Hok].
  destruct (Hok H) as [_ Hsend]. rewrite Hsend. reflexivity.
Defined.

Lemma string_buffer_stays_in_bounds_witness :
  sb_in_bounds _sa_sb_init
  /\ exists sb',
       _sa_sb_put _sa_sb_init "0123456789ABCDEFG" 17 = Some sb'
       /\ sb_text sb' = "0123456789ABCDEFG"
       /\ sb_alloc sb' = 32
       /\ sb_in_bounds sb'.
Proof.
  assert (H : sb_in_bounds _sa_sb_init) by (split; [reflexivity|discriminate]).
  split; [exact H|].
  destruct (string_buffer_stays_in_bounds _sa_sb_init H) as (_ & Hput & _).
  destruct (Hput "0123456789ABCDEFG" 17%nat ltac:(apply Nat.leb_le; reflexivity)
              ltac:(reflexivity))
    as (sb' & Heq & Htext & _ & Hin).
  exists sb'. split; [exact Heq|]. split; [exact Htext|]. split; [|exact Hin].
  assert (E : _sa_sb_put _sa_sb_init "0123456789ABCDEFG" 17 =
              Some (mkSAStringBuffer "0123456789ABCDEFG" 32)) by reflexivity.
  rewrite E in Heq. injection Heq as <-. reflexivity.
Defined.

Lemma write_hex16_reads_back_witness :
  0 <= 0xD83D < 2 ^ 16
  /\ _sa_write_hex16 0xD83D = "D83D"
  /\ HexSpec.value 0 (_sa_write_hex16 0xD83D) = Some 0xD83D.
Proof.
  assert (H : 0 <= 0xD83D < 2 ^ 16) by (split; [discriminate|reflexivity]).
  split; [exact H|]. split; [reflexivity|].
  exact (proj2 (write_hex16_reads_back 0xD83D H)).
Defined.

Lemma surrogate_pair_denotes_the_code_point_witness :
  0x10000 <= 0x1F600 <= 0x10FFFF
  /\ _sa_to_surrogate_pair 0x1F600 = (0xD83D, 0xDE00)
  /\ 0x10000 + (fst (_sa_to_surrogate_pair 0x1F600) - 0xD800) * 0x400
     + (snd (_sa_to_surrogate_pair 0x1F600) - 0xDC00) = 0x1F600.
Proof.
  assert (H : 0x10000 <= 0x1F600 <= 0x10FFFF) by (split; discriminate).
  split; [exact H|]. split; [reflexivity|].
  exact (proj2 (proj2 (surrogate_pair_denotes_the_code_point 0x1F600 H))).
Defined.

Lemma dump_string_writes_the_escaped_text_witness :
  sa_utf8_validate sample_payload = true
  /\ _sa_dump_string sample_payload EmptyString =
       Some (SA_OK,
             (quote ++ "caf" ++ String (ascii_of_nat 195) (String (ascii_of_nat 169) EmptyString)
                ++ backslash ++ quote ++ backslash ++ "n" ++ quote)%string).
Proof.
  split; [reflexivity|].
  rewrite (proj1 (dump_string_writes_the_escaped_text sample_payload EmptyString eq_refl)).
  reflexivity.
Defined.

Lemma accepted_names_need_no_escape_witness :
  _sa_assert_key_name (Some "product_name") = SA_OK
  /\ _sa_dump_string "product_name" EmptyString =
       Some (SA_OK, (quote ++ "product_name" ++ quote)%string).
Proof.
  split; [reflexivity|].
  exact (proj1 (proj2 (proj2 (accepted_names_need_no_escape "product_name" EmptyString
                                eq_refl)))).
Defined.

Lemma append_list_puts_the_string_in_front_witness :
  tag sample_dict = SA_DICT
  /\ distinct_keys (array_ sample_dict) = true
  /\ exists p',
       sa_append_list (Some "tags") "vip" 3 (Some sample_dict) = (SA_OK, Some p')
       /\ array_ p' = mkSANode (Some "tags") (list_ [element "vip"]) :: array_ sample_dict
       /\ sa_append_list (Some "os") "vip" 3 (Some sample_dict) = (SA_OK, Some sample_dict).
Proof.
  split; [reflexivity|]. split; [reflexivity|].
  destruct (append_list_puts_the_string_in_front "tags" "vip" 3 sample_dict eq_refl eq_refl)
    as ((p' & Heq & _ & _ & _ & _ & Hcase) & _).
  exists p'. split; [exact Heq|]. split; [exact (proj1 Hcase)|].
  destruct (append_list_puts_the_string_in_front "os" "vip" 3 sample_dict eq_refl eq_refl)
    as ((q & Heq' & _ & _ & _ & _ & Hcase') & _).
  rewrite Heq'. cbn in Hcase'. now rewrite Hcase'.
Defined.

Lemma appended_strings_are_listed_latest_first_witness :
  _sa_get_child (Some "tags") sample_dict = None
  /\ exists p',
       append_each "tags" ["a"; "b"; "c"] (Some sample_dict) = Some p'
       /\ _sa_get_child (Some "tags") p' =
            Some (mkSANode (Some "tags") (list_ [element "c"; element "b"; element "a"]))
       /\ _sa_get_child (Some "os") p' = Some (mkSANode (Some "os") (string_ "Android")).
Proof.
  split; [reflexivity|].
  destruct (appended_strings_are_listed_latest_first "tags" ["a"; "b"; "c"] sample_dict
              eq_refl eq_refl eq_refl ltac:(discriminate))
    as (p' & Heq & _ & _ & Hlist & Hother).
  exists p'. split; [exact Heq|]. split; [exact Hlist|].
  rewrite (Hother "os" ltac:(discriminate)). reflexivity.
Defined.

Lemma session_keeps_the_store_a_properties_object_witness :
  exists sa,
    session_run sample_localtime sample_printf_3f (list string) recording_op sample_calls
      (snd (sa_init [])) = Some sa
    /\ tag (super_properties sa) = SA_DICT
    /\ distinct_keys (array_ (super_properties sa)) = true
    /\ array_ (super_properties sa) =
         [mkSANode (Some "$project") (string_ "Foo"); mkSANode (Some "$time") (date_ 1000 5500)]
    /\ List.length (this_ sa) = 1%nat.
Proof.
  assert (H : exists sa,
             session_run sample_localtime sample_printf_3f (list string) recording_op
               sample_calls (snd (sa_init [])) = Some sa
             /\ array_ (super_properties sa) =
                  [mkSANode (Some "$project") (string_ "Foo");
                   mkSANode (Some "$time") (date_ 1000 5500)]
             /\ List.length (this_ sa) = 1%nat).
  { eexists. split; [vm_compute; reflexivity|]. split; reflexivity. }
  destruct H as (sa & Hrun & Harr & Hlen).
  destruct (session_keeps_the_store_a_properties_object sample_localtime sample_printf_3f
              (list string) recording_op [] sample_calls sa Hrun) as (Ht & _ & Hd & _).
  exists sa. auto.
Defined.


Lemma registered_properties_reach_the_envelope_witness :
  _sa_check_legality (Some "ABCDEF123456789") None "track" (Some "ViewHomePage") None = SA_OK
  /\ exists sa1 msg inner,
       sa_register_super_properties (Some sample_dict)
         (Some (mkSensorsAnalytics sa_init_properties ([] : list string))) = (SA_OK, Some sa1)
       /\ call_msg (track (Some "ABCDEF123456789") (Some "ViewHomePage") None)
            "demo.c" "main" 60 sample_now (super_properties sa1) = Next msg
       /\ EnvelopeSpec.field "properties" msg = Some inner
       /\ EnvelopeSpec.field "os" inner = Some (mkSANode (Some "os") (string_ "Android")).
Proof.
  split; [reflexivity|].
  assert (Hobj : EnvelopeSpec.properties_object None) by (intros p H; discriminate H).
  assert (Htyped : EnvelopeSpec.reserved_typed None) by (split; intros n H; discriminate H).
  destruct (registered_properties_reach_the_envelope (list string) sample_dict
              (mkSensorsAnalytics sa_init_properties [])
              (track (Some "ABCDEF123456789") (Some "ViewHomePage") None)
              "demo.c" "main" 60 sample_now eq_refl eq_refl eq_refl eq_refl eq_refl eq_refl
              Hobj Htyped)
    as (sa1 & Hreg & (msg & inner & Hmsg & Hprops & Hlook) & _).
  exists sa1, msg, inner. split; [exact Hreg|]. split; [exact Hmsg|]. split; [exact Hprops|].
  apply Hlook; try discriminate; reflexivity.
Defined.

Lemma longest_file_name_loses_a_digit_witness :
  10 ^ 6 <= _sa_get_current_date SampleWorld sample_time sample_localtime sample_world < 10 ^ 7
  /\ String.length sample_long_prefix = 500%nat
  /\ match _sa_logging_consumer_send SampleWorld string sample_time sample_localtime
             sample_fopen_append sample_fwrite sample_fflush sample_fclose
             (snd (sa_init_logging_consumer string sample_long_prefix)) (Some "{}") 2
             sample_world with
     | Some (_, Some inter', _) => Some (file_name inter')
     | _ => None
     end = Some (sample_long_prefix ++ ".log.117010")%string.
Proof.
  assert (H : 10 ^ 6 <= _sa_get_current_date SampleWorld sample_time sample_localtime
                          sample_world < 10 ^ 7) by (split; [discriminate|reflexivity]).
  split; [exact H|]. split; [reflexivity|].
  destruct (longest_file_name_loses_a_digit SampleWorld string sample_time sample_localtime
              sample_fopen_append sample_fwrite sample_fflush sample_fclose
              sample_long_prefix "{}" 2 sample_world H) as [Hlong _].
  destruct (Hlong eq_refl) as [_ Hname]. rewrite Hname. reflexivity.
Defined.

Lemma reserved_key_is_read_through_the_union_witness :
  _sa_check_legality (Some "ABCDEF123456789") None "profile_set" None
    (Some sample_int_time) = SA_OK
  /\ exists msg,
       call_msg (profile_set (Some "ABCDEF123456789") (Some sample_int_time))
         "demo.c" "main" 60 sample_now sample_store = Next msg
       /\ EnvelopeSpec.field "time" msg = Some (mkSANode (Some "time") (int_ 5000)).
Proof.
  split; [reflexivity|].
  assert (Hobj : EnvelopeSpec.properties_object (Some sample_int_time)).
  { intros p [= <-]. split; reflexivity. }
  assert (Hread : reserved_readable (Some sample_int_time)).
  { split; intros n [= <-]; discriminate. }
  destruct (reserved_key_is_read_through_the_union
              (profile_set (Some "ABCDEF123456789") (Some sample_int_time))
              "demo.c" "main" 60 sample_now sample_store eq_refl Hobj Hread)
    as (msg & Hmsg & _ & Hint & _).
  exists msg. split; [exact Hmsg|].
  exact (Hint (Some "$time") 5 eq_refl).
Defined.


Lemma track_writes_this_line_witness :
  (1 <= strlen "ABCDEF123456789" <= 255)
  /\ _sa_assert_key_name (Some "ViewHomePage") = SA_OK
  /\ exists line,
       run sample_localtime sample_printf_3f (list string) recording_op
         (track (Some "ABCDEF123456789") (Some "ViewHomePage") None)
         "demo.c" "main" 60 sample_now (mkSensorsAnalytics sa_init_properties []) =
       Some (SA_OK, mkSensorsAnalytics sa_init_properties [line])
       /\ String.length line = 239%nat.
Proof.
  split; [split; discriminate|]. split; [reflexivity|].
  eexists.
  rewrite (track_writes_this_line sample_localtime sample_printf_3f (list string) recording_op
             "ABCDEF123456789" "ViewHomePage" "demo.c" "main" 60 sample_now
             (mkSensorsAnalytics sa_init_properties [])
             ltac:(split; discriminate) eq_refl eq_refl eq_refl eq_refl eq_refl).
  split; reflexivity.
Defined.
